(** * Gamification dashboard: the artifact-generation pipeline

    A shallow embedding of [src/services/GeminiService.ts] and
    [src/services/ClaudeService.ts] (the multi-provider version), and the
    properties of the generation pipeline stated over it.

    The TypeScript code is asynchronous and effectful.  One request is modelled
    as a sequential computation in a state-and-exception monad over a [World]
    that holds the local file system, [process.env], the extension settings,
    the wall clock and the log of outbound provider calls.  The provider SDKs,
    Node's [path] module, [dotenv], [mime-types] and [Date] are not code of the
    repository: the SDKs answer through an oracle stored in the world, the pure
    library functions are the fields of the [Host] class.

    Conventions of the model:
    - a string is the sequence of the bytes of its UTF-8 encoding;
    - a thrown value is what the [catch] clauses can read from it: the
      message of an [Error] or the string the value converts to, or the fact
      that [String(value)] itself throws;
    - every awaited call settles, after the time its answer carries; the
      file-system calls take no time;
    - the [console.log] lines are left out, [console.error] is kept;
    - the [while (true)] loop of [waitActive] runs under a budget of
      iterations that it provably never exhausts. *)

From Stdlib Require Import NArith Ascii String.
From stdpp Require Import gmap strings list pretty.

Local Open Scope string_scope.
Local Open Scope N_scope.

(** ** JavaScript string primitives used by the services *)

Module JS.

(** One-character strings that cannot be written inside a literal. *)
Definition dquote : string := String "034"%char EmptyString.
Definition nl : string := String "010"%char EmptyString.
Definition backslash : ascii := "092"%char.

Fixpoint map_chars (f : ascii → ascii) (s : string) : string :=
  match s with
  | EmptyString => EmptyString
  | String c s' => String (f c) (map_chars f s')
  end.

(** [s.replace(/\\/g, '/')] *)
Definition replace_backslashes (s : string) : string :=
  map_chars (λ c, if Ascii.eqb c backslash then "/"%char else c) s.

(** [s.replace(/[:.]/g, '-')] *)
Definition replace_colon_dot (s : string) : string :=
  map_chars (λ c, if (Ascii.eqb c ":" || Ascii.eqb c ".")%bool then "-"%char else c) s.

(** [s.slice(0, n)] for [n] not negative. *)
Fixpoint slice0 (n : nat) (s : string) : string :=
  match n, s with
  | S n', String c s' => String c (slice0 n' s')
  | _, _ => EmptyString
  end.

Fixpoint drop (n : nat) (s : string) : string :=
  match n, s with
  | S n', String _ s' => drop n' s'
  | _, _ => s
  end.

(** [s.includes(pat)] *)
Fixpoint includes (pat s : string) : bool :=
  (String.prefix pat s ||
   match s with
   | EmptyString => false
   | String _ s' => includes pat s'
   end)%bool.

(** [s.replace(pat, rep)] with a string pattern: only the first occurrence
    is replaced. *)
Fixpoint replace_first (pat rep s : string) : string :=
  if String.prefix pat s then rep ++ drop (String.length pat) s
  else match s with
       | EmptyString => EmptyString
       | String c s' => String c (replace_first pat rep s')
       end.

(** The string of the bytes [l]. *)
Definition bytes (l : list nat) : string :=
  string_of_list_ascii (map ascii_of_nat l).

(** White space as [String.prototype.trim] sees it: the WhiteSpace and the
    LineTerminator code points of ECMAScript, each as its UTF-8 bytes.
    U+0009 to U+000D, U+0020, U+00A0, U+1680, U+2000 to U+200A, U+2028,
    U+2029, U+202F, U+205F, U+3000 and U+FEFF. *)
Definition white_space : list string :=
  map bytes
    [ [9]; [10]; [11]; [12]; [13]; [32];
      [194; 160]; [225; 154; 128];
      [226; 128; 128]; [226; 128; 129]; [226; 128; 130]; [226; 128; 131];
      [226; 128; 132]; [226; 128; 133]; [226; 128; 134]; [226; 128; 135];
      [226; 128; 136]; [226; 128; 137]; [226; 128; 138];
      [226; 128; 168]; [226; 128; 169]; [226; 128; 175];
      [226; 129; 159]; [227; 128; 128]; [239; 187; 191] ]%nat.

(** [Some rest] when [s] is [pre] followed by [rest]. *)
Fixpoint strip_prefix (pre s : string) : option string :=
  match pre, s with
  | EmptyString, _ => Some s
  | String c pre', String d s' => if Ascii.eqb c d then strip_prefix pre' s' else None
  | String _ _, EmptyString => None
  end.

(** [s] without the white-space character it starts with, if it starts
    with one. *)
Definition strip_space (s : string) : option string :=
  foldr (λ token found,
           match strip_prefix token s with
           | Some rest => Some rest
           | None => found
           end) None white_space.

(** [trimStart]: at most [n] leading white-space characters are removed. *)
Fixpoint trim_start_upto (n : nat) (s : string) : string :=
  match n with
  | O => s
  | S n' => match strip_space s with
            | Some rest => trim_start_upto n' rest
            | None => s
            end
  end.

Definition trim_start (s : string) : string :=
  trim_start_upto (String.length s) s.

(** [trimEnd]: the longest suffix made of white space is removed. *)
Fixpoint trim_end (s : string) : string :=
  if String.eqb (trim_start s) EmptyString then EmptyString
  else match s with
       | EmptyString => EmptyString
       | String c s' => String c (trim_end s')
       end.

(** [s.trim()] *)
Definition trim (s : string) : string := trim_end (trim_start s).

(** Truthiness of an optional string: [undefined] and [''] are falsy. *)
Definition truthy (o : option string) : bool :=
  match o with
  | Some (String _ _) => true
  | _ => false
  end.

(** [a || b] on optional strings. *)
Definition or_else (a b : option string) : option string :=
  if truthy a then a else b.

(** [a || d] with a string default. *)
Definition or_default (a : option string) (d : string) : string :=
  match a with
  | Some (String c s) => String c s
  | _ => d
  end.

(** [a ?? d] with a string default. *)
Definition nullish_default (a : option string) (d : string) : string :=
  match a with
  | Some s => s
  | None => d
  end.

(** [l.join(sep)] *)
Definition join (sep : string) (l : list string) : string := String.concat sep l.

(** Decimal rendering of a number, as a template literal does. *)
Definition show_nat (n : nat) : string := pretty n.

End JS.

Arguments JS.slice0 : simpl never.
Arguments JS.replace_colon_dot : simpl never.
Arguments JS.replace_backslashes : simpl never.
Arguments JS.replace_first : simpl never.
Arguments JS.includes : simpl never.
Arguments JS.trim : simpl never.
Arguments JS.show_nat : simpl never.

(** ** The host platform

    Pure functions of Node and of the libraries the services import.  They are
    platform dependent ([path] differs between POSIX and Windows), so the
    services are embedded over any implementation of them. *)

Class Host := {
  path_join : string → string → string;      (* path.join(a, b) *)
  path_dirname : string → string;            (* path.dirname(p) *)
  path_basename : string → string;           (* path.basename(p) *)
  mime_lookup : string → option string;      (* mime.lookup(p), [None] for false *)
  dotenv_parse : string → list (string * string); (* KEY=value lines of a file *)
  toISOString : N → string;                  (* new Date(ms).toISOString() *)
}.

(** ** Data model *)

(** [GeminiGenerationResult] and [ClaudeGenerationResult]: the same shape. *)
Record GenerationResult := {
  success : bool;
  outputPath : option string;
  error : option string;
}.

(** A file object of the Files API; every field may be missing. *)
Record FileObj := {
  f_name : option string;
  f_state : option string;
  f_status : option string;
  f_uri : option string;
  f_mimeType : option string;
}.

(** One element of [contents[0].parts] after the prompt text. *)
Record FilePart := {
  fileUri : option string;
  mimeType : string;
}.

(** A content block of an Anthropic message. *)
Record ContentBlock := {
  block_type : string;
  block_text : string;
}.

(** Outbound calls of the provider SDKs. *)
Inductive RemoteCall :=
| FilesUpload (file mime displayName : string)
| FilesGet (name : string)
| FilesDelete (name : string)
| ModelsGenerateContent (model prompt : string) (parts : list FilePart)
    (systemInstruction : option string)
| AnthropicMessagesCreate (model prompt : string)
| GoogleGenerateContent (model prompt : string)
| OpenAIChatCompletionsCreate (model prompt : string).

(** A thrown value or the reason of a rejected promise, as far as a [catch]
    clause of the services can tell values apart.  The clauses read
    [error instanceof Error ? error.message : String(error)]: [Err message]
    is an [Error] with that message or a value that [String] converts to it;
    [Unprintable] is a value that [String] cannot convert, such as an object
    without [toString] and [valueOf], for which the conversion throws a
    [TypeError]. *)
Inductive Thrown :=
| Err (message : string)
| Unprintable.

Coercion Err : string >-> Thrown.

(** The answer to an awaited call: how long it took, and either the reason
    of the rejection or the value. *)
Record Reply (A : Type) := {
  latency : N;
  payload : Thrown + A;
}.
Arguments latency {A} _.
Arguments payload {A} _.

(** The remote side: what the [n]-th outbound call of the world answers. *)
Record Remote := {
  reply_file : nat → RemoteCall → Reply FileObj;
  reply_text : nat → RemoteCall → Reply (option string);
  reply_blocks : nat → RemoteCall → Reply (list ContentBlock);
}.

(** File-system operations, the unit of failure injection. *)
Inductive FsOp :=
| OpMkdir (p : string)
| OpCopyFile (src dst : string)
| OpReadFile (p : string)
| OpWriteFile (p : string)
| OpUnlink (p : string).

(** [vscode.workspace.getConfiguration('gamificationDashboard')] *)
Record Config := {
  aiProvider : option string;
  aiModel : option string;
  anthropicApiKey : option string;
  googleApiKey : option string;
  openaiApiKey : option string;
}.

Record World := {
  fs_files : gmap string string;      (* regular files and their content *)
  fs_dirs : gset string;              (* directories *)
  fs_fault : FsOp → option string;    (* operations the system rejects *)
  fs_torn : string → option (string * nat);
                                      (* writes that fail after the file is open:
                                         the error, and the bytes written before it *)
  fs_probes : list string;            (* paths asked to existsSync, oldest first *)
  process_env : gmap string string;
  config : Config;
  config_fault : option string;       (* getConfiguration throws this *)
  remote : Remote;
  clock : N;                          (* Date.now(), in milliseconds *)
  net_calls : list RemoteCall;        (* outbound calls, oldest first *)
  fs_writes : list (string * string); (* completed writeFile calls, oldest first *)
  console_errors : list string;       (* console.error lines, oldest first *)
}.

Definition set_files (f : gmap string string) (w : World) : World :=
  {| fs_files := f; fs_dirs := fs_dirs w; fs_fault := fs_fault w; fs_torn := fs_torn w;
     fs_probes := fs_probes w;
     process_env := process_env w; config := config w;
     config_fault := config_fault w; remote := remote w; clock := clock w;
     net_calls := net_calls w; fs_writes := fs_writes w;
     console_errors := console_errors w |}.

Definition set_dirs (d : gset string) (w : World) : World :=
  {| fs_files := fs_files w; fs_dirs := d; fs_fault := fs_fault w; fs_torn := fs_torn w;
     fs_probes := fs_probes w;
     process_env := process_env w; config := config w;
     config_fault := config_fault w; remote := remote w; clock := clock w;
     net_calls := net_calls w; fs_writes := fs_writes w;
     console_errors := console_errors w |}.

Definition set_env (e : gmap string string) (w : World) : World :=
  {| fs_files := fs_files w; fs_dirs := fs_dirs w; fs_fault := fs_fault w; fs_torn := fs_torn w;
     fs_probes := fs_probes w;
     process_env := e; config := config w;
     config_fault := config_fault w; remote := remote w; clock := clock w;
     net_calls := net_calls w; fs_writes := fs_writes w;
     console_errors := console_errors w |}.

Definition set_clock (t : N) (w : World) : World :=
  {| fs_files := fs_files w; fs_dirs := fs_dirs w; fs_fault := fs_fault w; fs_torn := fs_torn w;
     fs_probes := fs_probes w;
     process_env := process_env w; config := config w;
     config_fault := config_fault w; remote := remote w; clock := t;
     net_calls := net_calls w; fs_writes := fs_writes w;
     console_errors := console_errors w |}.

Definition set_net_calls (l : list RemoteCall) (w : World) : World :=
  {| fs_files := fs_files w; fs_dirs := fs_dirs w; fs_fault := fs_fault w; fs_torn := fs_torn w;
     fs_probes := fs_probes w;
     process_env := process_env w; config := config w;
     config_fault := config_fault w; remote := remote w; clock := clock w;
     net_calls := l; fs_writes := fs_writes w;
     console_errors := console_errors w |}.

Definition set_fs_writes (l : list (string * string)) (w : World) : World :=
  {| fs_files := fs_files w; fs_dirs := fs_dirs w; fs_fault := fs_fault w; fs_torn := fs_torn w;
     fs_probes := fs_probes w;
     process_env := process_env w; config := config w;
     config_fault := config_fault w; remote := remote w; clock := clock w;
     net_calls := net_calls w; fs_writes := l;
     console_errors := console_errors w |}.

Definition set_fs_probes (l : list string) (w : World) : World :=
  {| fs_files := fs_files w; fs_dirs := fs_dirs w; fs_fault := fs_fault w; fs_torn := fs_torn w;
     fs_probes := l;
     process_env := process_env w; config := config w;
     config_fault := config_fault w; remote := remote w; clock := clock w;
     net_calls := net_calls w; fs_writes := fs_writes w;
     console_errors := console_errors w |}.

Definition set_config (c : Config) (w : World) : World :=
  {| fs_files := fs_files w; fs_dirs := fs_dirs w; fs_fault := fs_fault w; fs_torn := fs_torn w;
     fs_probes := fs_probes w;
     process_env := process_env w; config := c;
     config_fault := config_fault w; remote := remote w; clock := clock w;
     net_calls := net_calls w; fs_writes := fs_writes w;
     console_errors := console_errors w |}.

Definition set_fs_fault (f : FsOp → option string) (w : World) : World :=
  {| fs_files := fs_files w; fs_dirs := fs_dirs w; fs_fault := f; fs_torn := fs_torn w;
     fs_probes := fs_probes w;
     process_env := process_env w; config := config w;
     config_fault := config_fault w; remote := remote w; clock := clock w;
     net_calls := net_calls w; fs_writes := fs_writes w;
     console_errors := console_errors w |}.

Definition set_fs_torn (f : string → option (string * nat)) (w : World) : World :=
  {| fs_files := fs_files w; fs_dirs := fs_dirs w; fs_fault := fs_fault w; fs_torn := f;
     fs_probes := fs_probes w;
     process_env := process_env w; config := config w;
     config_fault := config_fault w; remote := remote w; clock := clock w;
     net_calls := net_calls w; fs_writes := fs_writes w;
     console_errors := console_errors w |}.

Definition set_console_errors (l : list string) (w : World) : World :=
  {| fs_files := fs_files w; fs_dirs := fs_dirs w; fs_fault := fs_fault w; fs_torn := fs_torn w;
     fs_probes := fs_probes w;
     process_env := process_env w; config := config w;
     config_fault := config_fault w; remote := remote w; clock := clock w;
     net_calls := net_calls w; fs_writes := fs_writes w;
     console_errors := l |}.

(** ** The monad of one request

    [Throw e] is a JavaScript exception or a rejected promise with the
    thrown value [e].  [Diverge] marks a loop that ran out of the iterations
    granted to it. *)

Inductive Outcome (A : Type) :=
| Ok (a : A)
| Throw (e : Thrown)
| Diverge.
Arguments Ok {A} a.
Arguments Throw {A} e.
Arguments Diverge {A}.

Definition M (A : Type) : Type := World → Outcome A * World.

Definition ret {A} (a : A) : M A := λ w, (Ok a, w).

Definition bind {A B} (m : M A) (f : A → M B) : M B := λ w,
  match m w with
  | (Ok a, w') => f a w'
  | (Throw e, w') => (Throw e, w')
  | (Diverge, w') => (Diverge, w')
  end.

Declare Scope request_scope.
Delimit Scope request_scope with request.
Bind Scope request_scope with M.

Notation "'let*' x := m 'in' k" := (bind m (λ x, k))
  (at level 10, x pattern, m at level 100, k at level 200) : request_scope.
Notation "m ;; k" := (bind m (λ _, k))
  (at level 100, k at level 200, right associativity) : request_scope.

Local Open Scope request_scope.

(** [throw new Error(msg)] *)
Definition throw {A} (msg : string) : M A := λ w, (Throw (Err msg), w).

Definition diverge {A} : M A := λ w, (Diverge, w).

(** [try { body } catch (error) { handler(message of error) }] *)
Definition try_catch {A} (body : M A) (handler : Thrown → M A) : M A := λ w,
  match body w with
  | (Throw e, w') => handler e w'
  | r => r
  end.

(** [error instanceof Error ? error.message : String(error)]: the
    conversion of a value without a string conversion throws a
    [TypeError]. *)
Definition message_of (error : Thrown) : M string :=
  match error with
  | Err message => ret message
  | Unprintable => throw "Cannot convert object to primitive value"
  end.

(** What [console.error] prints for a thrown value; it never throws. *)
Definition inspect (error : Thrown) : string :=
  match error with
  | Err message => message
  | Unprintable => "[Object: null prototype] {}"
  end.

Definition gets {A} (f : World → A) : M A := λ w, (Ok (f w), w).

Definition modify (f : World → World) : M unit := λ w, (Ok tt, f w).

(** A [try] block seen from its [catch] clause: the value of the block, or
    the value it threw. *)
Definition attempt {A} (body : M A) : M (Thrown + A) := λ w,
  match body w with
  | (Ok a, w') => (Ok (inr a), w')
  | (Throw e, w') => (Ok (inl e), w')
  | (Diverge, w') => (Diverge, w')
  end.

(** [for (const x of l) { body(x) }] *)
Fixpoint for_each {A} (body : A → M unit) (l : list A) : M unit :=
  match l with
  | [] => ret tt
  | x :: l' => body x ;; for_each body l'
  end.

(** A sequential [map] of an effectful function, results in input order. *)
Fixpoint map_M {A B} (f : A → M B) (l : list A) : M (list B) :=
  match l with
  | [] => ret []
  | x :: l' => let* y := f x in let* ys := map_M f l' in ret (y :: ys)
  end.

(** ** Primitives: file system, clock, console, settings, network *)

Section Primitives.
Context `{Host}.

Definition exists_in (w : World) (p : string) : bool :=
  bool_decide (is_Some (fs_files w !! p)) || bool_decide (p ∈ fs_dirs w).

(** [fs.existsSync(p)]: true for files and for directories, never throws.
    The query is recorded. *)
Definition existsSync (p : string) : M bool := λ w,
  (Ok (exists_in w p), set_fs_probes (fs_probes w ++ [p]) w).

(** An operation the system rejects throws and changes nothing. *)
Definition guarded {A} (op : FsOp) (m : M A) : M A := λ w,
  match fs_fault w op with
  | Some msg => (Throw msg, w)
  | None => m w
  end.

(** The directories that [mkdir -p] has to create for [p]: [p] and its
    ancestors, upward until one that exists or until the root.  A path has no
    more ancestors than characters, which bounds the walk. *)
Fixpoint missing_dirs (w : World) (steps : nat) (p : string) : list string :=
  match steps with
  | O => []
  | S steps' =>
      if bool_decide (p ∈ fs_dirs w) then []
      else p :: (if String.eqb (path_dirname p) p then []
                 else missing_dirs w steps' (path_dirname p))
  end.

(** [fs.mkdirSync(p, { recursive: true })]: creates [p] and its missing
    ancestors; a regular file in the way is an error. *)
Definition mkdirSync (p : string) : M unit :=
  guarded (OpMkdir p) (λ w,
    let missing := missing_dirs w (S (String.length p)) p in
    match filter (λ q, is_Some (fs_files w !! q)) missing with
    | [] => (Ok tt, set_dirs (list_to_set missing ∪ fs_dirs w) w)
    | q :: _ =>
        if String.eqb q p
        then (Throw ("EEXIST: file already exists, mkdir '" ++ p ++ "'"), w)
        else (Throw ("ENOTDIR: not a directory, mkdir '" ++ p ++ "'"), w)
    end).

(** [fs.promises.copyFile(src, dst)] *)
Definition copyFile (src dst : string) : M unit :=
  guarded (OpCopyFile src dst) (λ w,
    match fs_files w !! src with
    | None =>
        (Throw ("ENOENT: no such file or directory, copyfile '" ++ src
                ++ "' -> '" ++ dst ++ "'"), w)
    | Some c =>
        if bool_decide (dst ∈ fs_dirs w)
        then (Throw ("EISDIR: illegal operation on a directory, copyfile '" ++ src
                     ++ "' -> '" ++ dst ++ "'"), w)
        else if bool_decide (path_dirname dst ∈ fs_dirs w)
        then (Ok tt, set_files (<[dst := c]> (fs_files w)) w)
        else (Throw ("ENOENT: no such file or directory, copyfile '" ++ src
                     ++ "' -> '" ++ dst ++ "'"), w)
    end).

(** [fs.promises.readFile(p, 'utf8')] *)
Definition readFile (p : string) : M string :=
  guarded (OpReadFile p) (λ w,
    match fs_files w !! p with
    | Some c => (Ok c, w)
    | None =>
        if bool_decide (p ∈ fs_dirs w)
        then (Throw "EISDIR: illegal operation on a directory, read", w)
        else (Throw ("ENOENT: no such file or directory, open '" ++ p ++ "'"), w)
    end).

(** [fs.promises.writeFile(p, c, 'utf8')]: the file is opened with the
    flag ['w'], which creates or empties it, and then written.  An error at
    the open leaves the world as it was; an error after the open leaves the
    file with the bytes written before it.  A completed write is
    recorded. *)
Definition writeFile (p c : string) : M unit :=
  guarded (OpWriteFile p) (λ w,
    if bool_decide (p ∈ fs_dirs w)
    then (Throw ("EISDIR: illegal operation on a directory, open '" ++ p ++ "'"), w)
    else if bool_decide (path_dirname p ∈ fs_dirs w)
    then match fs_torn w p with
         | Some (msg, written) =>
             (Throw msg, set_files (<[p := JS.slice0 written c]> (fs_files w)) w)
         | None =>
             (Ok tt, set_fs_writes (fs_writes w ++ [(p, c)])
                       (set_files (<[p := c]> (fs_files w)) w))
         end
    else (Throw ("ENOENT: no such file or directory, open '" ++ p ++ "'"), w)).

(** [fs.promises.unlink(p)] *)
Definition unlink (p : string) : M unit :=
  guarded (OpUnlink p) (λ w,
    match fs_files w !! p with
    | Some _ => (Ok tt, set_files (delete p (fs_files w)) w)
    | None =>
        if bool_decide (p ∈ fs_dirs w)
        then (Throw ("EISDIR: illegal operation on a directory, unlink '" ++ p ++ "'"), w)
        else (Throw ("ENOENT: no such file or directory, unlink '" ++ p ++ "'"), w)
    end).

(** [dotenv.config({ path })]: the variables of the file that
    [process.env] does not define yet are added; a file that cannot be read
    adds nothing and nothing is thrown. *)
Definition dotenv_load (env : gmap string string) (kvs : list (string * string))
    : gmap string string :=
  foldl (λ e kv, match e !! kv.1 with
                 | Some _ => e
                 | None => <[kv.1 := kv.2]> e
                 end) env kvs.

Definition dotenv_config (envPath : string) : M unit :=
  modify (λ w,
    match fs_fault w (OpReadFile envPath), fs_files w !! envPath with
    | None, Some content =>
        set_env (dotenv_load (process_env w) (dotenv_parse content)) w
    | _, _ => w
    end).

(** [Date.now()] *)
Definition Date_now : M N := gets clock.

(** [new Date().toISOString()] *)
Definition Date_toISOString : M string := gets (λ w, toISOString (clock w)).

(** [await new Promise(resolve => setTimeout(resolve, ms))] *)
Definition sleep (ms : N) : M unit := modify (λ w, set_clock (clock w + ms) w).

(** [console.error(line)] *)
Definition console_error (line : string) : M unit :=
  modify (λ w, set_console_errors (console_errors w ++ [line]) w).

(** [vscode.workspace.getConfiguration('gamificationDashboard')] *)
Definition getConfiguration : M Config := λ w,
  match config_fault w with
  | Some msg => (Throw msg, w)
  | None => (Ok (config w), w)
  end.

(** An awaited SDK call: it is logged, takes the time of its answer, and
    resolves or rejects as the remote side decides. *)
Definition call_remote {A} (oracle : Remote → nat → RemoteCall → Reply A)
    (c : RemoteCall) : M A := λ w,
  let r := oracle (remote w) (length (net_calls w)) c in
  let w' := set_clock (clock w + latency r) (set_net_calls (net_calls w ++ [c]) w) in
  match payload r with
  | inl reason => (Throw reason, w')
  | inr a => (Ok a, w')
  end.

(** [new Date().toISOString().replace(/[:.]/g, '-').slice(0, 19)], the
    expression every operation names its artifact with. *)
Definition timestamp : M string :=
  let* iso := Date_toISOString in
  ret (JS.slice0 19 (JS.replace_colon_dot iso)).

End Primitives.

(** [{ success: false, error: msg }] *)
Definition failure (msg : string) : GenerationResult :=
  {| success := false; outputPath := None; error := Some msg |}.

(** [{ success: true, outputPath: path }] *)
Definition succeeded (path : string) : GenerationResult :=
  {| success := true; outputPath := Some path; error := None |}.

(** ** [GeminiService]: upload to the Files API, wait, generate, clean up *)

Module GeminiService.
Section Service.
Context `{Host}.

Definition UPLOADS_FOLDER_NAME : string := "uploads-to-GenAI".
Definition TIMEOUT_MS : N := 120000.
Definition POLL_INTERVAL_MS : N := 1500.

Definition normalizePath (inputPath : string) : string :=
  JS.replace_backslashes inputPath.

Definition maxLevelsUp : nat := 5.

Definition anchor_not_found (outputDirectory : string) : string :=
  "Could not find .env file. Searched up from: " ++ outputDirectory ++ "
Please create a .env file with GEMINI_API_KEY=your_key in your project root directory.".

(** The [for] loop of [findProjectRoot] with [levels] iterations left:
    [Some dir] is the [return] inside the loop, [None] is leaving the loop
    (bound reached, or [break] at the root). *)
Fixpoint findProjectRoot_loop (levels : nat) (currentDir : string) : M (option string) :=
  match levels with
  | O => ret None
  | S levels' =>
      let envPath := path_join currentDir ".env" in
      let* found := existsSync envPath in
      if found then ret (Some currentDir)
      else
        let parentDir := path_dirname currentDir in
        if String.eqb parentDir currentDir then ret None
        else findProjectRoot_loop levels' parentDir
  end.

(** The directory listing read in the loop only feeds [console.log] inside
    a [try] of its own; it is left out, as are the other debug lines. *)
Definition findProjectRoot (outputDirectory : string) : M string :=
  let* r := findProjectRoot_loop maxLevelsUp (normalizePath outputDirectory) in
  match r with
  | Some dir => ret dir
  | None => throw (anchor_not_found outputDirectory)
  end.

Definition getUploadsFolderPath (projectRoot : string) : string :=
  path_join projectRoot UPLOADS_FOLDER_NAME.

Definition loadEnvApiKey (projectRoot : string) : M string :=
  let envPath := path_join projectRoot ".env" in
  let* found := existsSync envPath in
  (if found then dotenv_config envPath
   else throw ("No .env file found at " ++ envPath
               ++ ". Please create a .env file with GEMINI_API_KEY=your_key"));;
  let* env := gets process_env in
  let apiKey := JS.or_else (env !! "GEMINI_API_KEY") (env !! "GOOGLE_API_KEY") in
  match apiKey with
  | Some (String c k) => ret (String c k)
  | _ => throw ("GEMINI_API_KEY not found in .env file at " ++ envPath
                ++ ". Please add: GEMINI_API_KEY=your_key")
  end.

(** [(f as any)?.state || (f as any)?.status] *)
Definition file_state (f : option FileObj) : option string :=
  JS.or_else (f ≫= f_state) (f ≫= f_status).

Definition failed_processing (fileName : string) : string :=
  "File failed processing: " ++ fileName.

Definition timed_out (fileName : string) : string :=
  "Timed out waiting for ACTIVE: " ++ fileName.

(** [await ai.files.get({ name: fileName }).catch(() => null)] *)
Definition files_get (fileName : string) : M (option FileObj) :=
  try_catch (let* f := call_remote reply_file (FilesGet fileName) in ret (Some f))
            (λ _, ret None).

(** The [while (true)] loop of [waitActive], granted [polls] iterations.
    [Date.now() - start] is not negative: the clock never goes back. *)
Fixpoint waitActive_loop (polls : nat) (fileName : string)
    (start timeoutMs intervalMs : N) : M (option FileObj) :=
  match polls with
  | O => diverge
  | S polls' =>
      let* f := files_get fileName in
      let state := file_state f in
      if bool_decide (state = Some "ACTIVE") then ret f
      else if bool_decide (state = Some "FAILED") then throw (failed_processing fileName)
      else
        let* now := Date_now in
        if timeoutMs <? now - start then throw (timed_out fileName)
        else sleep intervalMs;; waitActive_loop polls' fileName start timeoutMs intervalMs
  end.

Definition waitActive (polls : nat) (fileName : string) (timeoutMs intervalMs : N)
    : M (option FileObj) :=
  let* start := Date_now in
  waitActive_loop polls fileName start timeoutMs intervalMs.

(** Iterations that the loop cannot exceed when [intervalMs] is positive. *)
Definition poll_budget (timeoutMs intervalMs : N) : nat :=
  N.to_nat (timeoutMs / intervalMs) + 2.

Definition copyFilesToUploadsFolder (filePaths : list string) (projectRoot : string)
    : M (list string) :=
  let uploadsFolder := getUploadsFolderPath projectRoot in
  let* found := existsSync uploadsFolder in
  (if negb found then mkdirSync uploadsFolder else ret tt);;
  map_M (λ filePath,
           let normalizedFilePath := normalizePath filePath in
           let fileName := path_basename normalizedFilePath in
           let destPath := path_join uploadsFolder fileName in
           copyFile normalizedFilePath destPath;;
           ret destPath) filePaths.

Definition delete_failed (filePath msg : string) : string :=
  "Failed to delete file " ++ filePath ++ ": " ++ msg.

Definition cleanupUploadsFolder (filePaths : list string) : M unit :=
  for_each (λ filePath,
              try_catch (let* found := existsSync filePath in
                         if found then unlink filePath else ret tt)
                        (λ error, console_error (delete_failed filePath (inspect error))))
           filePaths.

(** One turn of the upload loop of [uploadAndGenerate]. *)
Definition upload_one (localPath : string) : M (option FileObj) :=
  let mimeType := JS.or_default (mime_lookup localPath) "application/octet-stream" in
  let displayName := path_basename localPath in
  let* file := call_remote reply_file (FilesUpload localPath mimeType displayName) in
  match f_name file with
  | Some (String c n) =>
      waitActive (poll_budget TIMEOUT_MS POLL_INTERVAL_MS) (String c n)
                 TIMEOUT_MS POLL_INTERVAL_MS
  | _ => throw ("Upload failed for " ++ displayName ++ ": no file name returned")
  end.

(** [uploaded.map(f => ({ fileData: { fileUri: f.uri, mimeType: ... } }))];
    reading a property of [null] throws. *)
Definition file_part (f : option FileObj) : M FilePart :=
  match f with
  | Some fo => ret {| fileUri := f_uri fo;
                       mimeType := JS.or_default (f_mimeType fo) "application/octet-stream" |}
  | None => throw "TypeError: Cannot read properties of null (reading 'uri')"
  end.

Definition uploadAndGenerate (filePaths : list string) (prompt projectRoot model : string)
    (systemInstruction : option string) : M string :=
  let* apiKey := loadEnvApiKey projectRoot in
  let* uploaded := map_M upload_one filePaths in
  let* fileParts := map_M file_part uploaded in
  let sys := if JS.truthy systemInstruction then systemInstruction else None in
  let* resp := call_remote reply_text (ModelsGenerateContent model prompt fileParts sys) in
  ret (JS.nullish_default resp EmptyString).

(** The [catch] clause of both public operations, for the value that
    [copiedFiles] holds when the exception arrives. *)
Definition on_error (copiedFiles : list string) (error : Thrown) : M GenerationResult :=
  (if (0 <? length copiedFiles)%nat then cleanupUploadsFolder copiedFiles else ret tt);;
  let* message := message_of error in
  ret (failure message).

Definition specification_prompt (projectName : string) (nSource nPrompting : nat) : string :=
  "You are tasked with creating a game specification for the project "
  ++ JS.dquote ++ projectName ++ JS.dquote ++ ".

The files uploaded include:
- Source documents (" ++ JS.show_nat nSource ++ " files): These provide the context and content for the game
- Prompting/Guideline documents (" ++ JS.show_nat nPrompting ++ " files): These provide guidelines and instructions

# Task

Based on the source documents and following the guidelines in the prompting documents, create a detailed game specification in Markdown format. The specification should include:

1. **Game Overview**: Summary of the game concept and learning objectives
2. **Game Mechanics**: Detailed description of how the game works
3. **Content Integration**: How source document content is integrated into gameplay
4. **Player Experience**: Expected player interactions and progression
5. **Technical Requirements**: Any technical specifications needed for implementation
6. **Success Criteria**: How to measure if the game achieves its objectives

Please provide a complete, well-structured game specification document.".

Definition specification_systemInstruction : string :=
  "You are an expert game designer specializing in educational gamification. You create engaging, pedagogically sound game specifications that transform academic content into interactive learning experiences.".

Definition implementation_prompt (projectName : string) : string :=
  "You are tasked with implementing a SOLUZION game for the project "
  ++ JS.dquote ++ projectName ++ JS.dquote ++ ".

The uploaded files contain game specification(s) that describe the game to be implemented.

# Task

Based on the game specification(s), create a complete SOLUZION game implementation.

Please provide all necessary files for a working SOLUZION game, including:
1. Main game logic files
2. Content/data files
3. Configuration files
4. Any supporting assets or resources
5. README with setup and usage instructions

Format your response as a structured set of files that can be packaged into a zip archive.".

Definition implementation_systemInstruction : string :=
  "You are an expert SOLUZION game developer. You create complete, functional game implementations based on specifications, with clean code and clear documentation.".

(** The statements of the [try] block of [generateGameSpecification] up to
    and including the assignment to [copiedFiles]. *)
Definition specification_staging (sourceDocuments promptingDocuments : list string)
    (outputDirectory : string) : M (string * list string) :=
  let* projectRoot := findProjectRoot outputDirectory in
  let allFiles := (sourceDocuments ++ promptingDocuments)%list in
  let* copiedFiles := copyFilesToUploadsFolder allFiles projectRoot in
  ret (projectRoot, copiedFiles).

(** The statements after the assignment. *)
Definition specification_generation (sourceDocuments promptingDocuments : list string)
    (outputDirectory projectName model : string) (projectRoot : string)
    (copiedFiles : list string) : M GenerationResult :=
  let prompt := specification_prompt projectName (length sourceDocuments)
                                     (length promptingDocuments) in
  let* result := uploadAndGenerate copiedFiles prompt projectRoot model
                   (Some specification_systemInstruction) in
  let* ts := timestamp in
  let outputFileName := projectName ++ "-spec-" ++ ts ++ ".md" in
  let outputPath := path_join outputDirectory outputFileName in
  writeFile outputPath result;;
  cleanupUploadsFolder copiedFiles;;
  ret (succeeded outputPath).

(** The operation is one [try] with one [catch] clause.  [copiedFiles] is
    [[]] until the staging completes, so an exception of the staging reaches
    the clause with the empty list and a later one with the list of the
    staged copies; what the clause itself throws leaves the operation. *)
Definition generateGameSpecification (sourceDocuments promptingDocuments : list string)
    (outputDirectory projectName model : string) : M GenerationResult :=
  let* staged :=
    attempt (specification_staging sourceDocuments promptingDocuments outputDirectory) in
  match staged with
  | inl error => on_error [] error
  | inr (projectRoot, copiedFiles) =>
      try_catch
        (specification_generation sourceDocuments promptingDocuments outputDirectory
           projectName model projectRoot copiedFiles)
        (on_error copiedFiles)
  end.

Definition implementation_staging (gameSpecifications : list string)
    (outputDirectory : string) : M (string * list string) :=
  let* projectRoot := findProjectRoot outputDirectory in
  let* copiedFiles := copyFilesToUploadsFolder gameSpecifications projectRoot in
  ret (projectRoot, copiedFiles).

Definition implementation_generation (outputDirectory projectName model : string)
    (projectRoot : string) (copiedFiles : list string) : M GenerationResult :=
  let prompt := implementation_prompt projectName in
  let* result := uploadAndGenerate copiedFiles prompt projectRoot model
                   (Some implementation_systemInstruction) in
  let* ts := timestamp in
  let outputFileName := projectName ++ "-game-" ++ ts ++ ".txt" in
  let outputPath := path_join outputDirectory outputFileName in
  writeFile outputPath result;;
  cleanupUploadsFolder copiedFiles;;
  ret (succeeded outputPath).

Definition implementGame (gameSpecifications : list string)
    (outputDirectory projectName model : string) : M GenerationResult :=
  let* staged := attempt (implementation_staging gameSpecifications outputDirectory) in
  match staged with
  | inl error => on_error [] error
  | inr (projectRoot, copiedFiles) =>
      try_catch
        (implementation_generation outputDirectory projectName model
           projectRoot copiedFiles)
        (on_error copiedFiles)
  end.

End Service.
End GeminiService.

(** ** [ClaudeService]: provider selection and the direct-text providers *)

Module ClaudeService.
Section Service.
Context `{Host}.

Definition missing_anthropic_key : string :=
  "Anthropic API key not configured. Please set it in Settings: Gamification Dashboard > Anthropic Api Key. Get your API key from https://console.anthropic.com/".

Definition missing_google_key : string :=
  "Google API key not configured. Please set it in Settings: Gamification Dashboard > Google Api Key. Get your API key from https://aistudio.google.com/apikey".

Definition missing_openai_key : string :=
  "OpenAI API key not configured. Please set it in Settings: Gamification Dashboard > Openai Api Key. Get your API key from https://platform.openai.com/api-keys".

(** [!apiKey || apiKey.trim() === ''] *)
Definition key_missing (apiKey : option string) : bool :=
  match apiKey with
  | Some (String c k) => String.eqb (JS.trim (String c k)) EmptyString
  | _ => true
  end.

Definition sendToAnthropic (prompt model : string) : M string :=
  let* config := getConfiguration in
  let apiKey := anthropicApiKey config in
  if key_missing apiKey then throw missing_anthropic_key
  else
    let* content := call_remote reply_blocks (AnthropicMessagesCreate model prompt) in
    ret (foldl (λ fullResponse block,
                  if String.eqb (block_type block) "text"
                  then fullResponse ++ block_text block
                  else fullResponse) EmptyString content).

(** [response.text()] of the Google SDK returns the text or throws, for a
    blocked response; the remote side answers [None] for the latter. *)
Definition sendToGoogle (prompt model : string) : M string :=
  let* config := getConfiguration in
  let apiKey := googleApiKey config in
  if key_missing apiKey then throw missing_google_key
  else
    let* text := call_remote reply_text (GoogleGenerateContent model prompt) in
    match text with
    | Some t => ret t
    | None => throw "Response was blocked"
    end.

Definition sendToOpenAI (prompt model : string) : M string :=
  let* config := getConfiguration in
  let apiKey := openaiApiKey config in
  if key_missing apiKey then throw missing_openai_key
  else
    let* content := call_remote reply_text (OpenAIChatCompletionsCreate model prompt) in
    ret (JS.or_default content EmptyString).

Definition sendToAI (prompt : string) : M string :=
  try_catch
    (let* config := getConfiguration in
     let provider := JS.or_default (aiProvider config) "anthropic" in
     let model := JS.or_default (aiModel config) "claude-3-5-sonnet-20241022" in
     if String.eqb provider "anthropic" then sendToAnthropic prompt model
     else if String.eqb provider "google" then sendToGoogle prompt model
     else if String.eqb provider "openai" then sendToOpenAI prompt model
     else throw ("Unknown AI provider: " ++ provider))
    (λ error,
       let* message := message_of error in
       throw ("Failed to communicate with AI: " ++ message)).

Definition document_separator : string :=
  JS.nl ++ JS.nl ++ "---" ++ JS.nl ++ JS.nl.

Definition specification_head (projectName : string) : string :=
  "You are tasked with creating a game specification for the project "
  ++ JS.dquote ++ projectName ++ JS.dquote ++ ".

# Source Documents

The following source documents provide the context and content for the game:

".

Definition specification_middle : string := "

# Prompting/Guideline Documents

The following documents provide guidelines and instructions for creating the game specification:

".

Definition specification_task : string := "

# Task

Based on the source documents and following the guidelines in the prompting documents, create a detailed game specification in Markdown format. The specification should include:

1. **Game Overview**: Summary of the game concept and learning objectives
2. **Game Mechanics**: Detailed description of how the game works
3. **Content Integration**: How source document content is integrated into gameplay
4. **Player Experience**: Expected player interactions and progression
5. **Technical Requirements**: Any technical specifications needed for implementation
6. **Success Criteria**: How to measure if the game achieves its objectives

Please provide a complete, well-structured game specification document.".

(** The template literal of [buildSpecificationPrompt], cut at its two
    interpolated joins. *)
Definition buildSpecificationPrompt (sourceContents promptingContents : list string)
    (projectName : string) : string :=
  specification_head projectName
  ++ JS.join document_separator sourceContents
  ++ specification_middle
  ++ JS.join document_separator promptingContents
  ++ specification_task.

Definition implementation_head (projectName : string) : string :=
  "You are tasked with implementing a SOLUZION game for the project "
  ++ JS.dquote ++ projectName ++ JS.dquote ++ ".

# Game Specifications

".

Definition implementation_task : string := "

# Task

Based on the game specification(s) above, create a complete SOLUZION game implementation.

Please provide all necessary files for a working SOLUZION game, including:
1. Main game logic files
2. Content/data files
3. Configuration files
4. Any supporting assets or resources
5. README with setup and usage instructions

Format your response as a structured set of files that can be packaged into a zip archive.".

Definition buildImplementationPrompt (specContents : list string) (projectName : string)
    : string :=
  implementation_head projectName
  ++ JS.join document_separator specContents
  ++ implementation_task.

(** The rendered block of one document, the template literal in the
    callbacks of [map]: a heading line, an empty line, the content. *)
Definition document_block (kind fileName content : string) : string :=
  "### " ++ kind ++ ": " ++ fileName ++ JS.nl ++ JS.nl ++ content.

(** [await Promise.all(paths.map(async (filePath) => ...))].  The reads have
    no effect on the world and the blocks come back in input order; when
    several reads fail the model reports the first one in input order. *)
Definition read_documents (kind : string) (paths : list string) : M (list string) :=
  map_M (λ filePath,
           let* content := readFile filePath in
           let fileName := path_basename filePath in
           ret (document_block kind fileName content)) paths.

(** The [try] block of [generateGameSpecification]. *)
Definition generateGameSpecification_try (sourceDocuments promptingDocuments : list string)
    (outputDirectory projectName : string) : M GenerationResult :=
  let* config := getConfiguration in
  let provider := JS.or_default (aiProvider config) "anthropic" in
  let model := JS.or_default (aiModel config) "gemini-2.5-flash" in
  if String.eqb provider "google" then
    let geminiModel := if JS.includes "gemini" model then model else "gemini-2.5-flash" in
    GeminiService.generateGameSpecification sourceDocuments promptingDocuments
      outputDirectory projectName geminiModel
  else
    let* sourceContents := read_documents "Source Document" sourceDocuments in
    let* promptingContents := read_documents "Prompting Document" promptingDocuments in
    let prompt := buildSpecificationPrompt sourceContents promptingContents projectName in
    let* result := sendToAI prompt in
    let* ts := timestamp in
    let outputFileName := projectName ++ "-spec-" ++ ts ++ ".md" in
    let outputPath := path_join outputDirectory outputFileName in
    writeFile outputPath result;;
    ret (succeeded outputPath).

Definition generateGameSpecification (sourceDocuments promptingDocuments : list string)
    (outputDirectory projectName : string) : M GenerationResult :=
  try_catch
    (generateGameSpecification_try sourceDocuments promptingDocuments
       outputDirectory projectName)
    (λ error, let* message := message_of error in ret (failure message)).

(** The [try] block of [implementGame]. *)
Definition implementGame_try (gameSpecifications : list string)
    (outputDirectory projectName : string) : M GenerationResult :=
  let* config := getConfiguration in
  let provider := JS.or_default (aiProvider config) "anthropic" in
  let model := JS.or_default (aiModel config) "gemini-2.5-flash" in
  if String.eqb provider "google" then
    let geminiModel := if JS.includes "gemini" model then model else "gemini-2.5-flash" in
    GeminiService.implementGame gameSpecifications outputDirectory projectName geminiModel
  else
    let* specContents := read_documents "Game Specification" gameSpecifications in
    let prompt := buildImplementationPrompt specContents projectName in
    let* result := sendToAI prompt in
    let* ts := timestamp in
    let outputFileName := projectName ++ "-game-" ++ ts ++ ".zip" in
    let outputPath := path_join outputDirectory outputFileName in
    writeFile (JS.replace_first ".zip" ".txt" outputPath) result;;
    ret (succeeded (JS.replace_first ".zip" ".txt" outputPath)).

Definition implementGame (gameSpecifications : list string)
    (outputDirectory projectName : string) : M GenerationResult :=
  try_catch
    (implementGame_try gameSpecifications outputDirectory projectName)
    (λ error, let* message := message_of error in ret (failure message)).

End Service.
End ClaudeService.

(** ** A POSIX host

    Node's [path.posix], a small [mime-types] table, [dotenv] without quoting
    and [Date.prototype.toISOString] for years up to 9999: the platform on
    which the examples and the counterexamples are evaluated. *)

Module Posix.

Definition slash : ascii := "/"%char.
Definition is_slash (c : ascii) : bool := Ascii.eqb c slash.

Definition chars (s : string) : list ascii := list_ascii_of_string s.
Definition text (l : list ascii) : string := string_of_list_ascii l.

(** [s.split(sep)] for a one-character separator. *)
Fixpoint split_on (sep : ascii) (s : string) : list string :=
  match s with
  | EmptyString => [EmptyString]
  | String c s' =>
      if Ascii.eqb c sep then EmptyString :: split_on sep s'
      else match split_on sep s' with
           | seg :: segs => String c seg :: segs
           | [] => [String c EmptyString]
           end
  end.

Fixpoint drop_while (p : ascii → bool) (l : list ascii) : list ascii :=
  match l with
  | c :: l' => if p c then drop_while p l' else l
  | [] => []
  end.

Fixpoint take_while (p : ascii → bool) (l : list ascii) : list ascii :=
  match l with
  | c :: l' => if p c then c :: take_while p l' else []
  | [] => []
  end.

(** [normalizeString]: the segments of a path with the empty and [.] ones
    dropped and [..] resolved; [stack] holds the kept segments, last first. *)
Fixpoint resolve (absolute : bool) (stack segs : list string) : list string :=
  match segs with
  | [] => rev stack
  | seg :: segs' =>
      if (String.eqb seg EmptyString || String.eqb seg ".")%bool
      then resolve absolute stack segs'
      else if String.eqb seg ".." then
        match stack with
        | top :: stack' =>
            if String.eqb top ".." then resolve absolute (seg :: stack) segs'
            else resolve absolute stack' segs'
        | [] => if absolute then resolve absolute [] segs'
                else resolve absolute [seg] segs'
        end
      else resolve absolute (seg :: stack) segs'
  end.

(** [path.posix.normalize(p)] *)
Definition normalize (p : string) : string :=
  match p with
  | EmptyString => "."
  | String c _ =>
      let absolute := is_slash c in
      let trailing := match rev (chars p) with
                      | c' :: _ => is_slash c'
                      | [] => false
                      end in
      let body := JS.join "/" (resolve absolute [] (split_on slash p)) in
      match body with
      | EmptyString => if absolute then "/" else if trailing then "./" else "."
      | _ => (if absolute then "/" else EmptyString) ++ body
             ++ (if trailing then "/" else EmptyString)
      end
  end.

(** [path.posix.join(a, b)] *)
Definition join (a b : string) : string :=
  match a, b with
  | EmptyString, EmptyString => "."
  | EmptyString, _ => normalize b
  | _, EmptyString => normalize a
  | _, _ => normalize (a ++ "/" ++ b)
  end.

(** [path.posix.dirname(p)]: the first character is never the cut. *)
Definition dirname (p : string) : string :=
  match p with
  | EmptyString => "."
  | String c0 t =>
      let hasRoot := is_slash c0 in
      let r := drop_while (λ c, negb (is_slash c)) (drop_while is_slash (rev (chars t))) in
      match r with
      | [] => if hasRoot then "/" else "."
      | _ :: r' =>
          match r' with
          | [] => if hasRoot then "//" else String c0 EmptyString
          | _ => String c0 (text (rev r'))
          end
      end
  end.

(** [path.posix.basename(p)] *)
Definition basename (p : string) : string :=
  text (rev (take_while (λ c, negb (is_slash c)) (drop_while is_slash (rev (chars p))))).

(** The part of a file name from its last dot on. *)
Definition extension (p : string) : string :=
  let name := rev (chars (basename p)) in
  let ext := take_while (λ c, negb (Ascii.eqb c ".")) name in
  if (length ext <? length name)%nat then text (rev ext) else EmptyString.

Definition lookup (p : string) : option string :=
  let e := extension p in
  if String.eqb e "md" then Some "text/markdown"
  else if String.eqb e "txt" then Some "text/plain"
  else if String.eqb e "pdf" then Some "application/pdf"
  else if String.eqb e "json" then Some "application/json"
  else None.

(** One line of a [.env] file: [KEY=value], comments and other lines
    skipped, white space around key and value removed. *)
Definition parse_line (line : string) : option (string * string) :=
  let l := chars (JS.trim line) in
  match l with
  | [] => None
  | c :: _ =>
      if Ascii.eqb c "#" then None
      else
        let key := take_while (λ c, negb (Ascii.eqb c "=")) l in
        match drop_while (λ c, negb (Ascii.eqb c "=")) l with
        | _ :: value => Some (JS.trim (text key), JS.trim (text value))
        | [] => None
        end
  end.

Definition parse (content : string) : list (string * string) :=
  omap parse_line (split_on "010"%char content).

(** Decimal digits of [n], at least [width] of them. *)
Definition pad (width : nat) (n : N) : string :=
  let s := pretty n in
  text (replicate (width - String.length s) "0"%char) ++ s.

(** [new Date(ms).toISOString()]: the civil date of a day count. *)
Definition iso (ms : N) : string :=
  let days := ms / 86400000 in
  let rest := ms mod 86400000 in
  let z := days + 719468 in
  let era := z / 146097 in
  let doe := z - era * 146097 in
  let yoe := (doe - doe / 1460 + doe / 36524 - doe / 146096) / 365 in
  let doy := doe - (365 * yoe + yoe / 4 - yoe / 100) in
  let mp := (5 * doy + 2) / 153 in
  let d := doy - (153 * mp + 2) / 5 + 1 in
  let m := if mp <? 10 then mp + 3 else mp - 9 in
  let y := yoe + era * 400 + (if m <=? 2 then 1 else 0) in
  pad 4 y ++ "-" ++ pad 2 m ++ "-" ++ pad 2 d ++ "T"
  ++ pad 2 (rest / 3600000) ++ ":" ++ pad 2 (rest / 60000 mod 60) ++ ":"
  ++ pad 2 (rest / 1000 mod 60) ++ "." ++ pad 3 (rest mod 1000) ++ "Z".

Definition host : Host :=
  {| path_join := join;
     path_dirname := dirname;
     path_basename := basename;
     mime_lookup := lookup;
     dotenv_parse := parse;
     toISOString := iso |}.

End Posix.

(** ** Example worlds *)

Module Examples.

#[local] Existing Instance Posix.host.

Definition pending_file : FileObj :=
  {| f_name := Some "files/abc"; f_state := Some "PROCESSING"; f_status := None;
     f_uri := None; f_mimeType := None |}.

Definition active_file : FileObj :=
  {| f_name := Some "files/abc"; f_state := Some "ACTIVE"; f_status := None;
     f_uri := Some "https://files.example/abc"; f_mimeType := Some "text/markdown" |}.

(** A remote side on which an upload is at once followed by ACTIVE, and
    the generation answers [text]. *)
Definition prompt_remote (text : option string) : Remote :=
  {| reply_file := λ _ c,
       match c with
       | FilesUpload _ _ _ => {| latency := 0; payload := inr pending_file |}
       | _ => {| latency := 0; payload := inr active_file |}
       end;
     reply_text := λ _ _, {| latency := 0; payload := inr text |};
     reply_blocks := λ _ _,
       {| latency := 0;
          payload := inr [ {| block_type := "text";
                              block_text := default EmptyString text |} ] |} |}.

(** A remote side on which an uploaded file stays in processing for ever,
    every status query taking [ms] milliseconds. *)
Definition stuck_remote (ms : N) : Remote :=
  {| reply_file := λ _ c,
       match c with
       | FilesUpload _ _ _ => {| latency := 0; payload := inr pending_file |}
       | _ => {| latency := ms; payload := inr pending_file |}
       end;
     reply_text := λ _ _, {| latency := 0; payload := inr None |};
     reply_blocks := λ _ _, {| latency := 0; payload := inr [] |} |}.

(** A remote side that accepts the files and rejects the generation. *)
Definition refusing_remote : Remote :=
  {| reply_file := λ _ c,
       match c with
       | FilesUpload _ _ _ => {| latency := 0; payload := inr pending_file |}
       | _ => {| latency := 0; payload := inr active_file |}
       end;
     reply_text := λ _ _, {| latency := 0; payload := inl (Err "503 Service Unavailable") |};
     reply_blocks := λ _ _, {| latency := 0; payload := inl (Err "503 Service Unavailable") |} |}.

(** A remote side that rejects the uploads. *)
Definition closed_remote : Remote :=
  {| reply_file := λ _ _, {| latency := 0; payload := inl (Err "fetch failed") |};
     reply_text := λ _ _, {| latency := 0; payload := inr None |};
     reply_blocks := λ _ _, {| latency := 0; payload := inr [] |} |}.

(** A remote side that rejects every status query. *)
Definition unreachable_remote : Remote :=
  {| reply_file := λ _ c,
       match c with
       | FilesUpload _ _ _ => {| latency := 0; payload := inr pending_file |}
       | _ => {| latency := 0; payload := inl (Err "fetch failed") |}
       end;
     reply_text := λ _ _, {| latency := 0; payload := inr None |};
     reply_blocks := λ _ _, {| latency := 0; payload := inr [] |} |}.

Definition settings (provider : string) : Config :=
  {| aiProvider := Some provider; aiModel := None;
     anthropicApiKey := Some "sk-ant-test"; googleApiKey := None;
     openaiApiKey := None |}.

(** A project directory with its [.env], two documents and an output
    directory, on 3 November 2025 at midnight. *)
Definition project (provider : string) (r : Remote) : World :=
  {| fs_files := {[ "/proj/.env" := "GEMINI_API_KEY=test-key";
                    "/proj/docs/a.md" := "# A";
                    "/proj/docs/b.md" := "# B" ]};
     fs_dirs := {[ "/"; "/proj"; "/proj/docs"; "/proj/out" ]};
     fs_fault := λ _, None;
     fs_torn := λ _, None;
     fs_probes := [];
     process_env := ∅;
     config := settings provider;
     config_fault := None;
     remote := r;
     clock := 1762128000000;
     net_calls := [];
     fs_writes := [];
     console_errors := [] |}.

(** The project with OpenAI selected and a key made of white space. *)
Definition blank_key_project : World :=
  set_config {| aiProvider := Some "openai"; aiModel := Some "gpt-4o";
                anthropicApiKey := None; googleApiKey := None;
                openaiApiKey := Some "   " |}
             (project "openai" (prompt_remote (Some "# Spec"))).

End Examples.

(** * Properties of requests *)

Local Open Scope list_scope.

(** ** The operations by kind of task *)

(** The two kinds of task. *)
Inductive TaskKind := SpecGeneration | ImplementationGeneration.

(** The public operation of [GeminiService] and its stages for each kind of
    task; [documents] are the source documents or the game
    specifications, [guidelines] the prompting documents of a specification
    request. *)
Definition gemini_request `{Host} (kind : TaskKind) (documents guidelines : list string)
    (outputDirectory projectName model : string) : M GenerationResult :=
  match kind with
  | SpecGeneration =>
      GeminiService.generateGameSpecification documents guidelines outputDirectory
        projectName model
  | ImplementationGeneration =>
      GeminiService.implementGame documents outputDirectory projectName model
  end.

Definition gemini_staging `{Host} (kind : TaskKind) (documents guidelines : list string)
    (outputDirectory : string) : M (string * list string) :=
  match kind with
  | SpecGeneration =>
      GeminiService.specification_staging documents guidelines outputDirectory
  | ImplementationGeneration =>
      GeminiService.implementation_staging documents outputDirectory
  end.

Definition gemini_generation `{Host} (kind : TaskKind) (documents guidelines : list string)
    (outputDirectory projectName model : string)
    : string → list string → M GenerationResult :=
  match kind with
  | SpecGeneration =>
      GeminiService.specification_generation documents guidelines outputDirectory
        projectName model
  | ImplementationGeneration =>
      GeminiService.implementation_generation outputDirectory projectName model
  end.

Definition claude_request `{Host} (kind : TaskKind) (documents guidelines : list string)
    (outputDirectory projectName : string) : M GenerationResult :=
  match kind with
  | SpecGeneration =>
      ClaudeService.generateGameSpecification documents guidelines outputDirectory
        projectName
  | ImplementationGeneration =>
      ClaudeService.implementGame documents outputDirectory projectName
  end.

Definition claude_try_block `{Host} (kind : TaskKind) (documents guidelines : list string)
    (outputDirectory projectName : string) : M GenerationResult :=
  match kind with
  | SpecGeneration =>
      ClaudeService.generateGameSpecification_try documents guidelines outputDirectory
        projectName
  | ImplementationGeneration =>
      ClaudeService.implementGame_try documents outputDirectory projectName
  end.

(** The prompt that the direct-text path of a [ClaudeService] operation
    builds and hands to [sendToAI]. *)
Definition claude_prompt `{Host} (kind : TaskKind) (documents guidelines : list string)
    (projectName : string) : M string :=
  match kind with
  | SpecGeneration =>
      let* sourceContents := ClaudeService.read_documents "Source Document" documents in
      let* promptingContents :=
        ClaudeService.read_documents "Prompting Document" guidelines in
      ret (ClaudeService.buildSpecificationPrompt sourceContents promptingContents
             projectName)
  | ImplementationGeneration =>
      let* specContents := ClaudeService.read_documents "Game Specification" documents in
      ret (ClaudeService.buildImplementationPrompt specContents projectName)
  end.

(** The statements of the direct-text path after the prompt is built. *)
Definition claude_send_and_write `{Host} (kind : TaskKind)
    (outputDirectory projectName prompt : string) : M GenerationResult :=
  let* result := ClaudeService.sendToAI prompt in
  let* ts := timestamp in
  match kind with
  | SpecGeneration =>
      let outputPath :=
        path_join outputDirectory (projectName ++ "-spec-" ++ ts ++ ".md")%string in
      writeFile outputPath result;;
      ret (succeeded outputPath)
  | ImplementationGeneration =>
      let outputPath :=
        path_join outputDirectory (projectName ++ "-game-" ++ ts ++ ".zip")%string in
      writeFile (JS.replace_first ".zip" ".txt" outputPath) result;;
      ret (succeeded (JS.replace_first ".zip" ".txt" outputPath))
  end.

(** ** Predicates on computations and worlds *)

(** [preserves R m]: whatever [m] does and however it ends, the world it
    leaves is related by [R] to the one it started in. *)
Definition preserves {A} (R : relation World) (m : M A) : Prop :=
  ∀ w, R w (m w).2.

(** A computation that ends, with a value or an exception. *)
Definition total {A} (m : M A) : Prop := ∀ w, (m w).1 ≠ Diverge.

(** A computation that returns a value: no exception leaves it. *)
Definition returns {A} (m : M A) : Prop := ∀ w, ∃ a, (m w).1 = Ok a.

(** No [writeFile] completed. *)
Definition same_writes : relation World := λ w w', fs_writes w' = fs_writes w.

Definition is_delete (c : RemoteCall) : bool :=
  match c with
  | FilesDelete _ => true
  | _ => false
  end.

(** Outbound calls were made, none of them a remote delete. *)
Definition calls_without_delete : relation World := λ w w',
  ∃ l, net_calls w' = net_calls w ++ l ∧ Forall (λ c, is_delete c = false) l.

(** Files were only removed and [console.error] lines only added. *)
Definition only_removes : relation World := λ w w',
  (∀ p, fs_files w !! p = None → fs_files w' !! p = None)
  ∧ (∀ line, line ∈ console_errors w → line ∈ console_errors w').

(** The directory reached after [i] steps of the upward walk from [dir]. *)
Fixpoint ancestor `{Host} (i : nat) (dir : string) : string :=
  match i with
  | O => dir
  | S i' => ancestor i' (path_dirname dir)
  end.

(** The marker file looked for in a directory. *)
Definition marker `{Host} (dir : string) : string := path_join dir ".env".

(** The answer of the remote side to the status query that [w] would make
    next for [fileName]. *)
Definition next_status (fileName : string) (w : World) : Reply FileObj :=
  reply_file (remote w) (length (net_calls w)) (FilesGet fileName).

(** The file that [waitActive] holds after the query: [null] when the query
    was rejected. *)
Definition polled_file (r : Reply FileObj) : option FileObj :=
  match payload r with
  | inl _ => None
  | inr f => Some f
  end.

(** The world after that status query. *)
Definition polled (fileName : string) (w : World) : World :=
  set_clock (clock w + latency (next_status fileName w))
    (set_net_calls (net_calls w ++ [FilesGet fileName]) w).

(** A handle whose status queries never report ACTIVE and never FAILED. *)
Definition never_settles (fileName : string) (w : World) : Prop :=
  ∀ n,
    let state := GeminiService.file_state
                   (polled_file (reply_file (remote w) n (FilesGet fileName))) in
    state ≠ Some "ACTIVE" ∧ state ≠ Some "FAILED".

(** The timeout bound as the specification words it: the loop on a handle
    that never settles ends with the timeout error at most
    [timeoutMs + intervalMs] after it started. *)
Definition timeout_bound_as_specified `{Host} (fileName : string)
    (timeoutMs intervalMs : N) (w : World) : Prop :=
  ∃ w',
    GeminiService.waitActive (GeminiService.poll_budget timeoutMs intervalMs)
      fileName timeoutMs intervalMs w
    = (Throw (GeminiService.timed_out fileName), w')
    ∧ clock w' - clock w ≤ timeoutMs + intervalMs.

(** The direct-text providers of [ClaudeService]. *)
Inductive DirectProvider := Anthropic | GoogleDirect | OpenAI.

Definition provider_tag (p : DirectProvider) : string :=
  match p with
  | Anthropic => "anthropic"
  | GoogleDirect => "google"
  | OpenAI => "openai"
  end.

Definition credential_of (p : DirectProvider) (c : Config) : option string :=
  match p with
  | Anthropic => anthropicApiKey c
  | GoogleDirect => googleApiKey c
  | OpenAI => openaiApiKey c
  end.

Definition send_direct (p : DirectProvider) : string → string → M string :=
  match p with
  | Anthropic => ClaudeService.sendToAnthropic
  | GoogleDirect => ClaudeService.sendToGoogle
  | OpenAI => ClaudeService.sendToOpenAI
  end.

(** The missing-credential error of each provider. *)
Definition missing_credential (p : DirectProvider) : string :=
  match p with
  | Anthropic =>
      "Anthropic API key not configured. Please set it in Settings: Gamification Dashboard > Anthropic Api Key. Get your API key from https://console.anthropic.com/"
  | GoogleDirect =>
      "Google API key not configured. Please set it in Settings: Gamification Dashboard > Google Api Key. Get your API key from https://aistudio.google.com/apikey"
  | OpenAI =>
      "OpenAI API key not configured. Please set it in Settings: Gamification Dashboard > Openai Api Key. Get your API key from https://platform.openai.com/api-keys"
  end.

(** The UTF-8 encoding of a code point. *)
Definition utf8 (cp : N) : string :=
  JS.bytes
    (map N.to_nat
       (if cp <? 128 then [cp]
        else if cp <? 2048 then [192 + cp / 64; 128 + cp mod 64]
        else if cp <? 65536
        then [224 + cp / 4096; 128 + (cp / 64) mod 64; 128 + cp mod 64]
        else [240 + cp / 262144; 128 + (cp / 4096) mod 64; 128 + (cp / 64) mod 64;
              128 + cp mod 64])).

(** The code points that ECMAScript counts as white space or as line
    terminators: what [trim] removes. *)
Definition white_space_code_points : list N :=
  [ 9; 10; 11; 12; 13; 32; 160; 5760;
    8192; 8193; 8194; 8195; 8196; 8197; 8198; 8199; 8200; 8201; 8202;
    8232; 8233; 8239; 8287; 12288; 65279 ].

(** A string made of white space only; the empty string is one. *)
Definition white_space_only (k : string) : Prop :=
  ∃ cps,
    Forall (λ cp, cp ∈ white_space_code_points) cps
    ∧ k = String.concat EmptyString (map utf8 cps).

(** A credential that is absent, empty or made of white space. *)
Definition credential_blank (apiKey : option string) : Prop :=
  apiKey = None ∨ ∃ k, apiKey = Some k ∧ white_space_only k.

(** The strings of [blocks] occur in [text] one after the other, in the
    order of the list. *)
Fixpoint in_order (blocks : list string) (text : string) : Prop :=
  match blocks with
  | [] => True
  | b :: blocks' =>
      ∃ pre post, text = (pre ++ b ++ post)%string ∧ in_order blocks' post
  end.

(** The rendered block of the document at [d]: the heading line
    [### <label>: <file name>], an empty line, the content of the file. *)
Definition rendered_block `{Host} (w : World) (label d : string) : string :=
  ("### " ++ label ++ ": " ++ path_basename d ++ JS.nl ++ JS.nl
   ++ default EmptyString (fs_files w !! d))%string.

(** Two documents that a prompt cannot tell apart: same file name, same
    content, wherever they are stored. *)
Definition same_document `{Host} (w1 w2 : World) (p1 p2 : string) : Prop :=
  path_basename p1 = path_basename p2 ∧ fs_files w1 !! p1 = fs_files w2 !! p2.

(** The shape that the two public operations of [GeminiService] share. *)
Definition staged_request (staging : M (string * list string))
    (generation : string → list string → M GenerationResult) : M GenerationResult :=
  let* staged := attempt staging in
  match staged with
  | inl error => GeminiService.on_error [] error
  | inr (projectRoot, copiedFiles) =>
      try_catch (generation projectRoot copiedFiles)
                (GeminiService.on_error copiedFiles)
  end.

(** The message that a [catch] clause of the services reads from a thrown
    value, when the reading does not throw; and the message of the
    [TypeError] that it throws otherwise. *)
Definition unprintable_message : string := "Cannot convert object to primitive value".

Definition message_text (error : Thrown) : string :=
  match error with
  | Err message => message
  | Unprintable => unprintable_message
  end.

(** How a [catch] clause that returns [{ success: false, error: message }]
    ends for the thrown value [error]: with that result, or with the
    [TypeError] of the conversion. *)
Definition caught (error : Thrown) : Outcome GenerationResult :=
  match error with
  | Err message =>
      Ok {| success := false; outputPath := None; error := Some message |}
  | Unprintable => Throw (Err unprintable_message)
  end.

(** What the [catch] clause of the dispatcher throws for a thrown value:
    the message behind its prefix, or the [TypeError] of the conversion. *)
Definition rethrown (error : Thrown) : string :=
  match error with
  | Err message => "Failed to communicate with AI: " ++ message
  | Unprintable => unprintable_message
  end.

(** The [console.error] lines added between [w] and [w']. *)
Definition logged (w w' : World) : list string :=
  drop (length (console_errors w)) (console_errors w').

(** A staged copy after the request that started in [w]: it is no file any
    more, or the system rejects its deletion and the request has put the
    line of that failure on the console. *)
Definition cleaned_up (w w' : World) (filePath : string) : Prop :=
  fs_files w' !! filePath = None
  ∨ ∃ msg,
      fs_fault w (OpUnlink filePath) = Some msg
      ∧ ("Failed to delete file " ++ filePath ++ ": " ++ msg)%string ∈ logged w w'.

(** The artifact name of the specification:
    [{projectName}-{kindTag}-{timestamp}.{ext}], the timestamp being the ISO
    date of [t] cut after the seconds. *)
Definition kind_tag (kind : TaskKind) : string :=
  match kind with
  | SpecGeneration => "spec"
  | ImplementationGeneration => "game"
  end.

Definition kind_extension (kind : TaskKind) : string :=
  match kind with
  | SpecGeneration => "md"
  | ImplementationGeneration => "txt"
  end.

Definition stamp `{Host} (t : N) : string :=
  JS.slice0 19 (JS.replace_colon_dot (toISOString t)).

Definition artifact_name `{Host} (projectName : string) (kind : TaskKind) (t : N) : string :=
  (projectName ++ "-" ++ kind_tag kind ++ "-" ++ stamp t ++ "." ++ kind_extension kind)%string.

(** The clock stands still. *)
Definition same_clock : relation World := λ w w', clock w' = clock w.

(** The remote names that the uploads made between [w] and [w'] were
    answered with: the file handles created by the request. *)
Definition handles_created (w w' : World) : list string :=
  omap (λ ic : nat * RemoteCall,
          match ic.2 with
          | FilesUpload _ _ _ =>
              match payload (reply_file (remote w) ic.1 ic.2) with
              | inr f => f_name f
              | inl _ => None
              end
          | _ => None
          end)
       (drop (length (net_calls w)) (imap pair (net_calls w'))).

(** The remote clean-up as the specification words it: a remote delete was
    issued for every handle the request created. *)
Definition remote_cleanup_as_specified (w w' : World) : Prop :=
  ∀ name, name ∈ handles_created w w' → FilesDelete name ∈ net_calls w'.

(** The atomic result as the specification words it. *)
Definition atomic_result_as_specified (w w' : World) (r : GenerationResult) : Prop :=
  (success r = true
   ↔ ∃ path content,
       outputPath r = Some path ∧ content ≠ EmptyString
       ∧ fs_writes w' = fs_writes w ++ [(path, content)])
  ∧ (success r = false ↔ is_Some (error r) ∧ fs_writes w' = fs_writes w).

(** The text that the services take from the answer to the call [c] made
    as the [i]-th call of the world: [resp?.text ?? ''] of a generation of
    the Files API, the joined text blocks of an Anthropic message,
    [content || ''] of an OpenAI completion. *)
Definition provider_text (w : World) (i : nat) (c : RemoteCall) : option string :=
  match c with
  | ModelsGenerateContent _ _ _ _ =>
      match payload (reply_text (remote w) i c) with
      | inr resp => Some (match resp with Some text => text | None => EmptyString end)
      | inl _ => None
      end
  | AnthropicMessagesCreate _ _ =>
      match payload (reply_blocks (remote w) i c) with
      | inr content =>
          Some (String.concat EmptyString
                  (map block_text (filter (λ b, block_type b = "text") content)))
      | inl _ => None
      end
  | OpenAIChatCompletionsCreate _ _ =>
      match payload (reply_text (remote w) i c) with
      | inr (Some (String a text)) => Some (String a text)
      | inr _ => Some EmptyString
      | inl _ => None
      end
  | _ => None
  end.

(** [text] is what the provider answered to the last call made between [w]
    and [w']. *)
Definition answered (w w' : World) (text : string) : Prop :=
  ∃ calls c,
    net_calls w' = net_calls w ++ calls ++ [c]
    ∧ provider_text w (length (net_calls w ++ calls)) c = Some text.

(** The atomic result without the condition on the content: a success is a
    completed write of the text of the provider at the path of the result, a
    failure is an error and no completed write. *)
Definition atomic_result (w w' : World) (r : GenerationResult) : Prop :=
  (success r = true
   ↔ ∃ path text,
       outputPath r = Some path
       ∧ fs_writes w' = fs_writes w ++ [(path, text)]
       ∧ answered w w' text)
  ∧ (success r = false ↔ is_Some (error r) ∧ fs_writes w' = fs_writes w)
  ∧ (is_Some (outputPath r) ↔ error r = None).

(** A write of the artifact that the system failed after the file was
    open: [path] holds the first bytes of the text that the provider
    answered, and the error of the result is the one of that write. *)
Definition torn_write (w w' : World) (r : GenerationResult) (path : string) : Prop :=
  ∃ msg written text,
    fs_torn w path = Some (msg, written)
    ∧ answered w w' text
    ∧ fs_files w' !! path = Some (JS.slice0 written text)
    ∧ error r = Some msg.

(** A computation whose exceptions all carry a message. *)
Definition throws_messages {A} (m : M A) : Prop :=
  ∀ w e w', m w = (Throw e, w') → ∃ msg, e = Err msg.

(** Nothing of the surroundings of a request changes: the faults of the
    file system, the remote side and the settings. *)
Definition same_surroundings : relation World := λ w w',
  fs_fault w' = fs_fault w ∧ fs_torn w' = fs_torn w ∧ remote w' = remote w
  ∧ config w' = config w ∧ config_fault w' = config_fault w.

(** No line was put on the console. *)
Definition same_console : relation World := λ w w',
  console_errors w' = console_errors w.

(** The world in which the system rejects no deletion. *)
Definition deletions_allowed (w : World) : World :=
  set_fs_fault (λ op, match op with
                      | OpUnlink _ => None
                      | _ => fs_fault w op
                      end) w.

(** A computation that does not look at the faults of deletions: it runs in
    the world without them as it runs in the world with them. *)
Definition ignores_deletion_faults {A} (m : M A) : Prop :=
  ∀ w, m (deletions_allowed w) = ((m w).1, deletions_allowed (m w).2).

(** ** Further notions: the stages on their own *)

(** Where [copyFilesToUploadsFolder] puts the copy of a document. *)
Definition staged_path `{Host} (projectRoot filePath : string) : string :=
  path_join (GeminiService.getUploadsFolderPath projectRoot)
    (path_basename (GeminiService.normalizePath filePath)).

(** The outbound calls made are all of the kind [P]. *)
Definition calls_only (P : RemoteCall → Prop) : relation World := λ w w',
  ∃ l, net_calls w' = net_calls w ++ l ∧ Forall P l.

(** No outbound call was made. *)
Definition no_calls : relation World := λ w w', net_calls w' = net_calls w.

(** Regular files changed at the paths of [S] only. *)
Definition files_within (S : string → Prop) : relation World := λ w w',
  ∀ p, ¬ S p → fs_files w' !! p = fs_files w !! p.

(** No directory was created. *)
Definition same_dirs : relation World := λ w w', fs_dirs w' = fs_dirs w.

(** The upload of one staged file, as [uploadAndGenerate] issues it. *)
Definition upload_call `{Host} (localPath : string) : RemoteCall :=
  FilesUpload localPath
    (JS.or_default (mime_lookup localPath) "application/octet-stream")
    (path_basename localPath).

(** The calls of the upload loop of [uploadAndGenerate] when it completes
    for the staged files [paths], its first call being the [i]-th call of
    the world, and the files it ends with.  For each file in turn: the
    upload, whose answer [granted] carries the remote name; [n] status
    queries for that name that report neither ACTIVE nor FAILED; and the
    first query that reports ACTIVE, whose answer [f] is the file kept. *)
Inductive upload_trace `{Host} (r : Remote)
    : nat → list string → list RemoteCall → list FileObj → Prop :=
| upload_trace_nil i : upload_trace r i [] [] []
| upload_trace_cons i localPath paths granted name n f calls files :
    payload (reply_file r i (upload_call localPath)) = inr granted →
    f_name granted = Some name →
    name ≠ EmptyString →
    (∀ j, (j < n)%nat →
       let state := GeminiService.file_state
                      (polled_file (reply_file r (i + 1 + j) (FilesGet name))) in
       state ≠ Some "ACTIVE" ∧ state ≠ Some "FAILED") →
    payload (reply_file r (i + 1 + n) (FilesGet name)) = inr f →
    GeminiService.file_state (Some f) = Some "ACTIVE" →
    upload_trace r (i + 2 + n) paths calls files →
    upload_trace r i (localPath :: paths)
      (upload_call localPath :: replicate (S n) (FilesGet name) ++ calls) (f :: files).

(** The documents of a request in the order in which they are staged. *)
Definition kind_documents (kind : TaskKind) (documents guidelines : list string)
    : list string :=
  match kind with
  | SpecGeneration => documents ++ guidelines
  | ImplementationGeneration => documents
  end.

(** The prompt and the system instruction of a request of [GeminiService]. *)
Definition gemini_prompt (kind : TaskKind) (documents guidelines : list string)
    (projectName : string) : string :=
  match kind with
  | SpecGeneration =>
      GeminiService.specification_prompt projectName (length documents)
        (length guidelines)
  | ImplementationGeneration => GeminiService.implementation_prompt projectName
  end.

Definition gemini_systemInstruction (kind : TaskKind) : string :=
  match kind with
  | SpecGeneration => GeminiService.specification_systemInstruction
  | ImplementationGeneration => GeminiService.implementation_systemInstruction
  end.

(** The statements of a public operation of [GeminiService] between the
    staging and the clean-up: upload and generation, then the write of the
    artifact; the value is the path written. *)
Definition gemini_upload_and_write `{Host} (kind : TaskKind)
    (documents guidelines : list string) (outputDirectory projectName model : string)
    (projectRoot : string) (copiedFiles : list string) : M string :=
  let* result :=
    GeminiService.uploadAndGenerate copiedFiles
      (gemini_prompt kind documents guidelines projectName) projectRoot model
      (Some (gemini_systemInstruction kind)) in
  let* ts := timestamp in
  let outputPath :=
    path_join outputDirectory
      (projectName ++ "-" ++ kind_tag kind ++ "-" ++ ts ++ "." ++ kind_extension kind) in
  writeFile outputPath result;;
  ret outputPath.

(** The provider and the models that the operations of [ClaudeService]
    select from the settings. *)
Definition selected_provider (c : Config) : string :=
  JS.or_default (aiProvider c) "anthropic".

Definition direct_model (c : Config) : string :=
  JS.or_default (aiModel c) "claude-3-5-sonnet-20241022".

Definition gemini_model (c : Config) : string :=
  let model := JS.or_default (aiModel c) "gemini-2.5-flash" in
  if JS.includes "gemini" model then model else "gemini-2.5-flash".

(** The calls of the Files API and of the direct-text providers. *)
Definition is_files_api (c : RemoteCall) : Prop :=
  match c with
  | FilesUpload _ _ _ | FilesGet _ | ModelsGenerateContent _ _ _ _ => True
  | _ => False
  end.

Definition is_direct_call (model prompt : string) (c : RemoteCall) : Prop :=
  c = AnthropicMessagesCreate model prompt ∨ c = OpenAIChatCompletionsCreate model prompt.

(** The text blocks of an Anthropic message, in order. *)
Definition text_of_blocks (content : list ContentBlock) : string :=
  String.concat EmptyString
    (map block_text (filter (λ b, block_type b = "text") content)).

(** ** Further example worlds *)

Module Scenarios.

#[local] Existing Instance Posix.host.

Definition failed_file : FileObj :=
  {| f_name := Some "files/abc"; f_state := None; f_status := Some "FAILED";
     f_uri := None; f_mimeType := None |}.

(** A remote side whose answers to status queries are pending up to the
    [k]-th outbound call of the world, each taking [ms] milliseconds, and
    [final] from then on. *)
Definition slow_remote (k : nat) (ms : N) (final : FileObj) : Remote :=
  {| reply_file := λ n c,
       match c with
       | FilesUpload _ _ _ => {| latency := 0; payload := inr Examples.pending_file |}
       | _ => if (n <? k)%nat
              then {| latency := ms; payload := inr Examples.pending_file |}
              else {| latency := ms; payload := inr final |}
       end;
     reply_text := λ _ _, {| latency := 0; payload := inr (Some "# Spec") |};
     reply_blocks := λ _ _, {| latency := 0; payload := inr [] |} |}.

(** An environment file without a key, beside the project of the
    examples. *)
Definition keyless_project : World :=
  set_files (<["/proj/.env" := "OTHER_SETTING=1"]>
               (fs_files (Examples.project "google"
                            (Examples.prompt_remote (Some "# Spec")))))
            (Examples.project "google" (Examples.prompt_remote (Some "# Spec"))).

(** A remote side whose Anthropic answer holds a tool-use block between
    two text blocks. *)
Definition mixed_blocks_remote : Remote :=
  {| reply_file := λ _ _, {| latency := 0; payload := inr Examples.active_file |};
     reply_text := λ _ _, {| latency := 0; payload := inr None |};
     reply_blocks := λ _ _,
       {| latency := 700;
          payload := inr [ {| block_type := "text"; block_text := "# Spec" |};
                           {| block_type := "tool_use"; block_text := "ignored" |};
                           {| block_type := "text"; block_text := " v2" |} ] |} |}.

(** The project with Anthropic selected and a key made of a no-break
    space, a space and a byte-order mark. *)
Definition nbsp_key_project : World :=
  set_config {| aiProvider := Some "anthropic"; aiModel := None;
                anthropicApiKey := Some (utf8 160 ++ " " ++ utf8 65279)%string;
                googleApiKey := None; openaiApiKey := None |}
             (Examples.project "anthropic" (Examples.prompt_remote (Some "# Spec"))).

(** A second project: OpenAI selected with a key, and the two documents of
    the examples stored under other directories. *)
Definition openai_project : World :=
  set_files {[ "/other/a.md" := "# A"; "/other/sub/b.md" := "# B" ]}
    (set_config {| aiProvider := Some "openai"; aiModel := Some "gpt-4o";
                   anthropicApiKey := None; googleApiKey := None;
                   openaiApiKey := Some "sk-test" |}
       (Examples.project "openai" (Examples.prompt_remote (Some "# Other")))).

(** A remote side that rejects every call with a value that has no string
    conversion, such as [Object.create(null)]. *)
Definition opaque_remote : Remote :=
  {| reply_file := λ _ _, {| latency := 0; payload := inl Unprintable |};
     reply_text := λ _ _, {| latency := 0; payload := inl Unprintable |};
     reply_blocks := λ _ _, {| latency := 0; payload := inl Unprintable |} |}.

(** A disk that is full after the first three bytes of the artifact of the
    examples. *)
Definition full_disk (w : World) : World :=
  set_fs_torn (λ p, if String.eqb p "/proj/out/demo-spec-2025-11-03T00-00-00.md"
                    then Some ("ENOSPC: no space left on device, write", 3%nat)
                    else None) w.

End Scenarios.

(** No regular file was created, changed or removed. *)
Definition same_files : relation World := λ w w', fs_files w' = fs_files w.

(** The part that the generation request carries for an uploaded file:
    [{ fileData: { fileUri: f.uri, mimeType: f.mimeType || ... } }]. *)
Definition active_part (f : FileObj) : FilePart :=
  {| fileUri := f_uri f;
     mimeType := JS.or_default (f_mimeType f) "application/octet-stream" |}.

(** The generation request of a public operation of [GeminiService] for
    uploaded [files]. *)
Definition generate_call (kind : TaskKind) (documents guidelines : list string)
    (projectName model : string) (files : list FileObj) : RemoteCall :=
  ModelsGenerateContent model (gemini_prompt kind documents guidelines projectName)
    (map active_part files) (Some (gemini_systemInstruction kind)).

(** The staged copies of the documents of a request under [projectRoot]. *)
Definition staged_copies `{Host} (kind : TaskKind) (documents guidelines : list string)
    (projectRoot : string) : list string :=
  map (staged_path projectRoot) (kind_documents kind documents guidelines).

(** A staged copy of the request that starts in [w]: the copy of one of
    its documents in the staging folder of the project root that the anchor
    search finds. *)
Definition request_copy `{Host} (kind : TaskKind) (documents guidelines : list string)
    (outputDirectory : string) (w : World) (p : string) : Prop :=
  ∃ root,
    (GeminiService.findProjectRoot outputDirectory w).1 = Ok root
    ∧ p ∈ staged_copies kind documents guidelines root.

(** The files after a request that failed: a regular file that is no staged
    copy of the request is as it was, unless a failed write of the artifact
    left it. *)
Definition no_artifact `{Host} (kind : TaskKind) (documents guidelines : list string)
    (outputDirectory : string) (w w' : World) (r : GenerationResult) : Prop :=
  ∀ p,
    fs_files w' !! p = fs_files w !! p
    ∨ request_copy kind documents guidelines outputDirectory w p
    ∨ torn_write w w' r p.

(** A stage of a request of [GeminiService] throws [e]: the staging, or,
    after the staging, the upload, the polling, the generation or the write
    of the artifact. *)
Definition gemini_stage_throws `{Host} (kind : TaskKind)
    (documents guidelines : list string) (outputDirectory projectName model : string)
    (w : World) (e : Thrown) : Prop :=
  (∃ w1, gemini_staging kind documents guidelines outputDirectory w = (Throw e, w1))
  ∨ (∃ root copied w1 w3,
       gemini_staging kind documents guidelines outputDirectory w
       = (Ok (root, copied), w1)
       ∧ gemini_upload_and_write kind documents guidelines outputDirectory projectName
           model root copied w1 = (Throw e, w3)).

(** No directory was removed, and none was created other than [d] and
    ancestors of [d], which a recursive [mkdir] of [d] creates when they are
    missing; [d] alone when its parent was there. *)
Definition dirs_plus `{Host} (d : string) : relation World := λ w w',
  fs_dirs w ⊆ fs_dirs w'
  ∧ (∀ q, q ∈ fs_dirs w' → q ∈ fs_dirs w ∨ ∃ i, q = ancestor i d)
  ∧ (path_dirname d ∈ fs_dirs w →
     fs_dirs w' = fs_dirs w ∨ fs_dirs w' = {[d]} ∪ fs_dirs w).


(** The call that a direct-text provider is sent. *)
Definition direct_call (p : DirectProvider) (model prompt : string) : RemoteCall :=
  match p with
  | Anthropic => AnthropicMessagesCreate model prompt
  | GoogleDirect => GoogleGenerateContent model prompt
  | OpenAI => OpenAIChatCompletionsCreate model prompt
  end.

(** A document that [readFile] returns. *)
Definition readable (w : World) (p : string) : Prop :=
  fs_fault w (OpReadFile p) = None ∧ is_Some (fs_files w !! p).

(** The calls that a public operation of [ClaudeService] can make with a
    provider other than [google] selected: none, or one to the provider
    with the default model of the dispatcher and the prompt built from the
    documents. *)
Definition direct_calls `{Host} (kind : TaskKind) (documents guidelines : list string)
    (projectName : string) (w : World) (l : list RemoteCall) : Prop :=
  l = []
  ∨ ∃ p prompt,
      p ≠ GoogleDirect
      ∧ selected_provider (config w) = provider_tag p
      ∧ (claude_prompt kind documents guidelines projectName w).1 = Ok prompt
      ∧ l = [direct_call p (direct_model (config w)) prompt].

(** The rendered blocks of the documents of a request, in input order,
    sources before guidelines. *)
Definition rendered_blocks `{Host} (kind : TaskKind) (documents guidelines : list string)
    (w : World) : list string :=
  match kind with
  | SpecGeneration =>
      map (rendered_block w "Source Document") documents
      ++ map (rendered_block w "Prompting Document") guidelines
  | ImplementationGeneration => map (rendered_block w "Game Specification") documents
  end.

(** The label of the source documents of a task and the builder of its
    prompt. *)
Definition source_label (kind : TaskKind) : string :=
  match kind with
  | SpecGeneration => "Source Document"
  | ImplementationGeneration => "Game Specification"
  end.

Definition build_prompt (kind : TaskKind) (sourceContents promptingContents : list string)
    (projectName : string) : string :=
  match kind with
  | SpecGeneration =>
      ClaudeService.buildSpecificationPrompt sourceContents promptingContents projectName
  | ImplementationGeneration =>
      ClaudeService.buildImplementationPrompt sourceContents projectName
  end.

(** The prompt that an outbound call carries. *)
Definition sent_prompt (c : RemoteCall) : option string :=
  match c with
  | AnthropicMessagesCreate _ prompt
  | GoogleGenerateContent _ prompt
  | OpenAIChatCompletionsCreate _ prompt
  | ModelsGenerateContent _ prompt _ _ => Some prompt
  | _ => None
  end.

(** The prompts sent between [w] and [w']. *)
Definition prompts_sent (w w' : World) : list string :=
  omap sent_prompt (drop (length (net_calls w)) (net_calls w')).

(** A world in which a request of [ClaudeService] gets as far as the call
    of the direct-text provider [p]: the settings can be read, [p] is
    selected and its credential is not blank. *)
Definition provider_ready (w : World) (p : DirectProvider) : Prop :=
  config_fault w = None
  ∧ p ≠ GoogleDirect
  ∧ selected_provider (config w) = provider_tag p
  ∧ ¬ credential_blank (credential_of p (config w)).

(** The path at which the direct-text path of [ClaudeService] writes its
    artifact when the clock shows [t]. *)
Definition direct_artifact_path `{Host} (kind : TaskKind)
    (outputDirectory projectName : string) (t : N) : string :=
  match kind with
  | SpecGeneration =>
      path_join outputDirectory (projectName ++ "-spec-" ++ stamp t ++ ".md")%string
  | ImplementationGeneration =>
      JS.replace_first ".zip" ".txt"
        (path_join outputDirectory (projectName ++ "-game-" ++ stamp t ++ ".zip")%string)
  end.

(** The calls of the upload loop: uploads and status queries. *)
Definition is_upload_or_poll (c : RemoteCall) : Prop :=
  match c with
  | FilesUpload _ _ _ | FilesGet _ => True
  | _ => False
  end.

(** * Reasoning about requests *)

(** ** Frame rules *)

Section Frame.
Context (R : relation World) `{!PreOrder R}.

Lemma preserves_ret {A} (a : A) : preserves R (ret a).
Proof. intros w. simpl. reflexivity. Qed.

Lemma preserves_throw {A} msg : preserves R (@throw A msg).
Proof. intros w. simpl. reflexivity. Qed.

Lemma preserves_diverge {A} : preserves R (@diverge A).
Proof. intros w. simpl. reflexivity. Qed.

Lemma preserves_gets {A} (f : World → A) : preserves R (gets f).
Proof. intros w. simpl. reflexivity. Qed.

Lemma preserves_bind {A B} (m : M A) (f : A → M B) :
  preserves R m → (∀ a, preserves R (f a)) → preserves R (bind m f).
Proof.
  intros Hm Hf w. unfold bind. specialize (Hm w).
  destruct (m w) as [[a| |] w1]; simpl in *; try done.
  etrans; [exact Hm | apply Hf].
Qed.

Lemma preserves_try_catch {A} (m : M A) (h : Thrown → M A) :
  preserves R m → (∀ msg, preserves R (h msg)) → preserves R (try_catch m h).
Proof.
  intros Hm Hh w. unfold try_catch. specialize (Hm w).
  destruct (m w) as [[a|msg|] w1]; simpl in *; try done.
  etrans; [exact Hm | apply Hh].
Qed.

Lemma preserves_attempt {A} (m : M A) : preserves R m → preserves R (attempt m).
Proof.
  intros Hm w. unfold attempt. specialize (Hm w).
  by destruct (m w) as [[a|e|] w1].
Qed.

Lemma preserves_for_each {A} (body : A → M unit) (l : list A) :
  (∀ x, preserves R (body x)) → preserves R (for_each body l).
Proof.
  intros Hb. induction l as [|x l IH]; simpl.
  - apply preserves_ret.
  - apply preserves_bind; auto.
Qed.

Lemma preserves_map_M {A B} (f : A → M B) (l : list A) :
  (∀ x, preserves R (f x)) → preserves R (map_M f l).
Proof.
  intros Hf. induction l as [|x l IH]; simpl.
  - apply preserves_ret.
  - apply preserves_bind; [auto|]. intros y.
    apply preserves_bind; [auto|]. intros ys. apply preserves_ret.
Qed.

Lemma preserves_guarded {A} op (m : M A) :
  preserves R m → preserves R (guarded op m).
Proof.
  intros Hm w. unfold guarded. destruct (fs_fault w op); simpl; [reflexivity | apply Hm].
Qed.

End Frame.

Lemma total_ret {A} (a : A) : total (ret a).
Proof. by intros w. Qed.

Lemma total_throw {A} msg : total (@throw A msg).
Proof. by intros w. Qed.

Lemma total_bind {A B} (m : M A) (f : A → M B) :
  total m → (∀ a, total (f a)) → total (bind m f).
Proof.
  intros Hm Hf w. unfold bind. specialize (Hm w).
  destruct (m w) as [[a| |] w1]; simpl in *; try done. apply Hf.
Qed.

Lemma total_try_catch {A} (m : M A) (h : Thrown → M A) :
  total m → (∀ msg, total (h msg)) → total (try_catch m h).
Proof.
  intros Hm Hh w. unfold try_catch. specialize (Hm w).
  destruct (m w) as [[a|msg|] w1]; simpl in *; try done. apply Hh.
Qed.

Lemma total_attempt {A} (m : M A) : total m → total (attempt m).
Proof.
  intros Hm w. unfold attempt. specialize (Hm w).
  by destruct (m w) as [[a|e|] w1].
Qed.

Lemma total_for_each {A} (body : A → M unit) (l : list A) :
  (∀ x, total (body x)) → total (for_each body l).
Proof.
  intros Hb. induction l as [|x l IH]; simpl.
  - apply total_ret.
  - apply total_bind; auto.
Qed.

Lemma total_map_M {A B} (f : A → M B) (l : list A) :
  (∀ x, total (f x)) → total (map_M f l).
Proof.
  intros Hf. induction l as [|x l IH]; simpl.
  - apply total_ret.
  - apply total_bind; [auto|]. intros y.
    apply total_bind; [auto|]. intros ys. apply total_ret.
Qed.

Lemma returns_ret {A} (a : A) : returns (ret a).
Proof. intros w. by exists a. Qed.

Lemma returns_bind {A B} (m : M A) (f : A → M B) :
  returns m → (∀ a, returns (f a)) → returns (bind m f).
Proof.
  intros Hm Hf w. unfold bind. destruct (Hm w) as [a Ha].
  destruct (m w) as [o w1]; simpl in Ha; subst o. apply Hf.
Qed.

Lemma returns_try_catch {A} (m : M A) (h : Thrown → M A) :
  total m → (∀ msg, returns (h msg)) → returns (try_catch m h).
Proof.
  intros Hm Hh w. unfold try_catch. specialize (Hm w).
  destruct (m w) as [[a|msg|] w1]; simpl in *; [by exists a | apply Hh | done].
Qed.

Lemma returns_for_each {A} (body : A → M unit) (l : list A) :
  (∀ x, returns (body x)) → returns (for_each body l).
Proof.
  intros Hb. induction l as [|x l IH]; simpl.
  - apply returns_ret.
  - apply returns_bind; auto.
Qed.

(** A sequence that returns: both parts returned. *)
Lemma bind_Ok_inv {A B} (m : M A) (f : A → M B) w b w' :
  bind m f w = (Ok b, w') → ∃ a w1, m w = (Ok a, w1) ∧ f a w1 = (Ok b, w').
Proof.
  unfold bind. destruct (m w) as [[a| |] w1]; try done. intros E. by exists a, w1.
Qed.

(** ** The relations are preorders *)

#[local] Instance same_writes_preorder : PreOrder same_writes.
Proof. split; [by intros w | intros w1 w2 w3; unfold same_writes; congruence]. Qed.

#[local] Instance calls_without_delete_preorder : PreOrder calls_without_delete.
Proof.
  split.
  - intros w. exists []. by rewrite app_nil_r.
  - intros w1 w2 w3 (l1 & E1 & F1) (l2 & E2 & F2). exists (l1 ++ l2).
    split; [by rewrite E2, E1, app_assoc | by apply Forall_app].
Qed.

#[local] Instance same_clock_preorder : PreOrder same_clock.
Proof. split; [by intros w | intros w1 w2 w3; unfold same_clock; congruence]. Qed.

#[local] Instance only_removes_preorder : PreOrder only_removes.
Proof.
  split.
  - intros w. by split.
  - intros w1 w2 w3 [F1 C1] [F2 C2]. split; auto.
Qed.

(** ** Frames of the primitives and of the services *)

Ltac unfold_primitives :=
  unfold existsSync, mkdirSync, copyFile, readFile, writeFile, unlink, guarded,
    dotenv_config, Date_now, Date_toISOString, sleep, console_error,
    getConfiguration, call_remote, message_of, modify, gets, ret, throw, diverge.

(** Splits a goal [preserves R m] along the structure of [m]; [leaf] closes
    the relation at a primitive. *)
Ltac frame_with leaf :=
  repeat first
    [ match goal with
      | |- PreOrder _ => exact _
      | |- ∀ _, _ => intros ?
      end
    | apply preserves_ret
    | apply preserves_throw
    | apply preserves_diverge
    | apply preserves_gets
    | apply preserves_bind
    | apply preserves_try_catch
    | apply preserves_attempt
    | apply preserves_for_each
    | apply preserves_map_M
    | apply preserves_guarded
    | assumption
    | match goal with
      | |- preserves _ (match ?x with _ => _ end) => destruct x
      | |- preserves _ (if ?b then _ else _) => destruct b
      | |- preserves _ (let '(_, _) := ?x in _) => destruct x
      end
    | (intros ?w; unfold_primitives; simpl; repeat case_match; simpl; leaf) ].

Ltac total_auto :=
  repeat first
    [ match goal with
      | |- ∀ _, _ => intros ?
      end
    | apply total_ret
    | apply total_throw
    | apply total_bind
    | apply total_try_catch
    | apply total_attempt
    | apply total_for_each
    | apply total_map_M
    | assumption
    | match goal with
      | |- total (match ?x with _ => _ end) => destruct x
      | |- total (if ?b then _ else _) => destruct b
      | |- total (let '(_, _) := ?x in _) => destruct x
      end
    | (intros ?w; unfold_primitives; simpl; repeat case_match; simpl; done) ].

(** ** The anchor search *)

Section AnchorSearch.
Context `{Host}.
Local Open Scope nat_scope.




End AnchorSearch.

(** ** The poll loop *)

Section Polling.
Context `{Host}.

(** One turn of the loop. *)
Lemma waitActive_loop_step polls fileName start timeoutMs intervalMs w :
  GeminiService.waitActive_loop (S polls) fileName start timeoutMs intervalMs w
  = let w1 := polled fileName w in
    let f := polled_file (next_status fileName w) in
    if bool_decide (GeminiService.file_state f = Some "ACTIVE") then (Ok f, w1)
    else if bool_decide (GeminiService.file_state f = Some "FAILED")
    then (Throw (GeminiService.failed_processing fileName), w1)
    else if timeoutMs <? clock w1 - start
    then (Throw (GeminiService.timed_out fileName), w1)
    else GeminiService.waitActive_loop polls fileName start timeoutMs intervalMs
           (set_clock (clock w1 + intervalMs) w1).
Proof.
  cbn [GeminiService.waitActive_loop].
  unfold bind at 1, GeminiService.files_get, try_catch, bind at 1, call_remote.
  unfold polled, polled_file, next_status.
  destruct (payload (reply_file (remote w) (length (net_calls w)) (FilesGet fileName)))
    as [msg|f]; simpl; repeat case_bool_decide; try done;
    unfold bind, Date_now, gets, sleep, modify, throw; simpl; by case_match.
Qed.

(** More iterations than needed change nothing. *)
Lemma waitActive_loop_more_polls n m fileName start timeoutMs intervalMs w :
  (n ≤ m)%nat →
  (GeminiService.waitActive_loop n fileName start timeoutMs intervalMs w).1 ≠ Diverge →
  GeminiService.waitActive_loop m fileName start timeoutMs intervalMs w
  = GeminiService.waitActive_loop n fileName start timeoutMs intervalMs w.
Proof.
  revert m w. induction n as [|n IH]; intros m w Hle Hnd.
  - simpl in Hnd. done.
  - destruct m as [|m]; [lia|]. rewrite !waitActive_loop_step in *. cbv zeta in *.
    repeat case_match; try done. apply IH; [lia | done].
Qed.

(** With a positive interval the loop ends within the iterations that the
    remaining time allows. *)
Lemma waitActive_loop_total polls fileName start timeoutMs intervalMs w :
  0 < intervalMs → start ≤ clock w → (1 ≤ polls)%nat →
  timeoutMs + intervalMs < clock w - start + N.of_nat polls * intervalMs →
  (GeminiService.waitActive_loop polls fileName start timeoutMs intervalMs w).1 ≠ Diverge.
Proof.
  intros HI. revert w. induction polls as [|polls IH]; intros w Hstart Hpos Hbudget; [lia|].
  rewrite waitActive_loop_step. cbv zeta.
  destruct (bool_decide _); [done|]. destruct (bool_decide _); [done|].
  destruct (N.ltb_spec timeoutMs (clock (polled fileName w) - start)) as [|Hle]; [done|].
  unfold polled in *. simpl in *.
  apply IH; simpl; lia.
Qed.

Lemma poll_budget_enough timeoutMs intervalMs :
  0 < intervalMs →
  timeoutMs + intervalMs
  < N.of_nat (GeminiService.poll_budget timeoutMs intervalMs) * intervalMs.
Proof.
  intros HI. unfold GeminiService.poll_budget.
  rewrite Nat2N.inj_add, N2Nat.id. simpl N.of_nat.
  pose proof (N.div_mod timeoutMs intervalMs ltac:(lia)) as Hdiv.
  pose proof (N.mod_lt timeoutMs intervalMs ltac:(lia)) as Hmod.
  nia.
Qed.

Lemma waitActive_total polls fileName timeoutMs intervalMs :
  0 < intervalMs → (GeminiService.poll_budget timeoutMs intervalMs ≤ polls)%nat →
  total (GeminiService.waitActive polls fileName timeoutMs intervalMs).
Proof.
  intros HI Hpolls w. unfold GeminiService.waitActive, bind, Date_now, gets.
  apply waitActive_loop_total; try lia.
  - unfold GeminiService.poll_budget in Hpolls.
    generalize dependent (N.to_nat (timeoutMs / intervalMs)). intros; lia.
  - pose proof (poll_budget_enough timeoutMs intervalMs HI).
    assert (N.of_nat (GeminiService.poll_budget timeoutMs intervalMs) * intervalMs
            ≤ N.of_nat polls * intervalMs) by (apply N.mul_le_mono_r; lia).
    lia.
Qed.

(** On a handle that never settles the loop ends with the timeout error,
    one interval and the time of its last query after the timeout at the
    latest. *)
Lemma waitActive_loop_times_out polls fileName start timeoutMs intervalMs w :
  0 < intervalMs → start ≤ clock w → (1 ≤ polls)%nat →
  timeoutMs + intervalMs < clock w - start + N.of_nat polls * intervalMs →
  clock w - start ≤ timeoutMs + intervalMs →
  never_settles fileName w →
  ∃ w' n,
    GeminiService.waitActive_loop polls fileName start timeoutMs intervalMs w
    = (Throw (Err ("Timed out waiting for ACTIVE: " ++ fileName)%string), w')
    ∧ net_calls w' = net_calls w ++ replicate (S n) (FilesGet fileName)
    ∧ (S n ≤ polls)%nat
    ∧ timeoutMs < clock w' - start
    ∧ clock w' - start
      ≤ timeoutMs + intervalMs
        + latency (reply_file (remote w) (length (net_calls w) + n) (FilesGet fileName)).
Proof.
  intros HI. revert w.
  induction polls as [|polls IH]; intros w Hstart Hpos Hbudget Hentry Hnever; [lia|].
  rewrite waitActive_loop_step. cbv zeta.
  destruct (Hnever (length (net_calls w))) as [Hna Hnf]. fold (next_status fileName w) in Hna, Hnf.
  rewrite !bool_decide_eq_false_2 by done.
  destruct (N.ltb_spec timeoutMs (clock (polled fileName w) - start)) as [Hout|Hin].
  - exists (polled fileName w), 0%nat. split; [done|]. rewrite Nat.add_0_r.
    unfold polled, next_status in *. simpl in *. split_and!; [done | lia | lia | lia].
  - destruct (IH (set_clock (clock (polled fileName w) + intervalMs) (polled fileName w)))
      as (w' & n & E & Hcalls & Hn & Hgt & Hle);
      unfold polled in *; simpl in *; try done; try lia.
    exists w', (S n). split; [done|]. split_and!; try done; try lia.
    + rewrite Hcalls. by rewrite <- app_assoc.
    + rewrite length_app in Hle. simpl in Hle.
      by replace (length (net_calls w) + S n)%nat with (length (net_calls w) + 1 + n)%nat
        by lia.
Qed.

(** The loop throws for two reasons only: a reported FAILED state, or the
    timeout being over. *)
Lemma waitActive_loop_throws polls fileName start timeoutMs intervalMs w msg w' :
  GeminiService.waitActive_loop polls fileName start timeoutMs intervalMs w
  = (Throw msg, w') →
  (msg = GeminiService.failed_processing fileName
   ∧ ∃ n f, payload (reply_file (remote w) n (FilesGet fileName)) = inr f
            ∧ GeminiService.file_state (Some f) = Some "FAILED")
  ∨ (msg = GeminiService.timed_out fileName ∧ timeoutMs < clock w' - start).
Proof.
  revert w. induction polls as [|polls IH]; intros w E; [done|].
  rewrite waitActive_loop_step in E. cbv zeta in E.
  case_bool_decide as Ha; [done|]. case_bool_decide as Hf.
  - left. injection E as <- <-. split; [done|].
    unfold polled_file, next_status in Hf.
    destruct (payload _) as [e|f] eqn:Hp in Hf; [done|]. eauto.
  - destruct (N.ltb_spec timeoutMs (clock (polled fileName w) - start)) as [Hout|Hin].
    + right. by injection E as <- <-.
    + apply IH in E. simpl in E. done.
Qed.

(** C5, amended: on a handle whose status queries never report ACTIVE and
    never FAILED, and with a positive poll interval, [waitActive] does not
    poll forever.  It makes status queries for the handle and nothing else,
    at most [timeoutMs / intervalMs + 2] of them, and throws the timeout
    error; it does so after the timeout, and no later than one poll interval
    plus the duration of its last status query after the timeout. *)
Theorem C5_poll_loop_times_out polls fileName timeoutMs intervalMs w :
  0 < intervalMs →
  (GeminiService.poll_budget timeoutMs intervalMs ≤ polls)%nat →
  never_settles fileName w →
  ∃ w' n,
    GeminiService.waitActive polls fileName timeoutMs intervalMs w
    = (Throw (Err ("Timed out waiting for ACTIVE: " ++ fileName)%string), w')
    ∧ net_calls w' = net_calls w ++ replicate (S n) (FilesGet fileName)
    ∧ N.of_nat (S n) ≤ timeoutMs / intervalMs + 2
    ∧ timeoutMs < clock w' - clock w
    ∧ clock w' - clock w
      ≤ timeoutMs + intervalMs
        + latency (reply_file (remote w) (length (net_calls w) + n) (FilesGet fileName)).
Proof.
  intros HI Hpolls Hnever.
  pose proof (poll_budget_enough timeoutMs intervalMs HI) as Hbudget.
  assert (1 ≤ GeminiService.poll_budget timeoutMs intervalMs)%nat as Hone.
  { unfold GeminiService.poll_budget. apply Nat.le_trans with 2%nat; [lia|].
    apply Nat.le_add_l. }
  assert (clock w - clock w = 0) as Hzero by lia.
  destruct (waitActive_loop_times_out (GeminiService.poll_budget timeoutMs intervalMs)
              fileName (clock w) timeoutMs intervalMs w)
    as (w' & n & E & Hcalls & Hn & Hgt & Hle); try done.
  { by rewrite Hzero. }
  { rewrite Hzero. apply N.le_0_l. }
  exists w', n. split_and!; try done.
  - unfold GeminiService.waitActive, bind, Date_now, gets.
    rewrite <- E. apply waitActive_loop_more_polls; [done|]. by rewrite E.
  - unfold GeminiService.poll_budget in Hn.
    generalize dependent (timeoutMs / intervalMs). intros; lia.
Qed.

(** C10: a status query that is rejected does not end the wait.  When the
    timeout is not over after it, the loop sleeps one interval and polls
    again; the rejection leads to an error only through the timeout check
    that every turn makes.  And whatever the queries answer, the loop
    throws only for a reported FAILED state or because the timeout is
    over. *)
Theorem C10_rejected_query_is_pending polls fileName start timeoutMs intervalMs w reason :
  payload (next_status fileName w) = inl reason →
  let w1 := polled fileName w in
  (clock w1 - start ≤ timeoutMs →
     GeminiService.waitActive_loop (S polls) fileName start timeoutMs intervalMs w
     = GeminiService.waitActive_loop polls fileName start timeoutMs intervalMs
         (set_clock (clock w1 + intervalMs) w1))
  ∧ (timeoutMs < clock w1 - start →
       GeminiService.waitActive_loop (S polls) fileName start timeoutMs intervalMs w
       = (Throw (GeminiService.timed_out fileName), w1))
  ∧ (∀ n msg w',
       GeminiService.waitActive_loop n fileName start timeoutMs intervalMs w
       = (Throw msg, w') →
       (msg = GeminiService.failed_processing fileName
        ∧ ∃ k f, payload (reply_file (remote w) k (FilesGet fileName)) = inr f
                 ∧ GeminiService.file_state (Some f) = Some "FAILED")
       ∨ (msg = GeminiService.timed_out fileName ∧ timeoutMs < clock w' - start)).
Proof.
  intros Hrej w1. rewrite waitActive_loop_step. cbv zeta. fold w1.
  unfold polled_file. rewrite Hrej. simpl. split_and!.
  - intros Hin. by rewrite (proj2 (N.ltb_ge _ _) Hin).
  - intros Hout. by rewrite (proj2 (N.ltb_lt _ _) Hout).
  - intros n msg w'. apply waitActive_loop_throws.
Qed.

End Polling.

(** ** The services, stage by stage *)

(** Closes the relation at a primitive, for the relations of this file. *)
Ltac frame_leaf :=
  first
    [ done
    | by (exists []; rewrite app_nil_r)
    | by (eexists [_]; split; [done | repeat constructor]) ].

Ltac frame := frame_with ltac:(frame_leaf).

(** The frame of a stage from the frames of its primitives. *)
Ltac stage lemma := apply lemma; [exact _ | ..]; frame.

#[local] Instance calls_only_preorder P : PreOrder (calls_only P).
Proof.
  split.
  - intros w. exists []. by rewrite app_nil_r.
  - intros w1 w2 w3 (l1 & E1 & F1) (l2 & E2 & F2). exists (l1 ++ l2).
    split; [by rewrite E2, E1, app_assoc | by apply Forall_app].
Qed.

#[local] Instance no_calls_preorder : PreOrder no_calls.
Proof. split; [by intros w | intros w1 w2 w3; unfold no_calls; congruence]. Qed.

#[local] Instance files_within_preorder S : PreOrder (files_within S).
Proof.
  split.
  - by intros w p _.
  - intros w1 w2 w3 H1 H2 p Hp. by rewrite (H2 p Hp), (H1 p Hp).
Qed.

#[local] Instance same_dirs_preorder : PreOrder same_dirs.
Proof. split; [by intros w | intros w1 w2 w3; unfold same_dirs; congruence]. Qed.

#[local] Instance same_files_preorder : PreOrder same_files.
Proof. split; [by intros w | intros w1 w2 w3; unfold same_files; congruence]. Qed.

#[local] Instance same_console_preorder : PreOrder same_console.
Proof. split; [by intros w | intros w1 w2 w3; unfold same_console; congruence]. Qed.

#[local] Instance same_surroundings_preorder : PreOrder same_surroundings.
Proof.
  split.
  - by intros w.
  - intros w1 w2 w3 (F1 & T1 & R1 & C1 & G1) (F2 & T2 & R2 & C2 & G2).
    unfold same_surroundings. split_and!; congruence.
Qed.

#[local] Instance unchanged_preorder : PreOrder (@eq World).
Proof. split; [by intros w | intros w1 w2 w3; congruence]. Qed.

Section ServiceFrames.
Context `{Host}.

(** *** Termination *)

Lemma findProjectRoot_loop_total levels dir :
  total (GeminiService.findProjectRoot_loop levels dir).
Proof.
  revert dir. induction levels as [|levels IH]; intros dir; simpl; total_auto.
  apply IH.
Qed.

Lemma findProjectRoot_total outputDirectory :
  total (GeminiService.findProjectRoot outputDirectory).
Proof.
  unfold GeminiService.findProjectRoot.
  apply total_bind; [apply findProjectRoot_loop_total|]. total_auto.
Qed.

Lemma copyFilesToUploadsFolder_total filePaths projectRoot :
  total (GeminiService.copyFilesToUploadsFolder filePaths projectRoot).
Proof. unfold GeminiService.copyFilesToUploadsFolder. total_auto. Qed.

Lemma loadEnvApiKey_total projectRoot : total (GeminiService.loadEnvApiKey projectRoot).
Proof. unfold GeminiService.loadEnvApiKey. total_auto. Qed.

Lemma upload_one_total localPath : total (GeminiService.upload_one localPath).
Proof.
  unfold GeminiService.upload_one.
  apply total_bind; [total_auto|]. intros file.
  destruct (f_name file) as [[|c n]|]; try apply total_throw.
  by apply waitActive_total.
Qed.

Lemma uploadAndGenerate_total filePaths prompt projectRoot model systemInstruction :
  total (GeminiService.uploadAndGenerate filePaths prompt projectRoot model
           systemInstruction).
Proof.
  unfold GeminiService.uploadAndGenerate.
  apply total_bind; [apply loadEnvApiKey_total|]. intros apiKey.
  apply total_bind; [apply total_map_M, upload_one_total|]. intros uploaded.
  unfold GeminiService.file_part. total_auto.
Qed.

Lemma cleanup_returns l : returns (GeminiService.cleanupUploadsFolder l).
Proof.
  unfold GeminiService.cleanupUploadsFolder. apply returns_for_each. intros p.
  apply returns_try_catch.
  - total_auto.
  - intros e w. by exists tt.
Qed.

Lemma cleanup_value l w :
  GeminiService.cleanupUploadsFolder l w
  = (Ok tt, (GeminiService.cleanupUploadsFolder l w).2).
Proof.
  destruct (cleanup_returns l w) as [[] E].
  destruct (GeminiService.cleanupUploadsFolder l w) as [o w1]. simpl in *. by subst.
Qed.

Lemma timestamp_value w : timestamp w = (Ok (stamp (clock w)), w).
Proof. done. Qed.

(** *** Frames of the stages, for a relation that their primitives keep *)

Lemma findProjectRoot_loop_frame R `{!PreOrder R} levels dir :
  (∀ p, preserves R (existsSync p)) →
  preserves R (GeminiService.findProjectRoot_loop levels dir).
Proof.
  intros Hex. revert dir. induction levels as [|levels IH]; intros dir; simpl.
  - apply preserves_ret; exact _.
  - apply preserves_bind; [exact _ | apply Hex |]. intros found.
    destruct found; [apply preserves_ret; exact _|].
    destruct (String.eqb _ _); [apply preserves_ret; exact _ | apply IH].
Qed.

Lemma findProjectRoot_frame R `{!PreOrder R} outputDirectory :
  (∀ p, preserves R (existsSync p)) →
  preserves R (GeminiService.findProjectRoot outputDirectory).
Proof.
  intros Hex. unfold GeminiService.findProjectRoot.
  apply preserves_bind; [exact _ | by apply findProjectRoot_loop_frame |].
  intros [dir|]; [apply preserves_ret | apply preserves_throw]; exact _.
Qed.

Lemma copyFilesToUploadsFolder_frame R `{!PreOrder R} filePaths projectRoot :
  (∀ p, preserves R (existsSync p)) →
  (∀ p, preserves R (mkdirSync p)) →
  (∀ src dst, preserves R (copyFile src dst)) →
  preserves R (GeminiService.copyFilesToUploadsFolder filePaths projectRoot).
Proof.
  intros Hex Hmk Hcp. unfold GeminiService.copyFilesToUploadsFolder.
  apply preserves_bind; [exact _ | apply Hex |]. intros found.
  apply preserves_bind; [exact _ | |].
  - destruct found; simpl; [apply preserves_ret; exact _ | apply Hmk].
  - intros _. apply preserves_map_M; [exact _|]. intros filePath.
    apply preserves_bind; [exact _ | apply Hcp |]. intros _. apply preserves_ret; exact _.
Qed.

Lemma gemini_staging_frame R `{!PreOrder R} kind documents guidelines outputDirectory :
  (∀ p, preserves R (existsSync p)) →
  (∀ p, preserves R (mkdirSync p)) →
  (∀ src dst, preserves R (copyFile src dst)) →
  preserves R (gemini_staging kind documents guidelines outputDirectory).
Proof.
  intros Hex Hmk Hcp.
  destruct kind; simpl;
    unfold GeminiService.specification_staging, GeminiService.implementation_staging;
    (apply preserves_bind; [exact _ | by apply findProjectRoot_frame |]);
    intros root;
    (apply preserves_bind; [exact _ | by apply copyFilesToUploadsFolder_frame |]);
    intros copied; apply preserves_ret; exact _.
Qed.

Lemma waitActive_loop_frame R `{!PreOrder R} polls fileName start timeoutMs intervalMs :
  preserves R (GeminiService.files_get fileName) →
  preserves R (sleep intervalMs) →
  preserves R (GeminiService.waitActive_loop polls fileName start timeoutMs intervalMs).
Proof.
  intros Hget Hsleep. induction polls as [|polls IH]; simpl.
  - apply preserves_diverge; exact _.
  - apply preserves_bind; [exact _ | done |]. intros f.
    repeat case_bool_decide; [apply preserves_ret; exact _ | apply preserves_throw; exact _ |].
    apply preserves_bind; [exact _ | apply preserves_gets; exact _ |]. intros now.
    destruct (_ <? _); [apply preserves_throw; exact _|].
    apply preserves_bind; [exact _ | done | done].
Qed.

Lemma loadEnvApiKey_frame R `{!PreOrder R} projectRoot :
  (∀ p, preserves R (existsSync p)) →
  (∀ p, preserves R (dotenv_config p)) →
  preserves R (GeminiService.loadEnvApiKey projectRoot).
Proof.
  intros Hex Hdot. unfold GeminiService.loadEnvApiKey.
  apply preserves_bind; [exact _ | apply Hex |]. intros found.
  apply preserves_bind; [exact _ | |].
  - destruct found; [apply Hdot | apply preserves_throw; exact _].
  - intros _. apply preserves_bind; [exact _ | apply preserves_gets; exact _ |].
    intros env. repeat case_match; (apply preserves_ret || apply preserves_throw); exact _.
Qed.

Lemma upload_loop_frame R `{!PreOrder R} filePaths :
  (∀ ms, preserves R (sleep ms)) →
  (∀ file mime name, preserves R (call_remote reply_file (FilesUpload file mime name))) →
  (∀ name, preserves R (call_remote reply_file (FilesGet name))) →
  preserves R (map_M GeminiService.upload_one filePaths).
Proof.
  intros Hsleep Hup Hget.
  unfold GeminiService.upload_one, GeminiService.waitActive.
  apply preserves_map_M; [exact _|]. intros localPath.
  apply preserves_bind; [exact _ | apply Hup |]. intros file.
  destruct (f_name file) as [[|c n]|]; try (apply preserves_throw; exact _).
  apply preserves_bind; [exact _ | apply preserves_gets; exact _ |]. intros start.
  apply waitActive_loop_frame; [exact _ | | apply Hsleep].
  unfold GeminiService.files_get. apply preserves_try_catch; [exact _ | |].
  - apply preserves_bind; [exact _ | apply Hget |]. intros f. apply preserves_ret; exact _.
  - intros e. apply preserves_ret; exact _.
Qed.

Lemma uploadAndGenerate_frame R `{!PreOrder R} filePaths prompt projectRoot model
    systemInstruction :
  (∀ p, preserves R (existsSync p)) →
  (∀ p, preserves R (dotenv_config p)) →
  (∀ ms, preserves R (sleep ms)) →
  (∀ file mime name, preserves R (call_remote reply_file (FilesUpload file mime name))) →
  (∀ name, preserves R (call_remote reply_file (FilesGet name))) →
  (∀ parts sys,
     preserves R (call_remote reply_text (ModelsGenerateContent model prompt parts sys))) →
  preserves R
    (GeminiService.uploadAndGenerate filePaths prompt projectRoot model systemInstruction).
Proof.
  intros Hex Hdot Hsleep Hup Hget Hgen.
  unfold GeminiService.uploadAndGenerate.
  apply preserves_bind; [exact _ | by apply loadEnvApiKey_frame |]. intros apiKey.
  apply preserves_bind; [exact _ | by apply upload_loop_frame |]. intros uploaded.
  apply preserves_bind; [exact _ | |]; [|intros parts].
  { apply preserves_map_M; [exact _|]. intros [f|];
      [apply preserves_ret | apply preserves_throw]; exact _. }
  apply preserves_bind; [exact _ | apply Hgen |]. intros resp. apply preserves_ret; exact _.
Qed.

Lemma cleanup_frame R `{!PreOrder R} l :
  (∀ p, preserves R (existsSync p)) →
  (∀ p, preserves R (unlink p)) →
  (∀ line, preserves R (console_error line)) →
  preserves R (GeminiService.cleanupUploadsFolder l).
Proof.
  intros Hex Hun Hlog. unfold GeminiService.cleanupUploadsFolder.
  apply preserves_for_each; [exact _|]. intros p.
  apply preserves_try_catch; [exact _ | |].
  - apply preserves_bind; [exact _ | apply Hex |].
    intros [|]; [apply Hun | apply preserves_ret; exact _].
  - intros e. apply Hlog.
Qed.

(** *** What the stages do not touch *)

Lemma gemini_staging_no_calls kind documents guidelines outputDirectory :
  preserves no_calls (gemini_staging kind documents guidelines outputDirectory).
Proof. stage gemini_staging_frame. Qed.

Lemma gemini_staging_same_writes kind documents guidelines outputDirectory :
  preserves same_writes (gemini_staging kind documents guidelines outputDirectory).
Proof. stage gemini_staging_frame. Qed.

Lemma gemini_staging_same_console kind documents guidelines outputDirectory :
  preserves same_console (gemini_staging kind documents guidelines outputDirectory).
Proof. stage gemini_staging_frame. Qed.

Lemma gemini_staging_same_surroundings kind documents guidelines outputDirectory :
  preserves same_surroundings (gemini_staging kind documents guidelines outputDirectory).
Proof. stage gemini_staging_frame. Qed.

Lemma gemini_staging_same_clock kind documents guidelines outputDirectory :
  preserves same_clock (gemini_staging kind documents guidelines outputDirectory).
Proof. stage gemini_staging_frame. Qed.

Lemma findProjectRoot_no_calls outputDirectory :
  preserves no_calls (GeminiService.findProjectRoot outputDirectory).
Proof. stage findProjectRoot_frame. Qed.

Lemma findProjectRoot_same_files outputDirectory :
  preserves same_files (GeminiService.findProjectRoot outputDirectory).
Proof. stage findProjectRoot_frame. Qed.

Lemma findProjectRoot_same_dirs outputDirectory :
  preserves same_dirs (GeminiService.findProjectRoot outputDirectory).
Proof. stage findProjectRoot_frame. Qed.

Lemma uploadAndGenerate_same_writes filePaths prompt projectRoot model systemInstruction :
  preserves same_writes
    (GeminiService.uploadAndGenerate filePaths prompt projectRoot model systemInstruction).
Proof. stage uploadAndGenerate_frame. Qed.

Lemma uploadAndGenerate_same_files filePaths prompt projectRoot model systemInstruction :
  preserves same_files
    (GeminiService.uploadAndGenerate filePaths prompt projectRoot model systemInstruction).
Proof. stage uploadAndGenerate_frame. Qed.

Lemma uploadAndGenerate_same_dirs filePaths prompt projectRoot model systemInstruction :
  preserves same_dirs
    (GeminiService.uploadAndGenerate filePaths prompt projectRoot model systemInstruction).
Proof. stage uploadAndGenerate_frame. Qed.

Lemma uploadAndGenerate_same_console filePaths prompt projectRoot model systemInstruction :
  preserves same_console
    (GeminiService.uploadAndGenerate filePaths prompt projectRoot model systemInstruction).
Proof. stage uploadAndGenerate_frame. Qed.

Lemma uploadAndGenerate_same_surroundings filePaths prompt projectRoot model
    systemInstruction :
  preserves same_surroundings
    (GeminiService.uploadAndGenerate filePaths prompt projectRoot model systemInstruction).
Proof. stage uploadAndGenerate_frame. Qed.

Lemma uploadAndGenerate_without_delete filePaths prompt projectRoot model systemInstruction :
  preserves calls_without_delete
    (GeminiService.uploadAndGenerate filePaths prompt projectRoot model systemInstruction).
Proof. stage uploadAndGenerate_frame. Qed.

Lemma uploadAndGenerate_files_api filePaths prompt projectRoot model systemInstruction :
  preserves (calls_only is_files_api)
    (GeminiService.uploadAndGenerate filePaths prompt projectRoot model systemInstruction).
Proof. stage uploadAndGenerate_frame. Qed.

Lemma upload_loop_calls filePaths :
  preserves (calls_only is_upload_or_poll) (map_M GeminiService.upload_one filePaths).
Proof. stage upload_loop_frame. Qed.

Lemma loadEnvApiKey_no_calls projectRoot :
  preserves no_calls (GeminiService.loadEnvApiKey projectRoot).
Proof. stage loadEnvApiKey_frame. Qed.

Lemma loadEnvApiKey_same_writes projectRoot :
  preserves same_writes (GeminiService.loadEnvApiKey projectRoot).
Proof. stage loadEnvApiKey_frame. Qed.

Lemma cleanup_same_clock l : preserves same_clock (GeminiService.cleanupUploadsFolder l).
Proof. stage cleanup_frame. Qed.

Lemma cleanup_same_surroundings l :
  preserves same_surroundings (GeminiService.cleanupUploadsFolder l).
Proof. stage cleanup_frame. Qed.

End ServiceFrames.

(** ** How a request runs *)

Section Runs.
Context `{Host}.

Lemma logged_app w w' added :
  console_errors w' = console_errors w ++ added → logged w w' = added.
Proof. unfold logged. intros ->. apply drop_app_length. Qed.

(** *** The clean-up *)

Lemma cleanup_step_effect filePath w :
  ∃ w1 added,
    try_catch (let* found := existsSync filePath in
               if found then unlink filePath else ret tt)
              (λ error,
                 console_error (GeminiService.delete_failed filePath (inspect error))) w
    = (Ok tt, w1)
    ∧ same_surroundings w w1 ∧ fs_dirs w1 = fs_dirs w
    ∧ net_calls w1 = net_calls w ∧ fs_writes w1 = fs_writes w ∧ clock w1 = clock w
    ∧ console_errors w1 = console_errors w ++ added
    ∧ (∀ q, q ≠ filePath → fs_files w1 !! q = fs_files w !! q)
    ∧ (fs_files w !! filePath = None → fs_files w1 !! filePath = None)
    ∧ (fs_files w1 !! filePath = None
       ∨ ∃ msg,
           fs_fault w (OpUnlink filePath) = Some msg
           ∧ ("Failed to delete file " ++ filePath ++ ": " ++ msg)%string ∈ added)
    ∧ (fs_fault w (OpUnlink filePath) = None →
       fs_files w1 !! filePath = None ∧ (filePath ∉ fs_dirs w → added = [])).
Proof.
  unfold try_catch, bind, existsSync, exists_in, unlink, guarded, console_error, modify,
    GeminiService.delete_failed, same_surroundings.
  destruct (fs_files w !! filePath) as [c|] eqn:Hfile; simpl;
    [|case_bool_decide as Hdir; simpl];
    try (destruct (fs_fault w (OpUnlink filePath)) as [msg|] eqn:Hfault; simpl;
         [|rewrite Hfile]);
    try (case_bool_decide; [|done]); simpl.
  - eexists _, [_]. split; [reflexivity|]. simpl. split_and!; try done.
    right. exists msg. split; [done|]. by apply list_elem_of_singleton.
  - eexists _, []. split; [reflexivity|]. simpl. rewrite app_nil_r.
    split_and!; try done.
    + intros q Hq. by rewrite lookup_delete_ne.
    + left. apply lookup_delete_eq.
    + intros _. split; [apply lookup_delete_eq | done].
  - eexists _, [_]. split; [reflexivity|]. simpl. split_and!; try done. by left.
  - eexists _, [_]. split; [reflexivity|]. simpl. split_and!; try done. by left.
  - eexists _, []. split; [reflexivity|]. simpl. rewrite app_nil_r.
    split_and!; try done. by left.
Qed.

(** The clean-up, list by list: what it does to the files, what it puts on
    the console, and what it leaves alone. *)
Lemma cleanup_effect filePaths w :
  ∃ w' added,
    GeminiService.cleanupUploadsFolder filePaths w = (Ok tt, w')
    ∧ same_surroundings w w'
    ∧ (∀ p, fs_files w !! p = None → fs_files w' !! p = None)
    ∧ (∀ p, p ∉ filePaths → fs_files w' !! p = fs_files w !! p)
    ∧ fs_dirs w' = fs_dirs w
    ∧ net_calls w' = net_calls w
    ∧ fs_writes w' = fs_writes w
    ∧ clock w' = clock w
    ∧ console_errors w' = console_errors w ++ added
    ∧ (∀ p, p ∈ filePaths →
         fs_files w' !! p = None
         ∨ ∃ msg,
             fs_fault w (OpUnlink p) = Some msg
             ∧ ("Failed to delete file " ++ p ++ ": " ++ msg)%string ∈ added)
    ∧ ((∀ p, p ∈ filePaths → fs_fault w (OpUnlink p) = None) →
       (∀ p, p ∈ filePaths → fs_files w' !! p = None)
       ∧ ((∀ p, p ∈ filePaths → p ∉ fs_dirs w) → added = [])).
Proof.
  revert w. induction filePaths as [|p l IH]; intros w.
  - exists w, []. rewrite app_nil_r. split_and!; try done.
    + intros q Hq. by apply elem_of_nil in Hq.
    + intros _. split; [|done]. intros q Hq. by apply elem_of_nil in Hq.
  - destruct (cleanup_step_effect p w)
      as (w1 & a1 & E1 & Hs1 & Hd1 & Hn1 & Hw1 & Hc1 & Hl1 & Hother1 & Hnone1 & Hcl1 & Hok1).
    destruct (IH w1)
      as (w' & a & E & Hs & Hnone & Hother & Hd & Hn & Hw & Hc & Hl & Hcl & Hok).
    pose proof Hs1 as (Hf1 & _).
    exists w', (a1 ++ a). split.
    { unfold GeminiService.cleanupUploadsFolder in *. simpl. unfold bind at 1.
      by rewrite E1. }
    split_and!; try congruence.
    + by etrans.
    + intros q Hq. apply Hnone.
      destruct (decide (q = p)) as [->|Hne]; [by apply Hnone1 | by rewrite Hother1].
    + intros q Hq. apply not_elem_of_cons in Hq as [Hne Hq].
      by rewrite (Hother q Hq), Hother1.
    + by rewrite Hl, Hl1, app_assoc.
    + intros q Hq. apply elem_of_cons in Hq as [->|Hq].
      * destruct Hcl1 as [Hgone|(msg & Hm & Hin)]; [left; by apply Hnone|].
        right. exists msg. split; [done|]. apply elem_of_app. by left.
      * destruct (Hcl q Hq) as [Hgone|(msg & Hm & Hin)]; [by left|].
        right. exists msg. rewrite Hf1 in Hm. split; [done|]. apply elem_of_app. by right.
    + intros Hfault.
      destruct (Hok1 (Hfault p ltac:(by apply elem_of_cons; left))) as [Hgone1 Hlog1].
      destruct Hok as [Hgone Hlog].
      { intros q Hq. rewrite Hf1. apply Hfault, elem_of_cons. by right. }
      split.
      * intros q Hq. apply elem_of_cons in Hq as [->|Hq]; [by apply Hnone | by apply Hgone].
      * intros Hdirs. rewrite Hlog, Hlog1; [done | |].
        -- apply Hdirs, elem_of_cons. by left.
        -- intros q Hq. rewrite Hd1. apply Hdirs, elem_of_cons. by right.
Qed.

(** *** The write of the artifact *)

(** A write completes; or it fails at the open and nothing has changed; or
    it fails after the open and leaves a prefix of the text in the file. *)
Lemma writeFile_cases path text w :
  writeFile path text w
  = (Ok tt, set_fs_writes (fs_writes w ++ [(path, text)])
              (set_files (<[path := text]> (fs_files w)) w))
  ∨ (∃ msg : string, writeFile path text w = (Throw (Err msg), w))
  ∨ (∃ (msg : string) written,
       fs_torn w path = Some (msg, written)
       ∧ writeFile path text w
         = (Throw (Err msg),
            set_files (<[path := JS.slice0 written text]> (fs_files w)) w)).
Proof.
  unfold writeFile, guarded.
  destruct (fs_fault w (OpWriteFile path)) as [msg|]; [right; left; by exists msg|].
  case_bool_decide; [right; left; by eexists|].
  case_bool_decide; [|right; left; by eexists].
  destruct (fs_torn w path) as [[msg written]|]; [|by left].
  right. right. by exists msg, written.
Qed.

Lemma writeFile_Ok_inv path content w w' :
  writeFile path content w = (Ok tt, w') →
  w' = set_fs_writes (fs_writes w ++ [(path, content)])
         (set_files (<[path := content]> (fs_files w)) w).
Proof.
  unfold writeFile, guarded. repeat case_match; try done. by intros [= <-].
Qed.

(** *** The [catch] clause of [GeminiService] *)

Lemma on_error_run copiedFiles error w :
  GeminiService.on_error copiedFiles error w
  = (caught error, (GeminiService.cleanupUploadsFolder copiedFiles w).2).
Proof.
  unfold GeminiService.on_error, bind.
  destruct copiedFiles as [|p l].
  - simpl. by destruct error.
  - change (0 <? length (p :: l))%nat with true. cbv iota.
    rewrite (cleanup_value (p :: l) w). by destruct error.
Qed.

Lemma caught_not_diverge error : caught error ≠ Diverge.
Proof. by destruct error. Qed.

(** *** The public operations of [GeminiService] *)

Lemma gemini_request_shape kind documents guidelines outputDirectory projectName model :
  gemini_request kind documents guidelines outputDirectory projectName model
  = staged_request (gemini_staging kind documents guidelines outputDirectory)
      (gemini_generation kind documents guidelines outputDirectory projectName model).
Proof. by destruct kind. Qed.

(** The name under which the two operations write the artifact. *)
Lemma gemini_generation_unfold kind documents guidelines outputDirectory projectName model
    root copied :
  gemini_generation kind documents guidelines outputDirectory projectName model root copied
  = (let* result :=
       GeminiService.uploadAndGenerate copied
         (gemini_prompt kind documents guidelines projectName) root model
         (Some (gemini_systemInstruction kind)) in
     let* ts := timestamp in
     let outputPath :=
       path_join outputDirectory
         (projectName ++ "-" ++ kind_tag kind ++ "-" ++ ts ++ "." ++ kind_extension kind) in
     writeFile outputPath result;;
     GeminiService.cleanupUploadsFolder copied;;
     ret (succeeded outputPath)).
Proof. by destruct kind. Qed.

Lemma gemini_generation_split kind documents guidelines outputDirectory projectName model
    root copied w :
  gemini_generation kind documents guidelines outputDirectory projectName model root copied
    w
  = (let* path :=
       gemini_upload_and_write kind documents guidelines outputDirectory projectName
         model root copied in
     GeminiService.cleanupUploadsFolder copied;;
     ret (succeeded path)) w.
Proof.
  rewrite gemini_generation_unfold. unfold gemini_upload_and_write, bind.
  destruct (GeminiService.uploadAndGenerate _ _ _ _ _ w) as [[text|e|] w2]; [|done|done].
  destruct (timestamp w2) as [[ts|e|] w2']; [|done|done].
  by destruct (writeFile _ text w2') as [[[]|e|] w3].
Qed.

(** A request of [GeminiService], stage by stage: the result and the final
    world for each way in which the staging and the statements up to the
    write of the artifact can end. *)
Lemma gemini_request_run kind documents guidelines outputDirectory projectName model w :
  gemini_request kind documents guidelines outputDirectory projectName model w
  = match gemini_staging kind documents guidelines outputDirectory w with
    | (Throw e, w1) => (caught e, w1)
    | (Diverge, w1) => (Diverge, w1)
    | (Ok (root, copied), w1) =>
        match gemini_upload_and_write kind documents guidelines outputDirectory
                projectName model root copied w1 with
        | (Ok path, w3) =>
            (Ok {| success := true; outputPath := Some path; error := None |},
             (GeminiService.cleanupUploadsFolder copied w3).2)
        | (Throw e, w3) => (caught e, (GeminiService.cleanupUploadsFolder copied w3).2)
        | (Diverge, w3) => (Diverge, w3)
        end
    end.
Proof.
  rewrite gemini_request_shape. unfold staged_request, bind at 1, attempt.
  destruct (gemini_staging kind documents guidelines outputDirectory w)
    as [[[root copied]|e|] w1]; [| |done].
  - unfold try_catch. rewrite gemini_generation_split. unfold bind.
    destruct (gemini_upload_and_write _ _ _ _ _ _ _ _ w1) as [[path|e|] w3];
      [|apply on_error_run|done].
    by rewrite (cleanup_value copied w3).
  - rewrite on_error_run. done.
Qed.

(** The statements up to the write, by the way in which they end. *)
Lemma gemini_upload_and_write_run kind documents guidelines outputDirectory projectName
    model root copied w :
  gemini_upload_and_write kind documents guidelines outputDirectory projectName model
    root copied w
  = match GeminiService.uploadAndGenerate copied
            (gemini_prompt kind documents guidelines projectName) root model
            (Some (gemini_systemInstruction kind)) w with
    | (Ok text, w2) =>
        let path := path_join outputDirectory (artifact_name projectName kind (clock w2)) in
        match writeFile path text w2 with
        | (Ok _, w3) => (Ok path, w3)
        | (Throw e, w3) => (Throw e, w3)
        | (Diverge, w3) => (Diverge, w3)
        end
    | (Throw e, w2) => (Throw e, w2)
    | (Diverge, w2) => (Diverge, w2)
    end.
Proof.
  unfold gemini_upload_and_write, bind at 1.
  destruct (GeminiService.uploadAndGenerate _ _ _ _ _ w) as [[text|e|] w2]; [|done|done].
  unfold bind at 1. rewrite timestamp_value. unfold artifact_name, bind. cbv zeta.
  by destruct (writeFile _ text w2) as [[[]|e|] w3].
Qed.

Lemma gemini_staging_total kind documents guidelines outputDirectory :
  total (gemini_staging kind documents guidelines outputDirectory).
Proof.
  destruct kind; simpl;
    unfold GeminiService.specification_staging, GeminiService.implementation_staging;
    (apply total_bind; [apply findProjectRoot_total|]); intros root;
    (apply total_bind; [apply copyFilesToUploadsFolder_total|]); intros copied;
    apply total_ret.
Qed.

Lemma writeFile_total path text : total (writeFile path text).
Proof. unfold writeFile. total_auto. Qed.

End Runs.

(** ** Deletion failures do not reach the stages *)

Section DeletionFaults.
Context `{Host}.

Lemma idf_ret {A} (a : A) : ignores_deletion_faults (ret a).
Proof. by intros w. Qed.

Lemma idf_throw {A} msg : ignores_deletion_faults (@throw A msg).
Proof. by intros w. Qed.

Lemma idf_diverge {A} : ignores_deletion_faults (@diverge A).
Proof. by intros w. Qed.

Lemma idf_bind {A B} (m : M A) (f : A → M B) :
  ignores_deletion_faults m → (∀ a, ignores_deletion_faults (f a)) →
  ignores_deletion_faults (bind m f).
Proof.
  intros Hm Hf w. unfold bind. rewrite Hm.
  destruct (m w) as [[a|e|] w1]; simpl; [apply Hf | done | done].
Qed.

Lemma idf_try_catch {A} (m : M A) (h : Thrown → M A) :
  ignores_deletion_faults m → (∀ e, ignores_deletion_faults (h e)) →
  ignores_deletion_faults (try_catch m h).
Proof.
  intros Hm Hh w. unfold try_catch. rewrite Hm.
  destruct (m w) as [[a|e|] w1]; simpl; [done | apply Hh | done].
Qed.

Lemma idf_map_M {A B} (f : A → M B) (l : list A) :
  (∀ a, ignores_deletion_faults (f a)) → ignores_deletion_faults (map_M f l).
Proof.
  intros Hf. induction l as [|x l IH]; simpl; [apply idf_ret|].
  apply idf_bind; [apply Hf|]. intros y.
  apply idf_bind; [apply IH|]. intros ys. apply idf_ret.
Qed.

Lemma missing_dirs_deletions_allowed w steps p :
  missing_dirs (deletions_allowed w) steps p = missing_dirs w steps p.
Proof.
  revert p. induction steps as [|steps IH]; intros p; simpl; [done|].
  by rewrite IH.
Qed.

Lemma idf_existsSync p : ignores_deletion_faults (existsSync p).
Proof. by intros w. Qed.

Lemma idf_mkdirSync p : ignores_deletion_faults (mkdirSync p).
Proof.
  intros w. unfold mkdirSync, guarded. cbn [deletions_allowed set_fs_fault fs_fault].
  destruct (fs_fault w (OpMkdir p)); [done|]. cbv zeta.
  rewrite missing_dirs_deletions_allowed.
  change (fs_files (deletions_allowed w)) with (fs_files w).
  destruct (filter _ _) as [|q l]; [done|]. by destruct (String.eqb q p).
Qed.

Lemma idf_copyFile src dst : ignores_deletion_faults (copyFile src dst).
Proof.
  intros w. unfold copyFile, guarded. simpl.
  destruct (fs_fault w (OpCopyFile src dst)); [done|].
  destruct (fs_files w !! src); [|done]. by repeat case_bool_decide.
Qed.

Lemma idf_writeFile p c : ignores_deletion_faults (writeFile p c).
Proof.
  intros w. unfold writeFile, guarded. simpl.
  destruct (fs_fault w (OpWriteFile p)); [done|].
  repeat case_bool_decide; try done. by destruct (fs_torn w p) as [[msg n]|].
Qed.

Lemma idf_dotenv_config p : ignores_deletion_faults (dotenv_config p).
Proof.
  intros w. unfold dotenv_config, modify. simpl.
  destruct (fs_fault w (OpReadFile p)); [done|]. by destruct (fs_files w !! p).
Qed.

Lemma idf_sleep ms : ignores_deletion_faults (sleep ms).
Proof. by intros w. Qed.

Lemma idf_call_remote {A} (oracle : Remote → nat → RemoteCall → Reply A) c :
  ignores_deletion_faults (call_remote oracle c).
Proof.
  intros w. unfold call_remote. simpl.
  by destruct (payload (oracle (remote w) (length (net_calls w)) c)).
Qed.

Lemma idf_findProjectRoot outputDirectory :
  ignores_deletion_faults (GeminiService.findProjectRoot outputDirectory).
Proof.
  unfold GeminiService.findProjectRoot. apply idf_bind.
  - generalize (GeminiService.normalizePath outputDirectory) as dir.
    induction GeminiService.maxLevelsUp as [|levels IH]; intros dir; simpl;
      [apply idf_ret|].
    apply idf_bind; [apply idf_existsSync|].
    intros [|]; [apply idf_ret|]. destruct (String.eqb _ _); [apply idf_ret | apply IH].
  - intros [dir|]; [apply idf_ret | apply idf_throw].
Qed.

Lemma idf_copyFilesToUploadsFolder filePaths projectRoot :
  ignores_deletion_faults (GeminiService.copyFilesToUploadsFolder filePaths projectRoot).
Proof.
  unfold GeminiService.copyFilesToUploadsFolder.
  apply idf_bind; [apply idf_existsSync|]. intros found.
  apply idf_bind; [destruct found; [apply idf_ret | apply idf_mkdirSync]|]. intros _.
  apply idf_map_M. intros filePath.
  apply idf_bind; [apply idf_copyFile|]. intros _. apply idf_ret.
Qed.

Lemma idf_gemini_staging kind documents guidelines outputDirectory :
  ignores_deletion_faults (gemini_staging kind documents guidelines outputDirectory).
Proof.
  destruct kind; simpl;
    unfold GeminiService.specification_staging, GeminiService.implementation_staging;
    (apply idf_bind; [apply idf_findProjectRoot|]); intros root;
    (apply idf_bind; [apply idf_copyFilesToUploadsFolder|]); intros copied;
    apply idf_ret.
Qed.

Lemma idf_waitActive polls fileName timeoutMs intervalMs :
  ignores_deletion_faults (GeminiService.waitActive polls fileName timeoutMs intervalMs).
Proof.
  unfold GeminiService.waitActive. apply idf_bind; [by intros w|]. intros start.
  induction polls as [|polls IH]; simpl; [apply idf_diverge|].
  apply idf_bind.
  { unfold GeminiService.files_get. apply idf_try_catch.
    - apply idf_bind; [apply idf_call_remote|]. intros f. apply idf_ret.
    - intros e. apply idf_ret. }
  intros f. repeat case_bool_decide; [apply idf_ret | apply idf_throw |].
  apply idf_bind; [by intros w|]. intros now.
  destruct (_ <? _); [apply idf_throw|].
  apply idf_bind; [apply idf_sleep | done].
Qed.

Lemma idf_loadEnvApiKey projectRoot :
  ignores_deletion_faults (GeminiService.loadEnvApiKey projectRoot).
Proof.
  unfold GeminiService.loadEnvApiKey.
  apply idf_bind; [apply idf_existsSync|]. intros found.
  apply idf_bind; [destruct found; [apply idf_dotenv_config | apply idf_throw]|].
  intros _. apply idf_bind; [by intros w|]. intros env.
  repeat case_match; (apply idf_ret || apply idf_throw).
Qed.

Lemma idf_uploadAndGenerate filePaths prompt projectRoot model systemInstruction :
  ignores_deletion_faults
    (GeminiService.uploadAndGenerate filePaths prompt projectRoot model systemInstruction).
Proof.
  unfold GeminiService.uploadAndGenerate.
  apply idf_bind; [apply idf_loadEnvApiKey|]. intros apiKey.
  apply idf_bind.
  { apply idf_map_M. intros localPath. unfold GeminiService.upload_one.
    apply idf_bind; [apply idf_call_remote|]. intros file.
    destruct (f_name file) as [[|c n]|]; try apply idf_throw. apply idf_waitActive. }
  intros uploaded. apply idf_bind.
  { apply idf_map_M. intros [f|]; [apply idf_ret | apply idf_throw]. }
  intros parts. apply idf_bind; [apply idf_call_remote|]. intros resp. apply idf_ret.
Qed.

Lemma idf_gemini_upload_and_write kind documents guidelines outputDirectory projectName
    model root copied :
  ignores_deletion_faults
    (gemini_upload_and_write kind documents guidelines outputDirectory projectName model
       root copied).
Proof.
  unfold gemini_upload_and_write.
  apply idf_bind; [apply idf_uploadAndGenerate|]. intros text.
  apply idf_bind; [by intros w|]. intros ts.
  apply idf_bind; [apply idf_writeFile|]. intros _. apply idf_ret.
Qed.

(** The result of a request of [GeminiService] is the one it has in the
    world in which no deletion fails. *)
Lemma gemini_request_ignores_deletion_faults kind documents guidelines outputDirectory
    projectName model w :
  (gemini_request kind documents guidelines outputDirectory projectName model
     (deletions_allowed w)).1
  = (gemini_request kind documents guidelines outputDirectory projectName model w).1.
Proof.
  rewrite !gemini_request_run. rewrite idf_gemini_staging.
  destruct (gemini_staging kind documents guidelines outputDirectory w)
    as [[[root copied]|e|] w1]; simpl; [|done|done].
  rewrite idf_gemini_upload_and_write.
  by destruct (gemini_upload_and_write _ _ _ _ _ _ _ _ w1) as [[path|e|] w3].
Qed.

End DeletionFaults.

(** ** The public operations of [ClaudeService], stage by stage *)

Lemma append_assoc (a b c : string) : ((a ++ b) ++ c = a ++ (b ++ c))%string.
Proof.
  induction a as [|x a IH]; [done|].
  change (String x ((a ++ b) ++ c) = String x (a ++ (b ++ c)))%string. by rewrite IH.
Qed.

Lemma append_empty_r (a : string) : (a ++ EmptyString)%string = a.
Proof.
  induction a as [|c a IH]; [done|].
  change (String c (a ++ EmptyString)%string = String c a). by rewrite IH.
Qed.

Lemma concat_empty_cons (t : string) (ts : list string) :
  String.concat EmptyString (t :: ts) = (t ++ String.concat EmptyString ts)%string.
Proof.
  destruct ts as [|t' ts]; [by rewrite append_empty_r|]. done.
Qed.

Lemma fold_text_blocks content acc :
  foldl (λ fullResponse block,
           if String.eqb (block_type block) "text"
           then (fullResponse ++ block_text block)%string
           else fullResponse) acc content
  = (acc ++ text_of_blocks content)%string.
Proof.
  unfold text_of_blocks. revert acc. induction content as [|b content IH]; intros acc.
  - by rewrite append_empty_r.
  - cbn [foldl]. rewrite IH, filter_cons.
    destruct (String.eqb_spec (block_type b) "text") as [Et|Et].
    + rewrite decide_True by done. cbn [map].
      by rewrite concat_empty_cons, append_assoc.
    + by rewrite decide_False by done.
Qed.

Section ClaudeRuns.
Context `{Host}.

Lemma catch_run error w :
  (let* message := message_of error in ret (failure message)) w = (caught error, w).
Proof. by destruct error. Qed.

Lemma caught_cases error :
  (∃ msg, error = Err msg
          ∧ caught error
            = Ok {| success := false; outputPath := None; error := Some msg |})
  ∨ (error = Unprintable ∧ caught error = Throw (Err unprintable_message)).
Proof. destruct error as [msg|]; [left; by exists msg | by right]. Qed.

Lemma readFile_cases p w :
  (∃ c, readFile p w = (Ok c, w))
  ∨ (∃ msg : string, readFile p w = (Throw (Err msg), w)).
Proof.
  unfold readFile, guarded.
  repeat case_match; ((left; by eexists) || (right; by eexists)).
Qed.

Lemma read_documents_cons kind p paths w :
  ClaudeService.read_documents kind (p :: paths) w
  = match readFile p w with
    | (Ok c, w1) =>
        match ClaudeService.read_documents kind paths w1 with
        | (Ok bs, w2) =>
            (Ok (ClaudeService.document_block kind (path_basename p) c :: bs), w2)
        | (Throw e, w2) => (Throw e, w2)
        | (Diverge, w2) => (Diverge, w2)
        end
    | (Throw e, w1) => (Throw e, w1)
    | (Diverge, w1) => (Diverge, w1)
    end.
Proof.
  cbn [ClaudeService.read_documents map_M].
  fold (ClaudeService.read_documents kind paths). unfold bind.
  destruct (readFile p w) as [[c|e|] w1]; try done.
Qed.

(** Reading the documents has no effect; it fails with the read error of
    one of them. *)
Lemma read_documents_cases kind paths w :
  (∃ blocks, ClaudeService.read_documents kind paths w = (Ok blocks, w))
  ∨ (∃ (msg : string) p,
       ClaudeService.read_documents kind paths w = (Throw (Err msg), w)
       ∧ p ∈ paths ∧ (readFile p w).1 = Throw (Err msg)).
Proof.
  induction paths as [|p paths IH]; [left; by exists []|].
  rewrite read_documents_cons.
  destruct (readFile_cases p w) as [(c & Ec)|(msg & Ec)]; rewrite Ec.
  - destruct IH as [(blocks & ->)|(msg & q & -> & Hq & Hmsg)].
    + left. by eexists.
    + right. exists msg, q. split_and!; [done | by right | done].
  - right. exists msg, p. split_and!; [done | by left | by rewrite Ec].
Qed.

Lemma claude_prompt_cases kind documents guidelines projectName w :
  (∃ prompt, claude_prompt kind documents guidelines projectName w = (Ok prompt, w))
  ∨ (∃ (msg : string) p,
       claude_prompt kind documents guidelines projectName w = (Throw (Err msg), w)
       ∧ p ∈ kind_documents kind documents guidelines
       ∧ (readFile p w).1 = Throw (Err msg)).
Proof.
  destruct kind; simpl; unfold bind.
  - destruct (read_documents_cases "Source Document" documents w)
      as [(b1 & ->)|(msg & p & -> & Hp & Hmsg)].
    + destruct (read_documents_cases "Prompting Document" guidelines w)
        as [(b2 & ->)|(msg & p & -> & Hp & Hmsg)].
      * left. by eexists.
      * right. exists msg, p. split_and!; try done. apply elem_of_app. by right.
    + right. exists msg, p. split_and!; try done. apply elem_of_app. by left.
  - destruct (read_documents_cases "Game Specification" documents w)
      as [(b1 & ->)|(msg & p & -> & Hp & Hmsg)].
    + left. by eexists.
    + right. by exists msg, p.
Qed.

Lemma readable_reads w p : readable w p → ∃ c, (readFile p w).1 = Ok c.
Proof.
  intros [Hfault [c Hc]]. exists c. unfold readFile, guarded. by rewrite Hfault, Hc.
Qed.

(** The prompt of [claude_prompt] is the one the operation sends: on the
    direct-text path the [try] block is the building of the prompt followed
    by the call and the write. *)
Lemma try_block_builds_prompt kind documents guidelines outputDirectory projectName w :
  config_fault w = None →
  JS.or_default (aiProvider (config w)) "anthropic" ≠ "google" →
  claude_try_block kind documents guidelines outputDirectory projectName w
  = (let* prompt := claude_prompt kind documents guidelines projectName in
     claude_send_and_write kind outputDirectory projectName prompt) w.
Proof.
  intros Hcfg Hprovider. apply String.eqb_neq in Hprovider.
  destruct kind; simpl;
    unfold ClaudeService.generateGameSpecification_try, ClaudeService.implementGame_try,
      claude_send_and_write;
    unfold bind at 1, getConfiguration; rewrite Hcfg, Hprovider; unfold bind, ret;
    repeat (case_match; try done; simplify_eq).
Qed.

Lemma try_block_delegates kind documents guidelines outputDirectory projectName w :
  config_fault w = None →
  selected_provider (config w) = "google" →
  claude_try_block kind documents guidelines outputDirectory projectName w
  = gemini_request kind documents guidelines outputDirectory projectName
      (gemini_model (config w)) w.
Proof.
  intros Hcfg Hprovider. unfold selected_provider in Hprovider.
  destruct kind; simpl;
    unfold ClaudeService.generateGameSpecification_try, ClaudeService.implementGame_try;
    unfold bind at 1, getConfiguration; by rewrite Hcfg, Hprovider.
Qed.

Lemma try_block_config_fault kind documents guidelines outputDirectory projectName w
    (msg : string) :
  config_fault w = Some msg →
  claude_try_block kind documents guidelines outputDirectory projectName w
  = (Throw (Err msg), w).
Proof.
  intros Hcfg.
  destruct kind; simpl;
    unfold ClaudeService.generateGameSpecification_try, ClaudeService.implementGame_try;
    unfold bind at 1, getConfiguration; by rewrite Hcfg.
Qed.

(** A public operation is its [try] block, except that what the block
    throws becomes the result of the [catch] clause. *)
Lemma claude_request_unfold kind documents guidelines outputDirectory projectName w :
  claude_request kind documents guidelines outputDirectory projectName w
  = match claude_try_block kind documents guidelines outputDirectory projectName w with
    | (Throw e, w') => (caught e, w')
    | x => x
    end.
Proof.
  destruct kind; simpl;
    unfold ClaudeService.generateGameSpecification, ClaudeService.implementGame, try_catch.
  - destruct (ClaudeService.generateGameSpecification_try _ _ _ _ w) as [[r|e|] w'];
      [done | apply catch_run | done].
  - destruct (ClaudeService.implementGame_try _ _ _ w) as [[r|e|] w'];
      [done | apply catch_run | done].
Qed.

(** The statements after the prompt is built, by the outcome of the
    dispatcher and of the write. *)
Lemma send_and_write_run kind outputDirectory projectName prompt w :
  claude_send_and_write kind outputDirectory projectName prompt w
  = match ClaudeService.sendToAI prompt w with
    | (Ok text, w1) =>
        let path := direct_artifact_path kind outputDirectory projectName (clock w1) in
        match writeFile path text w1 with
        | (Ok _, w2) =>
            (Ok {| success := true; outputPath := Some path; error := None |}, w2)
        | (Throw e, w2) => (Throw e, w2)
        | (Diverge, w2) => (Diverge, w2)
        end
    | (Throw e, w1) => (Throw e, w1)
    | (Diverge, w1) => (Diverge, w1)
    end.
Proof.
  unfold claude_send_and_write, bind at 1.
  destruct (ClaudeService.sendToAI prompt w) as [[text|e|] w1]; [|done|done].
  unfold bind at 1. rewrite timestamp_value. cbn beta iota.
  destruct kind; unfold bind, direct_artifact_path, stamp; cbv zeta;
    by destruct (writeFile _ text w1) as [[[]|e|] w2].
Qed.

(** A request, by the settings and by the way in which its stages end. *)
Lemma claude_request_run kind documents guidelines outputDirectory projectName w :
  claude_request kind documents guidelines outputDirectory projectName w
  = match config_fault w with
    | Some msg =>
        (Ok {| success := false; outputPath := None; error := Some msg |}, w)
    | None =>
        if String.eqb (selected_provider (config w)) "google"
        then
          match gemini_request kind documents guidelines outputDirectory projectName
                  (gemini_model (config w)) w with
          | (Throw e, w') => (caught e, w')
          | x => x
          end
        else
          match claude_prompt kind documents guidelines projectName w with
          | (Ok prompt, w0) =>
              match ClaudeService.sendToAI prompt w0 with
              | (Ok text, w1) =>
                  let path :=
                    direct_artifact_path kind outputDirectory projectName (clock w1) in
                  match writeFile path text w1 with
                  | (Ok _, w2) =>
                      (Ok {| success := true; outputPath := Some path; error := None |},
                       w2)
                  | (Throw e, w2) => (caught e, w2)
                  | (Diverge, w2) => (Diverge, w2)
                  end
              | (Throw e, w1) => (caught e, w1)
              | (Diverge, w1) => (Diverge, w1)
              end
          | (Throw e, w0) => (caught e, w0)
          | (Diverge, w0) => (Diverge, w0)
          end
    end.
Proof.
  rewrite claude_request_unfold.
  destruct (config_fault w) as [msg|] eqn:Hcfg.
  { by rewrite (try_block_config_fault _ _ _ _ _ _ msg Hcfg). }
  destruct (String.eqb_spec (selected_provider (config w)) "google") as [Hg|Hg].
  { by rewrite try_block_delegates. }
  rewrite try_block_builds_prompt by done. unfold bind at 1.
  destruct (claude_prompt kind documents guidelines projectName w) as [[prompt|e|] w0];
    [|done|done].
  rewrite send_and_write_run.
  destruct (ClaudeService.sendToAI prompt w0) as [[text|e|] w1]; [|done|done].
  cbv zeta. by destruct (writeFile _ text w1) as [[[]|e|] w2].
Qed.

(** *** The dispatcher *)

Lemma sendToAI_unfold prompt w :
  config_fault w = None →
  ClaudeService.sendToAI prompt w
  = try_catch
      (if String.eqb (selected_provider (config w)) "anthropic"
       then send_direct Anthropic prompt (direct_model (config w))
       else if String.eqb (selected_provider (config w)) "google"
       then send_direct GoogleDirect prompt (direct_model (config w))
       else if String.eqb (selected_provider (config w)) "openai"
       then send_direct OpenAI prompt (direct_model (config w))
       else throw ("Unknown AI provider: " ++ selected_provider (config w))%string)
      (λ error,
         let* message := message_of error in
         throw ("Failed to communicate with AI: " ++ message)%string) w.
Proof.
  intros Hcfg. unfold ClaudeService.sendToAI, try_catch, bind at 1, getConfiguration.
  by rewrite Hcfg.
Qed.

Lemma dispatcher_catch_run {A} error w :
  (let* message := message_of error in
   @throw A ("Failed to communicate with AI: " ++ message)%string) w
  = (Throw (Err (rethrown error)), w).
Proof. by destruct error. Qed.

(** A provider throws without a call, or makes its one call and then
    returns the text of the answer or throws; only the log of calls and the
    clock change. *)
Lemma send_direct_cases p prompt model w :
  (∃ msg : string, send_direct p prompt model w = (Throw (Err msg), w))
  ∨ (∃ o t,
       send_direct p prompt model w
       = (o, set_clock t (set_net_calls (net_calls w ++ [direct_call p model prompt]) w))
       ∧ o ≠ Diverge
       ∧ ClaudeService.key_missing (credential_of p (config w)) = false
       ∧ (∀ text, o = Ok text → p ≠ GoogleDirect →
            provider_text w (length (net_calls w)) (direct_call p model prompt)
            = Some text)).
Proof.
  destruct p; simpl;
    unfold ClaudeService.sendToAnthropic, ClaudeService.sendToGoogle,
      ClaudeService.sendToOpenAI, bind, getConfiguration, call_remote;
    (destruct (config_fault w); [left; by eexists|]);
    (destruct (ClaudeService.key_missing _); [left; by eexists|]);
    right.
  - destruct (payload _) as [e|content] eqn:Hpay; eexists _, _;
      (split_and!; [reflexivity | done | done |]); intros text [= <-] _.
    by rewrite ?Hpay, fold_text_blocks.
  - destruct (payload _) as [e|[text|]] eqn:Hpay; eexists _, _;
      (split_and!; [reflexivity | done | done |]); by intros text' _ ?.
  - destruct (payload _) as [e|content] eqn:Hpay; eexists _, _;
      (split_and!; [reflexivity | done | done |]); intros text [= <-] _.
    rewrite ?Hpay. by destruct content as [[|a s]|].
Qed.

(** What the dispatcher does: it throws behind its prefix without a call,
    or makes the one call of the selected provider and then returns the
    text of the answer or throws. *)
Lemma sendToAI_cases prompt w :
  config_fault w = None →
  (∃ msg, ClaudeService.sendToAI prompt w
          = (Throw (Err ("Failed to communicate with AI: " ++ msg)%string), w)
          ∧ ((∀ p, selected_provider (config w) ≠ provider_tag p) →
             msg = ("Unknown AI provider: " ++ selected_provider (config w))%string))
  ∨ (∃ p o t,
       selected_provider (config w) = provider_tag p
       ∧ ClaudeService.sendToAI prompt w
         = (o, set_clock t
                 (set_net_calls
                    (net_calls w ++ [direct_call p (direct_model (config w)) prompt]) w))
       ∧ o ≠ Diverge
       ∧ (∀ e, o = Throw e → ∃ msg, e = Err msg)
       ∧ (∀ text, o = Ok text → p ≠ GoogleDirect →
            provider_text w (length (net_calls w))
              (direct_call p (direct_model (config w)) prompt) = Some text)).
Proof.
  intros Hcfg. rewrite (sendToAI_unfold prompt w Hcfg).
  set (handler := λ error : Thrown,
         let* message := message_of error in
         throw ("Failed to communicate with AI: " ++ message)%string).
  assert (∀ p, selected_provider (config w) = provider_tag p →
            (∃ msg,
               try_catch (send_direct p prompt (direct_model (config w))) handler w
               = (Throw (Err ("Failed to communicate with AI: " ++ msg)%string), w)
               ∧ ((∀ p, selected_provider (config w) ≠ provider_tag p) →
                  msg = ("Unknown AI provider: " ++ selected_provider (config w))%string))
            ∨ (∃ p' o t,
                 selected_provider (config w) = provider_tag p'
                 ∧ try_catch (send_direct p prompt (direct_model (config w))) handler w
                   = (o, set_clock t
                           (set_net_calls
                              (net_calls w
                               ++ [direct_call p' (direct_model (config w)) prompt]) w))
                 ∧ o ≠ Diverge
                 ∧ (∀ e, o = Throw e → ∃ msg, e = Err msg)
                 ∧ (∀ text, o = Ok text → p' ≠ GoogleDirect →
                      provider_text w (length (net_calls w))
                        (direct_call p' (direct_model (config w)) prompt) = Some text)))
    as Hcase.
  { intros p Hp. unfold try_catch.
    destruct (send_direct_cases p prompt (direct_model (config w)) w)
      as [(msg & E)|(o & t & E & Ho & _ & Hanswer)]; rewrite E.
    - left. exists msg. split; [done|]. intros Hnone. by destruct (Hnone p).
    - right. destruct o as [a|e|]; [| |done].
      + exists p, (Ok a), t. by split_and!.
      + exists p, (Throw (Err (rethrown e))), t. unfold handler.
        rewrite dispatcher_catch_run. split_and!; try done.
        intros e' [= <-]. by eexists. }
  destruct (String.eqb_spec (selected_provider (config w)) "anthropic") as [Ea|Ea];
    [by apply (Hcase Anthropic)|].
  destruct (String.eqb_spec (selected_provider (config w)) "google") as [Eg|Eg];
    [by apply (Hcase GoogleDirect)|].
  destruct (String.eqb_spec (selected_provider (config w)) "openai") as [Eo|Eo];
    [by apply (Hcase OpenAI)|].
  left. eexists. by split.
Qed.

Lemma sendToAI_total prompt : total (ClaudeService.sendToAI prompt).
Proof.
  unfold ClaudeService.sendToAI, ClaudeService.sendToAnthropic,
    ClaudeService.sendToGoogle, ClaudeService.sendToOpenAI.
  total_auto.
Qed.

Lemma sendToAI_throws_messages prompt : throws_messages (ClaudeService.sendToAI prompt).
Proof.
  intros w e w' E. unfold ClaudeService.sendToAI, try_catch in E.
  destruct (bind getConfiguration _ w) as [[text|e0|] w0]; [done| |done].
  rewrite dispatcher_catch_run in E. injection E as <- <-. by eexists.
Qed.

End ClaudeRuns.

(** ** The staging on its own *)

Section Staging.
Context `{Host}.

Lemma copyFile_Ok_inv src dst w w' :
  copyFile src dst w = (Ok tt, w') →
  ∃ c, fs_files w !! src = Some c ∧ w' = set_files (<[dst := c]> (fs_files w)) w.
Proof.
  unfold copyFile, guarded. repeat case_match; try done. intros [= <-]. eauto.
Qed.

Lemma copy_loop_spec uploadsFolder filePaths w copied w' :
  let dest filePath :=
    path_join uploadsFolder (path_basename (GeminiService.normalizePath filePath)) in
  map_M (λ filePath,
           copyFile (GeminiService.normalizePath filePath) (dest filePath);;
           ret (dest filePath)) filePaths w = (Ok copied, w') →
  copied = map dest filePaths
  ∧ fs_dirs w' = fs_dirs w ∧ net_calls w' = net_calls w ∧ fs_writes w' = fs_writes w
  ∧ (∀ p, p ∉ copied → fs_files w' !! p = fs_files w !! p)
  ∧ (∀ p, p ∈ copied → is_Some (fs_files w' !! p))
  ∧ ((∀ s, s ∈ filePaths → GeminiService.normalizePath s ∉ map dest filePaths) →
     ∀ before s after,
       filePaths = before ++ s :: after → dest s ∉ map dest after →
       fs_files w' !! dest s = fs_files w !! GeminiService.normalizePath s).
Proof.
  intros dest. revert w copied. induction filePaths as [|x l IH]; intros w copied E.
  - injection E as <- <-. split_and!; try done.
    + intros p Hp. by apply elem_of_nil in Hp.
    + intros _ before s after Hl. by destruct before.
  - cbn [map_M] in E.
    apply bind_Ok_inv in E as (d & w1 & Ed & E).
    apply bind_Ok_inv in Ed as ([] & w0 & Ec & Ed). injection Ed as <- <-.
    apply bind_Ok_inv in E as (ds & w2 & El & E). injection E as <- <-.
    apply copyFile_Ok_inv in Ec as (c & Hc & ->).
    destruct (IH _ _ El) as (-> & Hd & Hn & Hw & Hother & Hsome & Hlast).
    simpl in *. split_and!; try done.
    + intros p Hp. apply not_elem_of_cons in Hp as [Hne Hp].
      by rewrite (Hother p Hp), lookup_insert_ne.
    + intros p Hp. apply elem_of_cons in Hp as [->|Hp]; [|by apply Hsome].
      destruct (decide (dest x ∈ map dest l)) as [Hin|Hnin]; [by apply Hsome|].
      rewrite (Hother _ Hnin), lookup_insert_eq. eauto.
    + intros Hsrc before s after Hl Hnot.
      destruct before as [|y before]; simpl in Hl; injection Hl as -> ->.
      * by rewrite (Hother _ Hnot), lookup_insert_eq.
      * rewrite (Hlast ltac:(intros s' Hs'; specialize (Hsrc s' ltac:(by apply elem_of_cons; right));
                              by apply not_elem_of_cons in Hsrc as [_ ?])
                  before s after eq_refl Hnot).
        apply lookup_insert_ne. intros Heq.
        apply (Hsrc s); [|rewrite <- Heq; by apply elem_of_cons; left].
        apply elem_of_cons. right. apply elem_of_app. right. by apply elem_of_cons; left.
Qed.

(** The directories that a recursive [mkdir] creates lie on the upward walk
    from its path; when the parent exists it creates the one directory. *)
Lemma missing_dirs_ancestors w steps p d :
  d ∈ missing_dirs w steps p → (d ∉ fs_dirs w) ∧ ∃ i, d = ancestor i p.
Proof.
  revert p. induction steps as [|steps IH]; intros p Hd; simpl in Hd.
  - by apply elem_of_nil in Hd.
  - case_bool_decide as Hp; [by apply elem_of_nil in Hd|].
    apply elem_of_cons in Hd as [->|Hd]; [split; [done | by exists 0%nat]|].
    destruct (String.eqb _ _); [by apply elem_of_nil in Hd|].
    apply IH in Hd as [Hnot (i & ->)]. split; [done|]. by exists (S i).
Qed.

Lemma missing_dirs_parent w steps p :
  p ∉ fs_dirs w → path_dirname p ∈ fs_dirs w → missing_dirs w (S steps) p = [p].
Proof.
  intros Hp Hparent. simpl. rewrite bool_decide_eq_false_2 by done.
  destruct (String.eqb _ _); [done|].
  destruct steps; simpl; [done|]. by rewrite bool_decide_eq_true_2.
Qed.

Lemma mkdirSync_Ok_inv p w w' :
  mkdirSync p w = (Ok tt, w') →
  w' = set_dirs (list_to_set (missing_dirs w (S (String.length p)) p) ∪ fs_dirs w) w.
Proof.
  unfold mkdirSync, guarded. destruct (fs_fault w (OpMkdir p)); [done|]. cbv zeta.
  destruct (filter _ _) as [|q l]; [by intros [= <-]|]. by destruct (String.eqb q p).
Qed.

Lemma dirs_plus_refl d w w' : fs_dirs w' = fs_dirs w → dirs_plus d w w'.
Proof. intros E. unfold dirs_plus. rewrite E. split_and!; [done | by left | by left]. Qed.

Lemma mkdirSync_dirs p w w' :
  mkdirSync p w = (Ok tt, w') → p ∉ fs_dirs w → dirs_plus p w w'.
Proof.
  intros E Hp. apply mkdirSync_Ok_inv in E as ->. unfold dirs_plus.
  cbn [fs_dirs set_dirs]. split_and!.
  - set_solver.
  - intros q Hq. apply elem_of_union in Hq as [Hq|Hq]; [|by left].
    right. apply elem_of_list_to_set in Hq. by apply missing_dirs_ancestors in Hq as [_ ?].
  - intros Hparent. right. rewrite missing_dirs_parent by done.
    simpl. by rewrite (right_id_L ∅ (∪)).
Qed.

Lemma copyFilesToUploadsFolder_Ok_inv filePaths projectRoot w copied w' :
  GeminiService.copyFilesToUploadsFolder filePaths projectRoot w = (Ok copied, w') →
  copied = map (staged_path projectRoot) filePaths
  ∧ (∀ p, p ∈ copied → is_Some (fs_files w' !! p))
  ∧ (∀ p, p ∉ copied → fs_files w' !! p = fs_files w !! p)
  ∧ dirs_plus (GeminiService.getUploadsFolderPath projectRoot) w w'
  ∧ net_calls w' = net_calls w
  ∧ fs_writes w' = fs_writes w
  ∧ ((∀ s, s ∈ filePaths → GeminiService.normalizePath s ∉ copied) →
     ∀ before s after,
       filePaths = before ++ s :: after →
       staged_path projectRoot s ∉ map (staged_path projectRoot) after →
       fs_files w' !! staged_path projectRoot s
       = fs_files w !! GeminiService.normalizePath s).
Proof.
  unfold GeminiService.copyFilesToUploadsFolder. intros E.
  apply bind_Ok_inv in E as (found & w1 & Ef & E).
  unfold existsSync in Ef. injection Ef as <- <-.
  apply bind_Ok_inv in E as ([] & w2 & Em & E).
  assert (fs_files w2 = fs_files w ∧ net_calls w2 = net_calls w
          ∧ fs_writes w2 = fs_writes w
          ∧ dirs_plus (GeminiService.getUploadsFolderPath projectRoot) w w2)
    as (Hf2 & Hn2 & Hw2 & Hd2).
  { destruct (exists_in w _) eqn:Hex; simpl in Em.
    - injection Em as <-. split_and!; try done. by apply dirs_plus_refl.
    - pose proof (mkdirSync_dirs _ _ _ Em) as Hplus.
      apply mkdirSync_Ok_inv in Em as ->.
      split_and!; try done. apply Hplus. simpl.
      unfold exists_in in Hex. apply orb_false_elim in Hex as [_ Hex].
      by apply bool_decide_eq_false_1 in Hex. }
  apply copy_loop_spec in E as (-> & Hd & Hn & Hw & Hother & Hsome & Hlast).
  rewrite Hf2 in Hother, Hlast. rewrite Hn, Hw, Hn2, Hw2.
  split_and!; try done.
  unfold dirs_plus in *. by rewrite Hd.
Qed.

(** X2: When [copyFilesToUploadsFolder] returns, it returns the staged paths of
    its documents in input order; every one of them is a file; no other file
    has changed; no directory was removed and none created other than the
    staging folder and, where they were missing, its ancestors (the folder
    alone when the project root is a directory); no outbound call and no
    artifact write was made.  If no document lies at a staged path, a staged
    copy holds the content of the last document staged there: documents with
    the same base name share one copy. *)
Theorem copyFilesToUploadsFolder_copies (filePaths : list string) (projectRoot : string)
    (w : World) (copied : list string) (w' : World) :
  GeminiService.copyFilesToUploadsFolder filePaths projectRoot w = (Ok copied, w') →
  copied = map (staged_path projectRoot) filePaths
  ∧ (∀ p, p ∈ copied → is_Some (fs_files w' !! p))
  ∧ (∀ p, p ∉ copied → fs_files w' !! p = fs_files w !! p)
  ∧ (fs_dirs w ⊆ fs_dirs w'
     ∧ (∀ d, d ∈ fs_dirs w' →
          d ∈ fs_dirs w
          ∨ ∃ i, d = ancestor i (GeminiService.getUploadsFolderPath projectRoot))
     ∧ (path_dirname (GeminiService.getUploadsFolderPath projectRoot) ∈ fs_dirs w →
        fs_dirs w' = fs_dirs w
        ∨ fs_dirs w' = {[GeminiService.getUploadsFolderPath projectRoot]} ∪ fs_dirs w))
  ∧ net_calls w' = net_calls w
  ∧ fs_writes w' = fs_writes w
  ∧ ((∀ s, s ∈ filePaths → GeminiService.normalizePath s ∉ copied) →
     ∀ before s after,
       filePaths = before ++ s :: after →
       staged_path projectRoot s ∉ map (staged_path projectRoot) after →
       fs_files w' !! staged_path projectRoot s
       = fs_files w !! GeminiService.normalizePath s).
Proof. apply copyFilesToUploadsFolder_Ok_inv. Qed.

Lemma gemini_staging_Ok_inv kind documents guidelines outputDirectory w root copied w1 :
  gemini_staging kind documents guidelines outputDirectory w = (Ok (root, copied), w1) →
  (GeminiService.findProjectRoot outputDirectory w).1 = Ok root
  ∧ copied = staged_copies kind documents guidelines root
  ∧ (∀ p, p ∉ copied → fs_files w1 !! p = fs_files w !! p)
  ∧ dirs_plus (GeminiService.getUploadsFolderPath root) w w1.
Proof.
  intros Es.
  assert (∃ w0,
            GeminiService.findProjectRoot outputDirectory w = (Ok root, w0)
            ∧ GeminiService.copyFilesToUploadsFolder
                (kind_documents kind documents guidelines) root w0 = (Ok copied, w1))
    as (w0 & Er & Ec).
  { destruct kind; simpl in Es;
      unfold GeminiService.specification_staging, GeminiService.implementation_staging
        in Es;
      apply bind_Ok_inv in Es as (root' & w0 & Er & Es);
      apply bind_Ok_inv in Es as (copied' & w0' & Ec & Es); injection Es as -> -> ->;
      by exists w0. }
  pose proof (findProjectRoot_same_files outputDirectory w) as Hf.
  pose proof (findProjectRoot_same_dirs outputDirectory w) as Hd.
  rewrite Er in Hf, Hd. unfold same_files, same_dirs in *. simpl in *.
  apply copyFilesToUploadsFolder_Ok_inv in Ec as (-> & _ & Hother & Hdirs & _).
  rewrite Er. split_and!; try done.
  - intros p Hp. by rewrite (Hother p Hp), Hf.
  - unfold dirs_plus in *. by rewrite <- Hd.
Qed.

End Staging.

(** ** The calls of a request that completes *)

Section Protocol.
Context `{Host}.

(** The loop returns only a file, the one of the first status query that
    reports ACTIVE, the queries before it having reported neither ACTIVE nor
    FAILED; it has made these queries and no other call. *)
Lemma waitActive_loop_Ok_inv polls fileName start timeoutMs intervalMs w r w' :
  GeminiService.waitActive_loop polls fileName start timeoutMs intervalMs w = (Ok r, w') →
  ∃ f n,
    r = Some f ∧ GeminiService.file_state (Some f) = Some "ACTIVE"
    ∧ (∀ j, (j < n)%nat →
         let state :=
           GeminiService.file_state
             (polled_file (reply_file (remote w) (length (net_calls w) + j)
                             (FilesGet fileName))) in
         state ≠ Some "ACTIVE" ∧ state ≠ Some "FAILED")
    ∧ payload (reply_file (remote w) (length (net_calls w) + n) (FilesGet fileName))
      = inr f
    ∧ net_calls w' = net_calls w ++ replicate (S n) (FilesGet fileName)
    ∧ remote w' = remote w.
Proof.
  revert w. induction polls as [|polls IH]; intros w E; [done|].
  rewrite waitActive_loop_step in E. cbv zeta in E.
  case_bool_decide as Ha.
  - injection E as <- <-.
    unfold polled_file, next_status in *.
    destruct (payload (reply_file (remote w) (length (net_calls w)) (FilesGet fileName)))
      as [e|f] eqn:Ef; [done|].
    exists f, 0%nat. rewrite Nat.add_0_r. split_and!; try done. intros j Hj. lia.
  - case_bool_decide as Hf; [done|]. destruct (_ <? _); [done|].
    apply IH in E as (f & n & -> & Hact & Hpending & Hlast & Hn & Hr).
    unfold polled in *. simpl in *. rewrite length_app in Hpending, Hlast. simpl in *.
    exists f, (S n). split_and!; try done.
    + intros [|j] Hj.
      * rewrite Nat.add_0_r. by split.
      * replace (length (net_calls w) + S j)%nat with (length (net_calls w) + 1 + j)%nat
          by lia.
        apply Hpending. lia.
    + by replace (length (net_calls w) + S n)%nat with (length (net_calls w) + 1 + n)%nat
        by lia.
    + rewrite Hn. by rewrite <- app_assoc.
Qed.

Lemma upload_one_Ok_inv localPath w r w' :
  GeminiService.upload_one localPath w = (Ok r, w') →
  ∃ granted name n f,
    r = Some f
    ∧ payload (reply_file (remote w) (length (net_calls w)) (upload_call localPath))
      = inr granted
    ∧ f_name granted = Some name ∧ name ≠ EmptyString
    ∧ (∀ j, (j < n)%nat →
         let state :=
           GeminiService.file_state
             (polled_file (reply_file (remote w) (length (net_calls w) + 1 + j)
                             (FilesGet name))) in
         state ≠ Some "ACTIVE" ∧ state ≠ Some "FAILED")
    ∧ payload (reply_file (remote w) (length (net_calls w) + 1 + n) (FilesGet name))
      = inr f
    ∧ GeminiService.file_state (Some f) = Some "ACTIVE"
    ∧ net_calls w'
      = net_calls w ++ upload_call localPath :: replicate (S n) (FilesGet name)
    ∧ remote w' = remote w.
Proof.
  unfold GeminiService.upload_one. intros E.
  apply bind_Ok_inv in E as (granted & w1 & Eu & E).
  unfold call_remote in Eu. fold (upload_call localPath) in Eu.
  destruct (payload (reply_file (remote w) (length (net_calls w)) (upload_call localPath)))
    as [e|g] eqn:Eg; [done|]. injection Eu as -> <-.
  destruct (f_name granted) as [[|c name]|] eqn:Hname; try done.
  unfold GeminiService.waitActive in E.
  apply bind_Ok_inv in E as (start & w2 & Es & E). injection Es as <- <-.
  apply waitActive_loop_Ok_inv in E as (f & n & -> & Hact & Hpending & Hlast & Hn & Hr).
  simpl in *. rewrite length_app in Hpending, Hlast. simpl in *.
  exists granted, (String c name), n, f. split_and!; try done.
  by rewrite Hn, <- app_assoc.
Qed.

Lemma upload_loop_Ok_inv filePaths w uploaded w' :
  map_M GeminiService.upload_one filePaths w = (Ok uploaded, w') →
  ∃ files calls,
    uploaded = map Some files
    ∧ upload_trace (remote w) (length (net_calls w)) filePaths calls files
    ∧ net_calls w' = net_calls w ++ calls
    ∧ remote w' = remote w.
Proof.
  revert w uploaded. induction filePaths as [|p l IH]; intros w uploaded E.
  - injection E as <- <-. exists [], []. split_and!; try done; [constructor|].
    by rewrite app_nil_r.
  - cbn [map_M] in E.
    apply bind_Ok_inv in E as (r & w1 & E1 & E).
    apply bind_Ok_inv in E as (rs & w2 & El & E). injection E as <- <-.
    apply upload_one_Ok_inv in E1
      as (granted & name & n & f & -> & Hg & Hname & Hne & Hpending & Hlast & Hact
          & Hn1 & Hr1).
    apply IH in El as (files & calls & -> & Htrace & Hn & Hr).
    exists (f :: files),
      (upload_call p :: replicate (S n) (FilesGet name) ++ calls).
    split_and!; try done.
    + econstructor; try done.
      rewrite Hr1, Hn1, length_app in Htrace. simpl in Htrace.
      rewrite length_replicate in Htrace.
      by replace (length (net_calls w) + 2 + n)%nat
        with (length (net_calls w) + S (S n))%nat by lia.
    + rewrite Hn, Hn1. by rewrite <- app_assoc.
    + congruence.
Qed.

Lemma upload_trace_lengths r i paths calls files :
  upload_trace r i paths calls files → length files = length paths.
Proof. induction 1; simpl; [done | by f_equal]. Qed.

Lemma upload_trace_active r i paths calls files :
  upload_trace r i paths calls files →
  Forall (λ f, GeminiService.file_state (Some f) = Some "ACTIVE") files.
Proof. induction 1; by constructor. Qed.

Lemma upload_trace_calls r i paths calls files :
  upload_trace r i paths calls files → Forall is_upload_or_poll calls.
Proof.
  induction 1; [constructor|]. constructor; [done|].
  apply Forall_app. split; [|done]. constructor; [done|].
  by apply Forall_replicate.
Qed.

Lemma file_parts_of_files files w :
  map_M GeminiService.file_part (map Some files) w = (Ok (map active_part files), w).
Proof.
  induction files as [|f files IH]; [done|].
  cbn [map map_M]. unfold bind at 1. simpl. unfold bind. by rewrite IH.
Qed.

(** What [uploadAndGenerate] has done when it returns. *)
Lemma uploadAndGenerate_Ok_inv filePaths prompt projectRoot model systemInstruction
    w text w' :
  GeminiService.uploadAndGenerate filePaths prompt projectRoot model systemInstruction w
  = (Ok text, w') →
  ∃ files calls,
    upload_trace (remote w) (length (net_calls w)) filePaths calls files
    ∧ net_calls w'
      = net_calls w ++ calls
        ++ [ModelsGenerateContent model prompt (map active_part files)
              (if JS.truthy systemInstruction then systemInstruction else None)]
    ∧ provider_text w (length (net_calls w ++ calls))
        (ModelsGenerateContent model prompt (map active_part files)
           (if JS.truthy systemInstruction then systemInstruction else None))
      = Some text.
Proof.
  unfold GeminiService.uploadAndGenerate. intros E.
  apply bind_Ok_inv in E as (apiKey & w1 & Ek & E).
  pose proof (loadEnvApiKey_no_calls projectRoot w) as Hn1.
  assert (remote w1 = remote w) as Hr1.
  { assert (preserves same_surroundings (GeminiService.loadEnvApiKey projectRoot)) as Hp
      by (stage loadEnvApiKey_frame).
    specialize (Hp w). rewrite Ek in Hp. by destruct Hp as (_ & _ & ? & _). }
  rewrite Ek in Hn1. unfold no_calls in Hn1. simpl in Hn1.
  apply bind_Ok_inv in E as (uploaded & w2 & Eu & E).
  apply upload_loop_Ok_inv in Eu as (files & calls & -> & Htrace & Hn2 & Hr2).
  apply bind_Ok_inv in E as (parts & w2' & Ep & E).
  rewrite file_parts_of_files in Ep. injection Ep as <- <-.
  apply bind_Ok_inv in E as (resp & w3 & Eg & E). injection E as <- <-.
  exists files, calls. rewrite Hr1, Hn1 in Htrace. split; [done|].
  unfold call_remote in Eg.
  destruct (payload _) as [e|resp'] eqn:Hpay; [done|]. injection Eg as -> <-.
  simpl. rewrite Hn2, Hn1, <- app_assoc. split; [done|].
  rewrite Hn2, Hr2, Hr1, Hn1 in Hpay. rewrite Hpay. by destruct resp.
Qed.

End Protocol.

(** ** Requests of [GeminiService] *)

Section Requests.
Context `{Host}.

Lemma gemini_upload_and_write_frame R `{!PreOrder R} kind documents guidelines
    outputDirectory projectName model root copied :
  preserves R
    (GeminiService.uploadAndGenerate copied
       (gemini_prompt kind documents guidelines projectName) root model
       (Some (gemini_systemInstruction kind))) →
  (∀ p c, preserves R (writeFile p c)) →
  preserves R
    (gemini_upload_and_write kind documents guidelines outputDirectory projectName model
       root copied).
Proof.
  intros Hup Hwrite. unfold gemini_upload_and_write.
  apply preserves_bind; [exact _ | done |]. intros text.
  apply preserves_bind; [exact _ | unfold timestamp; frame |]. intros ts.
  apply preserves_bind; [exact _ | apply Hwrite |]. intros _. apply preserves_ret; exact _.
Qed.

Lemma gemini_upload_and_write_total kind documents guidelines outputDirectory projectName
    model root copied :
  total
    (gemini_upload_and_write kind documents guidelines outputDirectory projectName model
       root copied).
Proof.
  unfold gemini_upload_and_write.
  apply total_bind; [apply uploadAndGenerate_total|]. intros text.
  apply total_bind; [unfold timestamp; total_auto|]. intros ts.
  apply total_bind; [apply writeFile_total|]. intros _. apply total_ret.
Qed.

(** What the staging keeps. *)
Lemma gemini_staging_keeps kind documents guidelines outputDirectory w :
  let w1 := (gemini_staging kind documents guidelines outputDirectory w).2 in
  net_calls w1 = net_calls w ∧ fs_writes w1 = fs_writes w
  ∧ console_errors w1 = console_errors w ∧ clock w1 = clock w
  ∧ same_surroundings w w1.
Proof.
  intros w1. split_and!.
  - apply gemini_staging_no_calls.
  - apply gemini_staging_same_writes.
  - apply gemini_staging_same_console.
  - apply gemini_staging_same_clock.
  - apply gemini_staging_same_surroundings.
Qed.

(** What the statements between staging and clean-up keep. *)
Lemma gemini_upload_and_write_keeps kind documents guidelines outputDirectory projectName
    model root copied w :
  let w3 := (gemini_upload_and_write kind documents guidelines outputDirectory
               projectName model root copied w).2 in
  console_errors w3 = console_errors w ∧ fs_dirs w3 = fs_dirs w
  ∧ same_surroundings w w3
  ∧ calls_without_delete w w3 ∧ calls_only is_files_api w w3.
Proof.
  intros w3. split_and!.
  - apply (gemini_upload_and_write_frame same_console);
      [apply uploadAndGenerate_same_console | frame].
  - apply (gemini_upload_and_write_frame same_dirs);
      [apply uploadAndGenerate_same_dirs | frame].
  - apply (gemini_upload_and_write_frame same_surroundings);
      [apply uploadAndGenerate_same_surroundings | frame].
  - apply (gemini_upload_and_write_frame calls_without_delete);
      [apply uploadAndGenerate_without_delete | frame].
  - apply (gemini_upload_and_write_frame (calls_only is_files_api));
      [apply uploadAndGenerate_files_api | frame].
Qed.

Lemma gemini_request_total kind documents guidelines outputDirectory projectName model :
  total (gemini_request kind documents guidelines outputDirectory projectName model).
Proof.
  intros w. rewrite gemini_request_run.
  pose proof (gemini_staging_total kind documents guidelines outputDirectory w) as Hs.
  destruct (gemini_staging kind documents guidelines outputDirectory w)
    as [[[root copied]|e|] w1]; [|apply caught_not_diverge|done].
  pose proof (gemini_upload_and_write_total kind documents guidelines outputDirectory
                projectName model root copied w1) as Hg.
  destruct (gemini_upload_and_write _ _ _ _ _ _ _ _ w1) as [[path|e|] w3];
    [done | apply caught_not_diverge | done].
Qed.

(** A request ends with a result or with the [TypeError] of the conversion
    in its [catch] clause. *)
Lemma gemini_request_outcome kind documents guidelines outputDirectory projectName model w :
  (∃ r, (gemini_request kind documents guidelines outputDirectory projectName model w).1
        = Ok r)
  ∨ (gemini_request kind documents guidelines outputDirectory projectName model w).1
    = Throw (Err unprintable_message).
Proof.
  pose proof (gemini_request_total kind documents guidelines outputDirectory projectName
                model w) as Ht.
  rewrite gemini_request_run in *.
  destruct (gemini_staging kind documents guidelines outputDirectory w)
    as [[[root copied]|e|] w1]; [| |done].
  - destruct (gemini_upload_and_write _ _ _ _ _ _ _ _ w1) as [[path|e|] w3]; [| |done].
    + left. by eexists.
    + destruct e; [left; by eexists | by right].
  - destruct e; [left; by eexists | by right].
Qed.

(** When the staging throws, the request ends in the world the staging
    left: nothing of what it copied before the exception is removed. *)
Lemma staging_failure_skips_cleanup kind documents guidelines outputDirectory projectName
    model w (msg : string) w1 :
  gemini_staging kind documents guidelines outputDirectory w = (Throw msg, w1) →
  gemini_request kind documents guidelines outputDirectory projectName model w
  = (Ok (failure msg), w1).
Proof. intros Es. rewrite gemini_request_run. by rewrite Es. Qed.

(** The world in which the clean-up of a request starts and the one it
    leaves. *)
Lemma request_cleanup kind documents guidelines outputDirectory projectName model
    w root copied w1 :
  gemini_staging kind documents guidelines outputDirectory w = (Ok (root, copied), w1) →
  let x := gemini_upload_and_write kind documents guidelines outputDirectory projectName
             model root copied w1 in
  x.1 ≠ Diverge
  ∧ ∃ w' added,
      GeminiService.cleanupUploadsFolder copied x.2 = (Ok tt, w')
      ∧ (gemini_request kind documents guidelines outputDirectory projectName model w).2
        = w'
      ∧ console_errors w' = console_errors w ++ added
      ∧ net_calls w' = net_calls x.2
      ∧ fs_writes w' = fs_writes x.2
      ∧ fs_dirs w' = fs_dirs w1
      ∧ (∀ p, p ∉ copied → fs_files w' !! p = fs_files x.2 !! p)
      ∧ (∀ p, p ∈ copied → cleaned_up w w' p)
      ∧ ((∀ p, p ∈ copied → fs_fault w (OpUnlink p) = None) →
         ∀ p, p ∈ copied → fs_files w' !! p = None).
Proof.
  intros Es x.
  pose proof (gemini_upload_and_write_total kind documents guidelines outputDirectory
                projectName model root copied w1) as Ht.
  split; [done|].
  destruct (gemini_staging_keeps kind documents guidelines outputDirectory w)
    as (_ & _ & Hc1 & _ & Hs1).
  rewrite Es in Hc1, Hs1. simpl in Hc1, Hs1.
  destruct (gemini_upload_and_write_keeps kind documents guidelines outputDirectory
              projectName model root copied w1) as (Hc3 & Hd3 & Hs3 & _).
  fold x in Hc3, Hd3, Hs3.
  destruct (cleanup_effect copied x.2)
    as (w' & added & Ec & Hs & Hnone & Hother & Hd & Hn & Hw & Hclock & Hl & Hcl & Hok).
  assert (fs_fault x.2 = fs_fault w) as Hfault.
  { destruct Hs1 as (F1 & _), Hs3 as (F3 & _). congruence. }
  exists w', added. split_and!; try done.
  - rewrite gemini_request_run, Es. subst x.
    destruct (gemini_upload_and_write _ _ _ _ _ _ _ _ w1) as [[path|e|] w3];
      simpl in *; [by rewrite Ec | by rewrite Ec | done].
  - congruence.
  - congruence.
  - intros p Hp. destruct (Hcl p Hp) as [Hgone|(msg & Hm & Hin)]; [by left|].
    right. exists msg. rewrite Hfault in Hm. split; [done|].
    rewrite (logged_app w w' added); [done | congruence].
  - intros Hfaults. apply Hok. intros p Hp. rewrite Hfault. by apply Hfaults.
Qed.

(** C1, amended: in a request whose staging completed, so that the upload
    stage is reached, the operation ends, with a result or with the
    [TypeError] of its [catch] clause.  Every staged local copy is cleaned up
    by then, on the success and on the failure path: it is no file any more,
    or the system rejected its deletion and the request has put the line of
    that failure on the console.  A failed deletion is not propagated: the
    operation ends as it does in the world in which no deletion fails.  And
    no remote delete is among the outbound calls of the request: the
    uploaded remote files are left to the remote side. *)
Theorem C1_local_copies_cleaned_no_remote_delete (kind : TaskKind)
    (documents guidelines : list string) (outputDirectory projectName model : string)
    (w : World) (root : string) (copied : list string) :
  (gemini_staging kind documents guidelines outputDirectory w).1 = Ok (root, copied) →
  ∃ o w',
    gemini_request kind documents guidelines outputDirectory projectName model w
    = (o, w')
    ∧ ((∃ r, o = Ok r) ∨ o = Throw (Err "Cannot convert object to primitive value"))
    ∧ (∀ filePath, filePath ∈ copied →
         fs_files w' !! filePath = None
         ∨ ∃ msg,
             fs_fault w (OpUnlink filePath) = Some msg
             ∧ ("Failed to delete file " ++ filePath ++ ": " ++ msg)%string
               ∈ drop (length (console_errors w)) (console_errors w'))
    ∧ (gemini_request kind documents guidelines outputDirectory projectName model
         (deletions_allowed w)).1 = o
    ∧ calls_without_delete w w'
    ∧ ∀ name, FilesDelete name ∉ drop (length (net_calls w)) (net_calls w').
Proof.
  intros Es.
  destruct (gemini_staging kind documents guidelines outputDirectory w) as [o1 w1] eqn:Es'.
  simpl in Es. subst o1.
  destruct (request_cleanup kind documents guidelines outputDirectory projectName model
              w root copied w1 Es')
    as (_ & w' & added & Ec & Hw' & _ & Hn & _ & _ & _ & Hclean & _).
  destruct (gemini_request kind documents guidelines outputDirectory projectName model w)
    as [o w''] eqn:E.
  simpl in Hw'. subst w''. exists o, w'.
  assert (calls_without_delete w w') as Hcalls.
  { destruct (gemini_staging_keeps kind documents guidelines outputDirectory w)
      as (Hn1 & _).
    rewrite Es' in Hn1. simpl in Hn1.
    destruct (gemini_upload_and_write_keeps kind documents guidelines outputDirectory
                projectName model root copied w1) as (_ & _ & _ & (l & Hl & Hall) & _).
    exists l. split; [congruence | done]. }
  split_and!; try done.
  - pose proof (gemini_request_outcome kind documents guidelines outputDirectory
                  projectName model w) as Ho.
    by rewrite E in Ho.
  - rewrite gemini_request_ignores_deletion_faults. by rewrite E.
  - intros name. destruct Hcalls as (l & -> & Hl).
    rewrite drop_app_length. intros Hin.
    rewrite Forall_forall in Hl. by specialize (Hl _ Hin).
Qed.

End Requests.

(** ** What a request leaves behind *)

Section Effects.
Context `{Host}.

Lemma preserves_map_M_in {A B} R `{!PreOrder R} (f : A → M B) (l : list A) :
  (∀ x, x ∈ l → preserves R (f x)) → preserves R (map_M f l).
Proof.
  induction l as [|x l IH]; intros Hf; simpl.
  - apply preserves_ret; exact _.
  - apply preserves_bind; [exact _ | apply Hf; by left |]. intros y.
    apply preserves_bind; [exact _ | |].
    + apply IH. intros z Hz. apply Hf. by right.
    + intros ys. apply preserves_ret; exact _.
Qed.

(** The copies are written inside the list of staged paths, also when the
    staging stops half-way. *)
Lemma copyFilesToUploadsFolder_within filePaths projectRoot :
  preserves (files_within (λ p, p ∈ map (staged_path projectRoot) filePaths))
    (GeminiService.copyFilesToUploadsFolder filePaths projectRoot).
Proof.
  unfold GeminiService.copyFilesToUploadsFolder.
  apply preserves_bind; [exact _ | frame |]. intros found.
  apply preserves_bind; [exact _ | frame |]. intros _.
  apply preserves_map_M_in; [exact _|]. intros d Hd.
  apply preserves_bind; [exact _ | | frame].
  intros w p Hp. unfold copyFile, guarded. repeat case_match; simpl; try done.
  apply lookup_insert_ne. intros <-. apply Hp.
  apply list_elem_of_fmap. by exists d.
Qed.



Lemma gemini_staging_unfold kind documents guidelines outputDirectory w :
  gemini_staging kind documents guidelines outputDirectory w
  = (let* projectRoot := GeminiService.findProjectRoot outputDirectory in
     let* copiedFiles :=
       GeminiService.copyFilesToUploadsFolder (kind_documents kind documents guidelines)
         projectRoot in
     ret (projectRoot, copiedFiles)) w.
Proof. by destruct kind. Qed.

(** The staging changes staged copies only, however it ends. *)
Lemma gemini_staging_files kind documents guidelines outputDirectory w p :
  fs_files (gemini_staging kind documents guidelines outputDirectory w).2 !! p
  = fs_files w !! p
  ∨ request_copy kind documents guidelines outputDirectory w p.
Proof.
  rewrite gemini_staging_unfold. unfold bind at 1.
  pose proof (findProjectRoot_same_files outputDirectory w) as Hf. unfold same_files in Hf.
  destruct (GeminiService.findProjectRoot outputDirectory w) as [[root|e|] w0] eqn:Er;
    simpl in Hf; [|left; simpl; by rewrite Hf..].
  destruct (decide (p ∈ staged_copies kind documents guidelines root)) as [Hin|Hnin].
  - right. exists root. by rewrite Er.
  - left.
    pose proof (copyFilesToUploadsFolder_within
                  (kind_documents kind documents guidelines) root w0 p Hnin) as Hw.
    unfold bind.
    destruct (GeminiService.copyFilesToUploadsFolder _ root w0) as [[copied|e|] w1];
      simpl in *; congruence.
Qed.


(** *** The statements up to the write, by their outcome *)

Lemma gemini_upload_and_write_Ok_inv kind documents guidelines outputDirectory projectName
    model root copied w1 path w3 :
  gemini_upload_and_write kind documents guidelines outputDirectory projectName model
    root copied w1 = (Ok path, w3) →
  ∃ text w2,
    GeminiService.uploadAndGenerate copied
      (gemini_prompt kind documents guidelines projectName) root model
      (Some (gemini_systemInstruction kind)) w1 = (Ok text, w2)
    ∧ path = path_join outputDirectory (artifact_name projectName kind (clock w2))
    ∧ w3 = set_fs_writes (fs_writes w2 ++ [(path, text)])
             (set_files (<[path := text]> (fs_files w2)) w2).
Proof.
  rewrite gemini_upload_and_write_run.
  destruct (GeminiService.uploadAndGenerate _ _ _ _ _ w1) as [[text|e|] w2]; [|done|done].
  cbv zeta. destruct (writeFile _ text w2) as [[[]|e|] w3'] eqn:Ew; [|done|done].
  intros [= <- <-]. exists text, w2. split_and!; [done | done |].
  by apply writeFile_Ok_inv in Ew.
Qed.

Lemma gemini_upload_and_write_Throw_inv kind documents guidelines outputDirectory
    projectName model root copied w1 e w3 :
  gemini_upload_and_write kind documents guidelines outputDirectory projectName model
    root copied w1 = (Throw e, w3) →
  GeminiService.uploadAndGenerate copied
    (gemini_prompt kind documents guidelines projectName) root model
    (Some (gemini_systemInstruction kind)) w1 = (Throw e, w3)
  ∨ ∃ text w2 (msg : string),
      GeminiService.uploadAndGenerate copied
        (gemini_prompt kind documents guidelines projectName) root model
        (Some (gemini_systemInstruction kind)) w1 = (Ok text, w2)
      ∧ e = Err msg
      ∧ writeFile (path_join outputDirectory (artifact_name projectName kind (clock w2)))
          text w2 = (Throw (Err msg), w3)
      ∧ (w3 = w2
         ∨ ∃ written,
             fs_torn w2
               (path_join outputDirectory (artifact_name projectName kind (clock w2)))
             = Some (msg, written)
             ∧ w3 = set_files
                      (<[path_join outputDirectory
                           (artifact_name projectName kind (clock w2))
                         := JS.slice0 written text]> (fs_files w2)) w2).
Proof.
  rewrite gemini_upload_and_write_run.
  destruct (GeminiService.uploadAndGenerate _ _ _ _ _ w1) as [[text|e'|] w2];
    [|by left|done].
  cbv zeta. intros E. right. exists text, w2.
  destruct (writeFile_cases
              (path_join outputDirectory (artifact_name projectName kind (clock w2)))
              text w2) as [Ew|[(msg & Ew)|(msg & written & Ht & Ew)]];
    rewrite Ew in E; [done| |]; injection E as <- <-; exists msg.
  - split_and!; [done | done | done | by left].
  - split_and!; [done | done | done | right; by exists written].
Qed.

(** *** The text that was answered *)

Lemma provider_text_remote w w0 i c :
  remote w0 = remote w → provider_text w0 i c = provider_text w i c.
Proof. unfold provider_text. by intros ->. Qed.

Lemma uploadAndGenerate_answered filePaths prompt projectRoot model systemInstruction
    w w1 text w2 w' :
  GeminiService.uploadAndGenerate filePaths prompt projectRoot model systemInstruction w1
  = (Ok text, w2) →
  remote w1 = remote w → net_calls w1 = net_calls w → net_calls w' = net_calls w2 →
  answered w w' text.
Proof.
  intros E Hr Hn Hn'.
  apply uploadAndGenerate_Ok_inv in E as (files & calls & _ & Hcalls & Htext).
  eexists calls, _. rewrite Hn', Hcalls, Hn. split; [done|].
  by rewrite <- Hn, <- (provider_text_remote w w1).
Qed.

(** *** Results and worlds *)

Lemma atomic_success w w' path text :
  fs_writes w' = fs_writes w ++ [(path, text)] → answered w w' text →
  atomic_result w w' {| success := true; outputPath := Some path; error := None |}.
Proof.
  intros Hw Ha. unfold atomic_result. simpl. split_and!.
  - split; [|done]. intros _. by exists path, text.
  - split; [done|]. intros [_ Hsame]. rewrite Hsame in Hw.
    apply (f_equal length) in Hw. rewrite length_app in Hw. simpl in Hw. lia.
  - split; [done | eauto].
Qed.

Lemma atomic_failure w w' r :
  success r = false → outputPath r = None → is_Some (error r) →
  fs_writes w' = fs_writes w → atomic_result w w' r.
Proof.
  intros Hs Hp He Hw. unfold atomic_result. rewrite Hs, Hp. split_and!.
  - split; [done|]. by intros (path & text & ? & _).
  - by split.
  - split; [by intros [? ?]|]. intros Hnone. rewrite Hnone in He. by destruct He.
Qed.

Lemma gemini_success_effects kind documents guidelines outputDirectory projectName model
    w root copied w1 path w3 :
  gemini_staging kind documents guidelines outputDirectory w = (Ok (root, copied), w1) →
  gemini_upload_and_write kind documents guidelines outputDirectory projectName model
    root copied w1 = (Ok path, w3) →
  let w' :=
    (gemini_request kind documents guidelines outputDirectory projectName model w).2 in
  ∃ text,
    fs_writes w' = fs_writes w ++ [(path, text)] ∧ answered w w' text
    ∧ ∀ p, p ∉ copied → p ≠ path → fs_files w' !! p = fs_files w !! p.
Proof.
  intros Es Eg w'.
  destruct (request_cleanup kind documents guidelines outputDirectory projectName model
              w root copied w1 Es)
    as (_ & w'' & added & _ & Hw' & _ & Hn & Hw & _ & Hother & _).
  fold w' in Hw'. subst w''. rewrite Eg in Hn, Hw, Hother. simpl in Hn, Hw, Hother.
  destruct (gemini_staging_Ok_inv _ _ _ _ _ _ _ _ Es) as (_ & _ & Hfiles1 & _).
  pose proof (uploadAndGenerate_same_files copied
                (gemini_prompt kind documents guidelines projectName) root model
                (Some (gemini_systemInstruction kind)) w1) as Hf2.
  destruct (gemini_staging_keeps kind documents guidelines outputDirectory w)
    as (Hn1 & Hw1 & _ & _ & (_ & _ & Hr1 & _)).
  rewrite Es in Hn1, Hw1, Hr1. simpl in Hn1, Hw1, Hr1.
  apply gemini_upload_and_write_Ok_inv in Eg as (text & w2 & Eu & -> & ->).
  pose proof (uploadAndGenerate_same_writes copied
                (gemini_prompt kind documents guidelines projectName) root model
                (Some (gemini_systemInstruction kind)) w1) as Hw2.
  rewrite Eu in Hw2, Hf2. unfold same_writes, same_files in Hw2, Hf2. simpl in *.
  exists text. split_and!; [congruence | by eapply uploadAndGenerate_answered |].
  intros p Hp Hne. rewrite (Hother p Hp), lookup_insert_ne by done.
  rewrite Hf2. by apply Hfiles1.
Qed.

Lemma gemini_failure_effects kind documents guidelines outputDirectory projectName model
    w e :
  gemini_stage_throws kind documents guidelines outputDirectory projectName model w e →
  let w' :=
    (gemini_request kind documents guidelines outputDirectory projectName model w).2 in
  fs_writes w' = fs_writes w
  ∧ ∀ p,
      fs_files w' !! p = fs_files w !! p
      ∨ request_copy kind documents guidelines outputDirectory w p
      ∨ ∃ (msg : string) written text,
          e = Err msg
          ∧ fs_torn w p = Some (msg, written)
          ∧ answered w w' text
          ∧ fs_files w' !! p = Some (JS.slice0 written text).
Proof.
  intros [(w1 & Es)|(root & copied & w1 & w3 & Es & Eg)] w'.
  - assert (w' = w1) as -> by (unfold w'; by rewrite gemini_request_run, Es).
    pose proof (gemini_staging_same_writes kind documents guidelines outputDirectory w)
      as Hw.
    rewrite Es in Hw. split; [done|]. intros p.
    destruct (gemini_staging_files kind documents guidelines outputDirectory w p)
      as [Hsame|Hcopy]; [left | by right; left].
    by rewrite Es in Hsame.
  - destruct (request_cleanup kind documents guidelines outputDirectory projectName model
                w root copied w1 Es)
      as (_ & w'' & added & _ & Hw' & _ & Hn & Hw & _ & Hother & _).
    fold w' in Hw'. subst w''. rewrite Eg in Hn, Hw, Hother. simpl in Hn, Hw, Hother.
    destruct (gemini_staging_keeps kind documents guidelines outputDirectory w)
      as (Hn1 & Hw1 & _ & _ & (_ & Ht1 & Hr1 & _)).
    rewrite Es in Hn1, Hw1, Ht1, Hr1. simpl in Hn1, Hw1, Ht1, Hr1.
    destruct (gemini_staging_Ok_inv _ _ _ _ _ _ _ _ Es) as (Hroot & Hcopied & Hfiles1 & _).
    pose proof (uploadAndGenerate_same_writes copied
                  (gemini_prompt kind documents guidelines projectName) root model
                  (Some (gemini_systemInstruction kind)) w1) as Hw2.
    pose proof (uploadAndGenerate_same_files copied
                  (gemini_prompt kind documents guidelines projectName) root model
                  (Some (gemini_systemInstruction kind)) w1) as Hf2.
    pose proof (uploadAndGenerate_same_surroundings copied
                  (gemini_prompt kind documents guidelines projectName) root model
                  (Some (gemini_systemInstruction kind)) w1) as (_ & Ht2 & _).
    unfold same_writes, same_files in *.
    assert (∀ p, p ∈ copied →
              request_copy kind documents guidelines outputDirectory w p) as Hcopy.
    { intros p Hp. exists root. split; [done|]. by rewrite <- Hcopied. }
    apply gemini_upload_and_write_Throw_inv in Eg
      as [Eu|(text & w2 & msg & Eu & -> & Ew & Hw3)];
      rewrite Eu in Hw2, Hf2, Ht2; simpl in *.
    + split; [congruence|]. intros p.
      destruct (decide (p ∈ copied)) as [Hin|Hnin]; [right; left; by apply Hcopy|].
      left. rewrite (Hother p Hnin), Hf2. by apply Hfiles1.
    + assert (answered w w' text) as Hanswer.
      { eapply uploadAndGenerate_answered; try done.
        destruct Hw3 as [->|(written & _ & ->)]; by rewrite Hn. }
      destruct Hw3 as [->|(written & Htorn & ->)]; simpl in *.
      * split; [congruence|]. intros p.
        destruct (decide (p ∈ copied)) as [Hin|Hnin]; [right; left; by apply Hcopy|].
        left. rewrite (Hother p Hnin), Hf2. by apply Hfiles1.
      * split; [congruence|]. intros p.
        destruct (decide (p ∈ copied)) as [Hin|Hnin]; [right; left; by apply Hcopy|].
        set (path := path_join outputDirectory _) in *.
        destruct (decide (p = path)) as [->|Hne].
        -- right. right. exists msg, written, text.
           rewrite (Hother path Hnin), lookup_insert_eq.
           split_and!; try done. congruence.
        -- left. rewrite (Hother p Hnin), lookup_insert_ne by done.
           rewrite Hf2. by apply Hfiles1.
Qed.

Lemma gemini_failure_no_artifact kind documents guidelines outputDirectory projectName
    model w e r :
  gemini_stage_throws kind documents guidelines outputDirectory projectName model w e →
  error r = Some (message_text e) →
  let w' :=
    (gemini_request kind documents guidelines outputDirectory projectName model w).2 in
  fs_writes w' = fs_writes w
  ∧ no_artifact kind documents guidelines outputDirectory w w' r.
Proof.
  intros Hthrows Herr w'.
  destruct (gemini_failure_effects kind documents guidelines outputDirectory projectName
              model w e Hthrows) as [Hw Hfiles].
  split; [done|]. intros p.
  destruct (Hfiles p) as [?|[?|(msg & written & text & -> & Ht & Ha & Hf)]];
    [by left | by right; left |].
  right. right. by exists msg, written, text.
Qed.

End Effects.

(** ** The results of the public operations *)

Section Results.
Context `{Host}.

(** A request of [GeminiService] ends in one of two ways: a stage throws
    and the [catch] clause decides, or every stage completes and the result
    names the artifact. *)
Lemma gemini_request_cases kind documents guidelines outputDirectory projectName model w :
  (∃ e,
     gemini_stage_throws kind documents guidelines outputDirectory projectName model w e
     ∧ (gemini_request kind documents guidelines outputDirectory projectName model w).1
       = caught e)
  ∨ (∃ root copied w1 path w3,
       gemini_staging kind documents guidelines outputDirectory w
       = (Ok (root, copied), w1)
       ∧ gemini_upload_and_write kind documents guidelines outputDirectory projectName
           model root copied w1 = (Ok path, w3)
       ∧ (gemini_request kind documents guidelines outputDirectory projectName model w).1
         = Ok {| success := true; outputPath := Some path; error := None |}).
Proof.
  pose proof (gemini_request_total kind documents guidelines outputDirectory projectName
                model w) as Ht.
  rewrite gemini_request_run in *. unfold gemini_stage_throws.
  destruct (gemini_staging kind documents guidelines outputDirectory w)
    as [[[root copied]|e|] w1] eqn:Es; [| |done].
  - destruct (gemini_upload_and_write _ _ _ _ _ _ _ _ w1) as [[path|e|] w3] eqn:Eg;
      [| |done].
    + right. by exists root, copied, w1, path, w3.
    + left. exists e. split; [|done]. right. by exists root, copied, w1, w3.
  - left. exists e. split; [|done]. left. by exists w1.
Qed.

Lemma gemini_stage_throws_unique kind documents guidelines outputDirectory projectName
    model w e e' :
  gemini_stage_throws kind documents guidelines outputDirectory projectName model w e →
  gemini_stage_throws kind documents guidelines outputDirectory projectName model w e' →
  e = e'.
Proof.
  intros [(w1 & Es)|(root & copied & w1 & w3 & Es & Eg)]
    [(w1' & Es')|(root' & copied' & w1' & w3' & Es' & Eg')];
    rewrite Es in Es'; try done; [by injection Es'|].
  injection Es' as <- <- <-. rewrite Eg in Eg'. by injection Eg'.
Qed.

Lemma caught_twice e (w : World) :
  match (caught e, w) with
  | (Throw e', w') => (caught e', w')
  | x => x
  end
  = (Ok {| success := false; outputPath := None; error := Some (message_text e) |}, w).
Proof. by destruct e. Qed.

(** The result of a request of [GeminiService] that returns. *)
Lemma gemini_result_effects kind documents guidelines outputDirectory projectName model
    w r w' :
  gemini_request kind documents guidelines outputDirectory projectName model w
  = (Ok r, w') →
  atomic_result w w' r
  ∧ (success r = false → no_artifact kind documents guidelines outputDirectory w w' r).
Proof.
  intros E.
  destruct (gemini_request_cases kind documents guidelines outputDirectory projectName
              model w)
    as [(e & Hthrows & Ho)|(root & copied & w1 & path & w3 & Es & Eg & Ho)];
    rewrite E in Ho; simpl in Ho.
  - destruct e as [msg|]; [|done]. injection Ho as ->.
    destruct (gemini_failure_no_artifact kind documents guidelines outputDirectory projectName
                model w (Err msg)
                {| success := false; outputPath := None; error := Some msg |}
                Hthrows eq_refl) as [Hw Hfiles].
    rewrite E in Hw, Hfiles. simpl in Hw, Hfiles.
    split; [by apply atomic_failure|done].
  - injection Ho as ->.
    destruct (gemini_success_effects kind documents guidelines outputDirectory projectName
                model w root copied w1 path w3 Es Eg) as (text & Hw & Ha & _).
    rewrite E in Hw, Ha. simpl in Hw, Ha.
    split; [by eapply atomic_success | done].
Qed.

(** A request of [ClaudeService] with [google] selected: the result of
    [GeminiService], or the failure that the [catch] clause makes of what
    [GeminiService] throws. *)
Lemma delegated_request_effects kind documents guidelines outputDirectory projectName w :
  config_fault w = None →
  selected_provider (config w) = "google" →
  ∃ r w',
    claude_request kind documents guidelines outputDirectory projectName w = (Ok r, w')
    ∧ w' = (gemini_request kind documents guidelines outputDirectory projectName
              (gemini_model (config w)) w).2
    ∧ atomic_result w w' r
    ∧ (success r = false → no_artifact kind documents guidelines outputDirectory w w' r)
    ∧ (∀ e,
         gemini_stage_throws kind documents guidelines outputDirectory projectName
           (gemini_model (config w)) w e →
         success r = false ∧ outputPath r = None ∧ error r = Some (message_text e)).
Proof.
  intros Hcfg Hg. rewrite claude_request_run, Hcfg.
  rewrite (proj2 (String.eqb_eq _ _) Hg).
  set (model := gemini_model (config w)).
  destruct (gemini_request_cases kind documents guidelines outputDirectory projectName
              model w)
    as [(e & Hthrows & Ho)|(root & copied & w1 & path & w3 & Es & Eg & Ho)];
    destruct (gemini_request kind documents guidelines outputDirectory projectName model w)
      as [o wf] eqn:E; simpl in Ho; subst o.
  - rewrite caught_twice. eexists _, _. split; [reflexivity|].
    destruct (gemini_failure_no_artifact kind documents guidelines outputDirectory projectName
                model w e
                {| success := false; outputPath := None;
                   error := Some (message_text e) |} Hthrows eq_refl) as [Hw Hfiles].
    rewrite E in Hw, Hfiles. simpl in Hw, Hfiles.
    split_and!; [done | by apply atomic_failure | done |].
    intros e' He'.
    by rewrite (gemini_stage_throws_unique _ _ _ _ _ _ _ _ _ He' Hthrows).
  - eexists _, _. split; [reflexivity|].
    destruct (gemini_success_effects kind documents guidelines outputDirectory projectName
                model w root copied w1 path w3 Es Eg) as (text & Hw & Ha & _).
    rewrite E in Hw, Ha. simpl in Hw, Ha.
    split_and!; [done | by eapply atomic_success | done |].
    intros e [(w1' & Es')|(root' & copied' & w1' & w3' & Es' & Eg')];
      rewrite Es in Es'; [done|].
    injection Es' as <- <- <-. by rewrite Eg in Eg'.
Qed.

(** A request of [ClaudeService] with another provider selected. *)
Lemma direct_request_effects kind documents guidelines outputDirectory projectName w :
  config_fault w = None →
  selected_provider (config w) ≠ "google" →
  ∃ r w',
    claude_request kind documents guidelines outputDirectory projectName w = (Ok r, w')
    ∧ atomic_result w w' r
    ∧ (success r = false →
       ∀ p, fs_files w' !! p = fs_files w !! p ∨ torn_write w w' r p).
Proof.
  intros Hcfg Hg. rewrite claude_request_run, Hcfg.
  rewrite (proj2 (String.eqb_neq _ _) Hg).
  assert (∀ (msg : string) w',
            fs_writes w' = fs_writes w → fs_files w' = fs_files w →
            ∃ r w'',
              (caught (Err msg), w') = (Ok r, w'')
              ∧ atomic_result w w'' r
              ∧ (success r = false →
                 ∀ p, fs_files w'' !! p = fs_files w !! p ∨ torn_write w w'' r p))
    as Hfail.
  { intros msg w' Hw Hf. eexists _, _. split; [reflexivity|].
    split; [by apply atomic_failure|]. intros _ p. left. by rewrite Hf. }
  destruct (claude_prompt_cases kind documents guidelines projectName w)
    as [(prompt & ->)|(msg & d & -> & _)]; [|by apply Hfail].
  destruct (sendToAI_cases prompt w Hcfg)
    as [(msg & -> & _)|(p & o & t & Hp & -> & Ho & Hthrow & Hanswer)]; [by apply Hfail|].
  destruct o as [text|e|]; [| |done].
  2:{ destruct (Hthrow e eq_refl) as (msg & ->). by apply Hfail. }
  set (w1 := set_clock t _). cbv zeta.
  set (path := direct_artifact_path kind outputDirectory projectName (clock w1)).
  assert (p ≠ GoogleDirect) as Hp' by (intros ->; by apply Hg).
  assert (∀ w', net_calls w' = net_calls w1 → answered w w' text) as Ha.
  { intros w' Hn. exists [], (direct_call p (direct_model (config w)) prompt).
    rewrite Hn, app_nil_r. split; [done | by apply Hanswer]. }
  destruct (writeFile_cases path text w1) as [->|[(msg & ->)|(msg & written & Ht & ->)]].
  - eexists _, _. split; [reflexivity|]. split; [|done].
    apply (atomic_success _ _ path text); [done | by apply Ha].
  - by apply Hfail.
  - eexists _, _. split; [reflexivity|]. split; [by apply atomic_failure|].
    intros _ q. destruct (decide (q = path)) as [->|Hne].
    + right. exists msg, written, text. simpl. rewrite lookup_insert_eq.
      split_and!; try done. by apply Ha.
    + left. simpl. by rewrite lookup_insert_ne.
Qed.

(** Every request of [ClaudeService] returns; one that fails with a
    provider other than [google] has staged nothing. *)
Lemma claude_request_files kind documents guidelines outputDirectory projectName w :
  ∃ r w',
    claude_request kind documents guidelines outputDirectory projectName w = (Ok r, w')
    ∧ atomic_result w w' r
    ∧ (success r = false → no_artifact kind documents guidelines outputDirectory w w' r)
    ∧ (selected_provider (config w) ≠ "google" → success r = false →
       ∀ p, fs_files w' !! p = fs_files w !! p ∨ torn_write w w' r p).
Proof.
  destruct (config_fault w) as [msg|] eqn:Hcfg.
  { rewrite claude_request_run, Hcfg. eexists _, _. split; [reflexivity|].
    split_and!; [by apply atomic_failure | intros _ p; by left | intros _ _ p; by left]. }
  destruct (decide (selected_provider (config w) = "google")) as [Hg|Hg].
  - destruct (delegated_request_effects kind documents guidelines outputDirectory
                projectName w Hcfg Hg) as (r & w' & E & _ & Ha & Hf & _).
    exists r, w'. split_and!; try done.
  - destruct (direct_request_effects kind documents guidelines outputDirectory
                projectName w Hcfg Hg) as (r & w' & E & Ha & Hf).
    exists r, w'. split_and!; try done.
    intros Hs p. destruct (Hf Hs p) as [Hp|Hp]; [by left | by right; right].
Qed.

Lemma claude_request_effects kind documents guidelines outputDirectory projectName w :
  ∃ r w',
    claude_request kind documents guidelines outputDirectory projectName w = (Ok r, w')
    ∧ atomic_result w w' r
    ∧ (success r = false → no_artifact kind documents guidelines outputDirectory w w' r).
Proof.
  destruct (claude_request_files kind documents guidelines outputDirectory projectName w)
    as (r & w' & E & Ha & Hf & _).
  by exists r, w'.
Qed.

(** C3: the two public operations of [ClaudeService] return a result for
    every input and in every world: no exception leaves them and they do
    not run for ever.  What the [try] block throws, at the read of the
    settings, at the read of a document, at the call of the provider or at
    the write of the artifact, becomes the result with [success] false, no
    [outputPath] and the message of the exception as [error], in the world in
    which it was thrown.  With [google] selected the same holds for what a
    stage of [GeminiService] throws, at the staging, the upload, the polling,
    the generation or the write: the message is that of the exception, or
    the message of the [TypeError] that the [catch] clause of [GeminiService]
    throws for a value it cannot convert. *)
Theorem C3_no_exception_escapes (kind : TaskKind) (documents guidelines : list string)
    (outputDirectory projectName : string) (w : World) :
  ∃ r w',
    claude_request kind documents guidelines outputDirectory projectName w = (Ok r, w')
    ∧ (∀ e w1,
         claude_try_block kind documents guidelines outputDirectory projectName w
         = (Throw e, w1) →
         ∃ msg,
           e = Err msg ∧ w' = w1
           ∧ success r = false ∧ outputPath r = None ∧ error r = Some msg)
    ∧ (∀ msg,
         config_fault w = Some msg →
         w' = w ∧ success r = false ∧ outputPath r = None ∧ error r = Some msg)
    ∧ (config_fault w = None → selected_provider (config w) = "google" →
       ∀ e,
         gemini_stage_throws kind documents guidelines outputDirectory projectName
           (gemini_model (config w)) w e →
         success r = false ∧ outputPath r = None
         ∧ error r = Some (match e with
                           | Err msg => msg
                           | Unprintable => "Cannot convert object to primitive value"
                           end)).
Proof.
  destruct (claude_request_effects kind documents guidelines outputDirectory projectName w)
    as (r & w' & E & _).
  exists r, w'. split; [done|]. split_and!.
  - intros e w1 Et. rewrite claude_request_unfold, Et in E.
    destruct e as [msg|]; [|done]. injection E as <- <-. by exists msg.
  - intros msg Hcfg. rewrite claude_request_run, Hcfg in E. by injection E as <- <-.
  - intros Hcfg Hg e He.
    destruct (delegated_request_effects kind documents guidelines outputDirectory
                projectName w Hcfg Hg) as (r' & w'' & E' & _ & _ & _ & Hstage).
    rewrite E in E'. injection E' as <- <-. by apply Hstage.
Qed.

(** C4, amended: every result of [generateGameSpecification] and of
    [implementGame], of [ClaudeService] and of [GeminiService], is a success
    or a failure and not both.  [success] is true exactly when [outputPath]
    is set and the request completed one write, at that path, of the text
    that the provider answered to its last call, the empty text included.
    [success] is false exactly when [error] is set and the request completed
    no write; then every regular file that is no staged copy of the request
    is as it was, unless the system failed the write of the artifact after
    the file was open: that file holds the first bytes of the answer and the
    error is the one of the write.  A request of [ClaudeService] with a
    provider other than [google] stages nothing, so that then every regular
    file is as it was or is that file.  And [outputPath] is set exactly when
    [error] is not. *)
Theorem C4_result_success_xor_failure (kind : TaskKind) (documents guidelines : list string)
    (outputDirectory projectName : string) (w : World) :
  (∃ r w',
     claude_request kind documents guidelines outputDirectory projectName w = (Ok r, w')
     ∧ atomic_result w w' r
     ∧ (success r = false →
        no_artifact kind documents guidelines outputDirectory w w' r)
     ∧ (selected_provider (config w) ≠ "google" → success r = false →
        ∀ p, fs_files w' !! p = fs_files w !! p ∨ torn_write w w' r p))
  ∧ (∀ model r w',
       gemini_request kind documents guidelines outputDirectory projectName model w
       = (Ok r, w') →
       atomic_result w w' r
       ∧ (success r = false →
          no_artifact kind documents guidelines outputDirectory w w' r)).
Proof.
  split.
  - apply claude_request_files.
  - intros model r w'. apply gemini_result_effects.
Qed.

End Results.

(** ** The credential gate *)

Section Trim.

Lemma white_space_tokens : JS.white_space = map utf8 white_space_code_points.
Proof. vm_compute. reflexivity. Qed.

Lemma strip_prefix_Some pre s rest :
  JS.strip_prefix pre s = Some rest → s = (pre ++ rest)%string.
Proof.
  revert s. induction pre as [|c pre IH]; intros s E; simpl in E.
  - by injection E as ->.
  - destruct s as [|d s]; [done|].
    destruct (Ascii.eqb_spec c d) as [->|]; [|done].
    by rewrite (IH s E).
Qed.

Lemma strip_space_Some s rest :
  JS.strip_space s = Some rest →
  ∃ token, token ∈ JS.white_space ∧ s = (token ++ rest)%string.
Proof.
  unfold JS.strip_space. generalize JS.white_space as tokens.
  induction tokens as [|t tokens IH]; simpl; [done|].
  destruct (JS.strip_prefix t s) as [rest'|] eqn:Et.
  - intros [= ->]. exists t. split; [by left | by apply strip_prefix_Some].
  - intros E. destruct (IH E) as (token & Hin & ->). exists token. split; [by right | done].
Qed.

(** A string that starts with a white-space character loses exactly that
    character: no white-space character is the beginning of another. *)
Lemma strip_space_token token rest :
  token ∈ JS.white_space → JS.strip_space (token ++ rest) = Some rest.
Proof.
  unfold JS.white_space. intros Hin.
  repeat (apply elem_of_cons in Hin as [->|Hin]; [reflexivity|]).
  by apply elem_of_nil in Hin.
Qed.

Lemma white_space_nonempty token : token ∈ JS.white_space → token ≠ EmptyString.
Proof.
  unfold JS.white_space. intros Hin.
  repeat (apply elem_of_cons in Hin as [->|Hin]; [done|]).
  by apply elem_of_nil in Hin.
Qed.

Lemma length_append (a b : string) :
  String.length (a ++ b) = (String.length a + String.length b)%nat.
Proof. induction a as [|c a IH]; simpl; [done | by rewrite IH]. Qed.

(** What [trimStart] removes is white space. *)
Lemma trim_start_upto_split n s :
  ∃ tokens,
    Forall (λ t, t ∈ JS.white_space) tokens
    ∧ s = (String.concat EmptyString tokens ++ JS.trim_start_upto n s)%string.
Proof.
  revert s. induction n as [|n IH]; intros s; simpl.
  - by exists [].
  - destruct (JS.strip_space s) as [rest|] eqn:Es; [|by exists []].
    apply strip_space_Some in Es as (token & Hin & ->).
    destruct (IH rest) as (tokens & Hall & Hrest).
    exists (token :: tokens). split; [by constructor|].
    rewrite concat_empty_cons, append_assoc. by rewrite <- Hrest.
Qed.

(** What [trimStart] leaves does not start with white space. *)
Lemma trim_start_upto_stuck n s :
  (String.length s ≤ n)%nat → JS.strip_space (JS.trim_start_upto n s) = None.
Proof.
  revert s. induction n as [|n IH]; intros s Hn; simpl.
  - destruct s; [done | simpl in Hn; lia].
  - destruct (JS.strip_space s) as [rest|] eqn:Es; [|done].
    apply IH. apply strip_space_Some in Es as (token & Hin & ->).
    apply white_space_nonempty in Hin. rewrite length_append in Hn.
    destruct token; [done|]. simpl in Hn. lia.
Qed.

Lemma trim_start_upto_white n tokens :
  Forall (λ t, t ∈ JS.white_space) tokens → (length tokens ≤ n)%nat →
  JS.trim_start_upto n (String.concat EmptyString tokens) = EmptyString.
Proof.
  revert n. induction tokens as [|t tokens IH]; intros n Hall Hn.
  - by destruct n.
  - destruct n as [|n]; [simpl in Hn; lia|].
    apply Forall_cons in Hall as [Ht Hall].
    rewrite concat_empty_cons. simpl. rewrite strip_space_token by done.
    apply IH; [done | simpl in Hn; lia].
Qed.

Lemma concat_tokens_length tokens :
  Forall (λ t, t ∈ JS.white_space) tokens →
  (length tokens ≤ String.length (String.concat EmptyString tokens))%nat.
Proof.
  induction 1 as [|t tokens Ht _ IH]; [done|].
  rewrite concat_empty_cons, length_append.
  apply white_space_nonempty in Ht. destruct t; [done|]. simpl. lia.
Qed.

(** [trim] gives the empty string exactly for the strings made of white
    space. *)
Lemma trim_empty k : JS.trim k = EmptyString ↔ white_space_only k.
Proof.
  unfold white_space_only. split.
  - intros Hk. unfold JS.trim in Hk.
    assert (JS.trim_start k = EmptyString) as Hstart.
    { pose proof (trim_start_upto_stuck (String.length k) k (Nat.le_refl _)) as Hstuck.
      fold (JS.trim_start k) in Hstuck.
      destruct (JS.trim_start k) as [|c s] eqn:Es; [done|].
      simpl in Hk. unfold JS.trim_start in Hk at 1. simpl in Hk.
      rewrite Hstuck in Hk. simpl in Hk. done. }
    destruct (trim_start_upto_split (String.length k) k) as (tokens & Hall & Hsplit).
    fold (JS.trim_start k) in Hsplit. rewrite Hstart, append_empty_r in Hsplit.
    rewrite white_space_tokens in Hall.
    assert (∃ cps, Forall (λ cp, cp ∈ white_space_code_points) cps
                   ∧ tokens = map utf8 cps) as (cps & Hcps & ->).
    { clear Hsplit. induction Hall as [|t tokens Ht _ (cps & Hcps & ->)]; [by exists []|].
      apply list_elem_of_fmap in Ht as (cp & -> & Hcp).
      exists (cp :: cps). split; [by constructor | done]. }
    by exists cps.
  - intros (cps & Hcps & ->).
    assert (Forall (λ t, t ∈ JS.white_space) (map utf8 cps)) as Hall.
    { rewrite white_space_tokens. apply Forall_fmap.
      eapply Forall_impl; [exact Hcps|]. intros cp Hcp.
      apply (list_elem_of_fmap_2 utf8), Hcp. }
    unfold JS.trim, JS.trim_start.
    rewrite trim_start_upto_white; [done | done | by apply concat_tokens_length].
Qed.

End Trim.

Lemma key_missing_blank apiKey :
  ClaudeService.key_missing apiKey = true ↔ credential_blank apiKey.
Proof.
  unfold credential_blank. destruct apiKey as [[|c k]|]; simpl.
  - split; [|done]. intros _. right. exists EmptyString. split; [done|]. by exists [].
  - rewrite String.eqb_eq, trim_empty. split.
    + intros Hk. right. by exists (String c k).
    + by intros [?|(k' & [= <-] & Hk)].
  - split; [by left | done].
Qed.

Lemma credential_gate_direct p prompt model w :
  ClaudeService.key_missing (credential_of p (config w)) = true →
  ∃ msg : string,
    send_direct p prompt model w = (Throw (Err msg), w)
    ∧ (config_fault w = None → msg = missing_credential p).
Proof.
  intros Hblank.
  destruct p; simpl in *;
    unfold ClaudeService.sendToAnthropic, ClaudeService.sendToGoogle,
      ClaudeService.sendToOpenAI, bind, getConfiguration;
    (destruct (config_fault w) as [fault|]; [by exists fault|]);
    rewrite Hblank; eexists; by split.
Qed.

(** C6: a direct-text provider called with a credential that is absent,
    empty or made of white space (the white space of [trim]: tabs, line
    terminators, spaces, the no-break space, the byte-order mark and the
    other space characters of Unicode) throws and leaves the world as it
    was, so no outbound call is made; the exception is the
    missing-credential error of that provider whenever the settings can be
    read, and through [sendToAI] it reaches the operation as that error
    behind the prefix of the dispatcher. *)
Theorem C6_credential_gate (p : DirectProvider) (prompt model : string) (w : World) :
  credential_blank (credential_of p (config w)) →
  (∃ msg : string,
     send_direct p prompt model w = (Throw (Err msg), w)
     ∧ (config_fault w = None → msg = missing_credential p))
  ∧ net_calls (send_direct p prompt model w).2 = net_calls w
  ∧ (config_fault w = None →
     JS.or_default (aiProvider (config w)) "anthropic" = provider_tag p →
     ClaudeService.sendToAI prompt w
     = (Throw (Err ("Failed to communicate with AI: " ++ missing_credential p)%string), w)).
Proof.
  intros Hblank. apply key_missing_blank in Hblank.
  pose proof (credential_gate_direct p prompt model w Hblank) as Hgate.
  split_and!; [done | by destruct Hgate as (msg & -> & _) |].
  intros Hcfg Htag.
  destruct (credential_gate_direct p prompt
              (JS.or_default (aiModel (config w)) "claude-3-5-sonnet-20241022") w Hblank)
    as (msg & E & Hmsg).
  rewrite (Hmsg Hcfg) in E.
  unfold ClaudeService.sendToAI, try_catch, bind at 1, getConfiguration.
  rewrite Hcfg, Htag.
  destruct p; simpl in E |- *; by rewrite E.
Qed.

(** ** Prompt building *)

Section Prompts.
Context `{Host}.

Lemma in_order_after blocks pre text :
  in_order blocks text → in_order blocks (pre ++ text)%string.
Proof.
  destruct blocks as [|b blocks]; [done|]. intros (p & post & -> & Hrest).
  exists (pre ++ p)%string, post. by rewrite append_assoc.
Qed.

Lemma in_order_join sep blocks later tail :
  in_order later tail →
  in_order (blocks ++ later) (JS.join sep blocks ++ tail)%string.
Proof.
  intros Hlater. induction blocks as [|b blocks IH]; [done|].
  exists EmptyString. destruct blocks as [|b' blocks].
  - exists tail. by split.
  - exists (sep ++ (JS.join sep (b' :: blocks) ++ tail))%string. split.
    + change (JS.join sep (b :: b' :: blocks))
        with (b ++ sep ++ JS.join sep (b' :: blocks))%string.
      by rewrite !append_assoc.
    + by apply in_order_after.
Qed.

(** Reading readable documents renders them one by one in input order and
    leaves the world as it was. *)
Lemma read_documents_run label paths w :
  (∀ d, d ∈ paths → readable w d) →
  ClaudeService.read_documents label paths w
  = (Ok (map (rendered_block w label) paths), w).
Proof.
  induction paths as [|p paths IH]; intros Hread; [done|].
  rewrite read_documents_cons.
  destruct (Hread p ltac:(by left)) as [Hfault [c Hc]].
  unfold readFile, guarded. rewrite Hfault, Hc.
  rewrite IH by (intros d Hd; apply Hread; by right).
  assert (rendered_block w label p
          = ClaudeService.document_block label (path_basename p) c) as Hblock
    by (unfold rendered_block; by rewrite Hc).
  cbn [map]. by rewrite Hblock.
Qed.

(** The prompt of a request whose documents can be read. *)
Lemma claude_prompt_run kind documents guidelines projectName w :
  (∀ d, d ∈ kind_documents kind documents guidelines → readable w d) →
  claude_prompt kind documents guidelines projectName w
  = (Ok (build_prompt kind
           (map (rendered_block w (source_label kind)) documents)
           (map (rendered_block w "Prompting Document") guidelines) projectName), w).
Proof.
  intros Hread. destruct kind; simpl in *; unfold bind.
  - by rewrite !read_documents_run by (intros d Hd; apply Hread, elem_of_app; auto).
  - by rewrite !read_documents_run.
Qed.

Lemma build_prompt_in_order kind documents guidelines projectName w :
  in_order (rendered_blocks kind documents guidelines w)
    (build_prompt kind
       (map (rendered_block w (source_label kind)) documents)
       (map (rendered_block w "Prompting Document") guidelines) projectName).
Proof.
  destruct kind; simpl.
  - unfold ClaudeService.buildSpecificationPrompt.
    apply in_order_after, in_order_join, in_order_after.
    rewrite <- (app_nil_r (map _ guidelines)) at 1. by apply in_order_join.
  - unfold ClaudeService.buildImplementationPrompt.
    apply in_order_after. rewrite <- (app_nil_r (map _ documents)) at 1.
    by apply in_order_join.
Qed.

Lemma same_documents_same_blocks label paths1 paths2 w1 w2 :
  Forall2 (same_document w1 w2) paths1 paths2 →
  map (rendered_block w1 label) paths1 = map (rendered_block w2 label) paths2.
Proof.
  induction 1 as [|p1 p2 paths1 paths2 [Hname Hcontent] _ IH]; [done|].
  simpl. rewrite IH. unfold rendered_block. by rewrite Hname, Hcontent.
Qed.

(** With the settings readable and the credential of the selected provider
    not blank, the dispatcher makes its one call. *)
Lemma sendToAI_sends prompt w p :
  provider_ready w p →
  ∃ o t,
    ClaudeService.sendToAI prompt w
    = (o, set_clock t
            (set_net_calls
               (net_calls w ++ [direct_call p (direct_model (config w)) prompt]) w))
    ∧ o ≠ Diverge.
Proof.
  intros (Hcfg & Hp & Htag & Hkey).
  assert (ClaudeService.key_missing (credential_of p (config w)) = false) as Hk.
  { destruct (ClaudeService.key_missing _) eqn:E; [|done].
    by apply key_missing_blank in E. }
  rewrite (sendToAI_unfold prompt w Hcfg), Htag. unfold try_catch.
  destruct p; [|done|]; simpl in *;
    unfold ClaudeService.sendToAnthropic, ClaudeService.sendToOpenAI, bind,
      getConfiguration, call_remote;
    rewrite Hcfg, Hk; destruct (payload _) as [[msg|]|a]; simpl;
    by eexists _, _.
Qed.

(** A request that gets as far as the call sends the prompt built from its
    documents, and nothing else. *)
Lemma direct_request_prompt kind documents guidelines outputDirectory projectName w p :
  provider_ready w p →
  (∀ d, d ∈ kind_documents kind documents guidelines → readable w d) →
  prompts_sent w
    (claude_request kind documents guidelines outputDirectory projectName w).2
  = [build_prompt kind
       (map (rendered_block w (source_label kind)) documents)
       (map (rendered_block w "Prompting Document") guidelines) projectName].
Proof.
  intros Hready Hread. pose proof Hready as (Hcfg & Hp & Htag & Hkey).
  rewrite claude_request_run, Hcfg.
  assert (selected_provider (config w) ≠ "google") as Hg.
  { rewrite Htag. by destruct p. }
  rewrite (proj2 (String.eqb_neq _ _) Hg), claude_prompt_run by done.
  set (prompt := build_prompt _ _ _ _).
  destruct (sendToAI_sends prompt w p Hready) as (o & t & -> & Ho).
  set (w1 := set_clock t _).
  assert (∀ w', net_calls w' = net_calls w1 → prompts_sent w w' = [prompt]) as Hsent.
  { intros w' Hn. unfold prompts_sent. rewrite Hn. unfold w1. simpl.
    rewrite drop_app_length. by destruct p. }
  destruct o as [text|e|]; [|by apply Hsent|done]. cbv zeta.
  destruct (writeFile_cases
              (direct_artifact_path kind outputDirectory projectName (clock w1)) text w1)
    as [->|[(msg & ->)|(msg & written & _ & ->)]]; by apply Hsent.
Qed.

(** C9: the prompt that a request sends is a function of the file names
    and the contents of its documents in input order, of the project name
    and of the kind of task.  In a world in which the request gets as far as
    the call of its provider and can read its documents, it sends exactly
    one prompt; the rendered blocks of the documents, each the line
    [### <label>: <file name>], an empty line and the content, stand in it
    one after the other in input order, sources before guidelines; and two
    runs on documents with the same file names and contents, in whatever
    worlds, directories, output directories and with whatever providers,
    send the same prompt, byte for byte. *)
Theorem C9_prompt_deterministic_in_input_order (kind : TaskKind)
    (documents1 guidelines1 documents2 guidelines2 : list string)
    (outputDirectory1 outputDirectory2 projectName : string) (w1 w2 : World)
    (p1 p2 : DirectProvider) :
  provider_ready w1 p1 → provider_ready w2 p2 →
  (∀ d, d ∈ kind_documents kind documents1 guidelines1 → readable w1 d) →
  (∀ d, d ∈ kind_documents kind documents2 guidelines2 → readable w2 d) →
  Forall2 (same_document w1 w2) documents1 documents2 →
  Forall2 (same_document w1 w2) guidelines1 guidelines2 →
  ∃ prompt,
    prompts_sent w1
      (claude_request kind documents1 guidelines1 outputDirectory1 projectName w1).2
    = [prompt]
    ∧ prompts_sent w2
        (claude_request kind documents2 guidelines2 outputDirectory2 projectName w2).2
      = [prompt]
    ∧ in_order (rendered_blocks kind documents1 guidelines1 w1) prompt
    ∧ rendered_blocks kind documents1 guidelines1 w1
      = match kind with
        | SpecGeneration =>
            map (λ d, "### Source Document: " ++ path_basename d ++ JS.nl ++ JS.nl
                      ++ default EmptyString (fs_files w1 !! d))%string documents1
            ++ map (λ d, "### Prompting Document: " ++ path_basename d ++ JS.nl ++ JS.nl
                         ++ default EmptyString (fs_files w1 !! d))%string guidelines1
        | ImplementationGeneration =>
            map (λ d, "### Game Specification: " ++ path_basename d ++ JS.nl ++ JS.nl
                      ++ default EmptyString (fs_files w1 !! d))%string documents1
        end.
Proof.
  intros Hready1 Hready2 Hread1 Hread2 Hdocs Hguides.
  eexists. split_and!.
  - by eapply direct_request_prompt.
  - rewrite (direct_request_prompt _ _ _ _ _ _ p2) by done.
    by rewrite (same_documents_same_blocks _ _ _ _ _ Hdocs),
      (same_documents_same_blocks _ _ _ _ _ Hguides).
  - apply build_prompt_in_order.
  - by destruct kind.
Qed.

End Prompts.

(** ** The name of the artifact *)

Section Artifacts.
Context `{Host}.

(** A request of [GeminiService] that gets as far as its [return] names the
    artifact as specified, with the time at which it was written. *)
Lemma gemini_artifact_name kind documents guidelines outputDirectory projectName model
    root copied w r w' :
  gemini_generation kind documents guidelines outputDirectory projectName model
    root copied w = (Ok r, w') →
  ∃ content,
    r = succeeded (path_join outputDirectory (artifact_name projectName kind (clock w')))
    ∧ fs_writes w'
      = fs_writes w
        ++ [(path_join outputDirectory (artifact_name projectName kind (clock w')), content)].
Proof.
  rewrite gemini_generation_split. intros E.
  apply bind_Ok_inv in E as (path & w3 & Eg & E).
  apply bind_Ok_inv in E as ([] & w4 & Ec & E). injection E as <- <-.
  apply gemini_upload_and_write_Ok_inv in Eg as (text & w2 & Eu & -> & ->).
  destruct (cleanup_effect copied
              (set_fs_writes
                 (fs_writes w2
                  ++ [(path_join outputDirectory (artifact_name projectName kind (clock w2)),
                       text)])
                 (set_files
                    (<[path_join outputDirectory
                         (artifact_name projectName kind (clock w2)) := text]>
                       (fs_files w2)) w2)))
    as (w'' & added & Ec' & _ & _ & _ & _ & _ & Hw & Hclock & _).
  rewrite Ec in Ec'. injection Ec' as <-.
  pose proof (uploadAndGenerate_same_writes copied
                (gemini_prompt kind documents guidelines projectName) root model
                (Some (gemini_systemInstruction kind)) w) as Hw2.
  rewrite Eu in Hw2. unfold same_writes in Hw2. simpl in *.
  exists text. rewrite Hclock, Hw, Hw2. done.
Qed.

(** So does the direct-text path of [ClaudeService.generateGameSpecification]:
    wherever the [try] block returns outside of the delegation to
    [GeminiService], the artifact is named as specified. *)
Lemma claude_specification_artifact_name sourceDocuments promptingDocuments
    outputDirectory projectName w r w' :
  JS.or_default (aiProvider (config w)) "anthropic" ≠ "google" →
  ClaudeService.generateGameSpecification_try sourceDocuments promptingDocuments
    outputDirectory projectName w = (Ok r, w') →
  r = succeeded
        (path_join outputDirectory (artifact_name projectName SpecGeneration (clock w'))).
Proof.
  intros Hprovider E. unfold ClaudeService.generateGameSpecification_try in E.
  apply bind_Ok_inv in E as (cfg & w0 & Ecfg & E).
  unfold getConfiguration in Ecfg. destruct (config_fault w); [done|].
  injection Ecfg as <- <-.
  rewrite (proj2 (String.eqb_neq _ _) Hprovider) in E.
  apply bind_Ok_inv in E as (sc & w1 & _ & E).
  apply bind_Ok_inv in E as (pc & w2 & _ & E).
  apply bind_Ok_inv in E as (result & w3 & _ & E).
  apply bind_Ok_inv in E as (ts & w3' & Et & E).
  rewrite timestamp_value in Et. injection Et as <- <-.
  apply bind_Ok_inv in E as ([] & w4 & Ew & E). injection E as <- <-.
  apply writeFile_Ok_inv in Ew as ->. reflexivity.
Qed.

(** [ClaudeService.implementGame] instead names the artifact by a
    replacement in the whole path. *)
Lemma claude_implementation_artifact_name gameSpecifications outputDirectory projectName
    w r w' :
  JS.or_default (aiProvider (config w)) "anthropic" ≠ "google" →
  ClaudeService.implementGame_try gameSpecifications outputDirectory projectName w
  = (Ok r, w') →
  r = succeeded
        (JS.replace_first ".zip" ".txt"
           (path_join outputDirectory
              (projectName ++ "-game-" ++ stamp (clock w') ++ ".zip")%string)).
Proof.
  intros Hprovider E. unfold ClaudeService.implementGame_try in E.
  apply bind_Ok_inv in E as (cfg & w0 & Ecfg & E).
  unfold getConfiguration in Ecfg. destruct (config_fault w); [done|].
  injection Ecfg as <- <-.
  rewrite (proj2 (String.eqb_neq _ _) Hprovider) in E.
  apply bind_Ok_inv in E as (sc & w1 & _ & E).
  apply bind_Ok_inv in E as (result & w3 & _ & E).
  apply bind_Ok_inv in E as (ts & w3' & Et & E).
  rewrite timestamp_value in Et. injection Et as <- <-.
  apply bind_Ok_inv in E as ([] & w4 & Ew & E). injection E as <- <-.
  apply writeFile_Ok_inv in Ew as ->. reflexivity.
Qed.

End Artifacts.

(** ** The poll loop on example worlds *)

#[local] Existing Instance Posix.host.

Lemma C5_poll_loop_times_out_witness :
  let w := Examples.project "google" (Examples.stuck_remote 1) in
  (0 < 1500
   ∧ (GeminiService.poll_budget 120000 1500 ≤ 82)%nat
   ∧ never_settles "files/abc" w)
  ∧ ∃ w' n,
      GeminiService.waitActive 82 "files/abc" 120000 1500 w
      = (Throw (Err "Timed out waiting for ACTIVE: files/abc"), w')
      ∧ net_calls w' = net_calls w ++ replicate (S n) (FilesGet "files/abc")
      ∧ N.of_nat (S n) ≤ 120000 / 1500 + 2
      ∧ 120000 < clock w' - clock w
      ∧ clock w' - clock w
        ≤ 120000 + 1500
          + latency (reply_file (remote w) (length (net_calls w) + n)
                       (FilesGet "files/abc")).
Proof.
  intros w.
  assert (0 < 1500) as H1 by reflexivity.
  assert (GeminiService.poll_budget 120000 1500 ≤ 82)%nat as H2 by (vm_compute; lia).
  assert (never_settles "files/abc" w) as H3 by (intros n; simpl; split; discriminate).
  split; [done|].
  exact (C5_poll_loop_times_out 82 "files/abc" 120000 1500 w H1 H2 H3).
Defined.

(** With status queries of three seconds the loop ends 124.5 seconds after
    it started: the bound of the specification fails. *)
Lemma C5_timeout_bound_counterexample :
  let w := Examples.project "google" (Examples.stuck_remote 3000) in
  never_settles "files/abc" w
  ∧ ¬ timeout_bound_as_specified "files/abc"
        GeminiService.TIMEOUT_MS GeminiService.POLL_INTERVAL_MS w.
Proof.
  intros w. split; [intros n; simpl; split; discriminate|].
  intros (w' & E & Hle).
  assert (clock w' = 1762128124500) as Hc.
  { vm_compute in E. by injection E as <-. }
  rewrite Hc in Hle. vm_compute in Hle. by apply Hle.
Qed.

(** With status queries of one millisecond the loop ends 120.081 seconds
    after it started, within the bound of the specification: the bound
    holds or fails with the duration of the queries. *)
Example poll_loop_fast_queries :
  let w := Examples.project "google" (Examples.stuck_remote 1) in
  let x := GeminiService.waitActive 82 "files/abc" 120000 1500 w in
  x.1 = Throw (Err "Timed out waiting for ACTIVE: files/abc")
  ∧ clock x.2 - clock w = 120081
  ∧ length (net_calls x.2) = 81%nat.
Proof. intros w x. split_and!; vm_compute; reflexivity. Qed.

Lemma C10_rejected_query_is_pending_witness :
  let w := Examples.project "google" Examples.unreachable_remote in
  let w1 := polled "files/abc" w in
  payload (next_status "files/abc" w) = inl (Err "fetch failed")
  ∧ (clock w1 - clock w ≤ 120000 →
       GeminiService.waitActive_loop 2 "files/abc" (clock w) 120000 1500 w
       = GeminiService.waitActive_loop 1 "files/abc" (clock w) 120000 1500
           (set_clock (clock w1 + 1500) w1)).
Proof.
  intros w w1.
  assert (payload (next_status "files/abc" w) = inl (Err "fetch failed")) as Hrej by reflexivity.
  split; [done|].
  exact (proj1 (C10_rejected_query_is_pending 1 "files/abc" (clock w)
                  120000 1500 w "fetch failed" Hrej)).
Defined.

(** ** The public operations on example worlds *)

Lemma C1_local_copies_cleaned_no_remote_delete_witness :
  let w := Examples.project "google" (Examples.prompt_remote (Some "# Spec")) in
  let copied := ["/proj/uploads-to-GenAI/a.md"; "/proj/uploads-to-GenAI/b.md"] in
  (gemini_staging SpecGeneration ["/proj/docs/a.md"] ["/proj/docs/b.md"] "/proj/out" w).1
  = Ok ("/proj", copied)
  ∧ ∃ o w',
      gemini_request SpecGeneration ["/proj/docs/a.md"] ["/proj/docs/b.md"] "/proj/out"
        "demo" "gemini-2.5-flash" w = (o, w')
      ∧ ((∃ r, o = Ok r) ∨ o = Throw (Err "Cannot convert object to primitive value"))
      ∧ (∀ filePath, filePath ∈ copied →
           fs_files w' !! filePath = None
           ∨ ∃ msg,
               fs_fault w (OpUnlink filePath) = Some msg
               ∧ ("Failed to delete file " ++ filePath ++ ": " ++ msg)%string
                 ∈ drop (length (console_errors w)) (console_errors w'))
      ∧ (gemini_request SpecGeneration ["/proj/docs/a.md"] ["/proj/docs/b.md"]
           "/proj/out" "demo" "gemini-2.5-flash" (deletions_allowed w)).1 = o
      ∧ calls_without_delete w w'
      ∧ ∀ name, FilesDelete name ∉ drop (length (net_calls w)) (net_calls w').
Proof.
  intros w copied.
  assert ((gemini_staging SpecGeneration ["/proj/docs/a.md"] ["/proj/docs/b.md"]
             "/proj/out" w).1 = Ok ("/proj", copied)) as Hstaged
    by (vm_compute; reflexivity).
  split; [exact Hstaged|].
  exact (C1_local_copies_cleaned_no_remote_delete SpecGeneration ["/proj/docs/a.md"]
           ["/proj/docs/b.md"] "/proj/out" "demo" "gemini-2.5-flash" w "/proj" copied
           Hstaged).
Defined.

(** A successful request uploads two files, which the remote side names
    [files/abc], and ends without a remote delete for that handle. *)
Lemma C1_remote_handle_not_deleted_counterexample :
  let w := Examples.project "google" (Examples.prompt_remote (Some "# Spec")) in
  let x := GeminiService.generateGameSpecification ["/proj/docs/a.md"] ["/proj/docs/b.md"]
             "/proj/out" "demo" "gemini-2.5-flash" w in
  x.1 = Ok (succeeded "/proj/out/demo-spec-2025-11-03T00-00-00.md")
  ∧ ¬ remote_cleanup_as_specified w x.2.
Proof.
  intros w x. split; [vm_compute; reflexivity|].
  intros Hclaim. specialize (Hclaim "files/abc").
  assert ("files/abc" ∈ handles_created w x.2) as Hin
    by (vm_compute; apply list_elem_of_here).
  apply Hclaim in Hin. vm_compute in Hin.
  repeat (apply elem_of_cons in Hin as [Hin|Hin]; [discriminate Hin|]).
  by apply elem_of_nil in Hin.
Qed.

(** C2 on a failing input: the second document does not exist, so the
    staging throws after the first copy; [copiedFiles] is still empty when
    the [catch] clause runs, no deletion is attempted, and the copy of the
    first document stays in the staging folder. *)
Theorem C2_failed_staging_leaves_copy :
  let w := Examples.project "google" (Examples.prompt_remote (Some "# Spec")) in
  let x := GeminiService.generateGameSpecification
             ["/proj/docs/a.md"; "/proj/docs/missing.md"] []
             "/proj/out" "demo" "gemini-2.5-flash" w in
  x.1 = Ok (failure "ENOENT: no such file or directory, copyfile '/proj/docs/missing.md' -> '/proj/uploads-to-GenAI/missing.md'")
  ∧ fs_files w !! "/proj/uploads-to-GenAI/a.md" = None
  ∧ fs_files x.2 !! "/proj/uploads-to-GenAI/a.md" = Some "# A"
  ∧ ("/proj/uploads-to-GenAI/a.md" ∉ fs_probes x.2)
  ∧ console_errors x.2 = [].
Proof.
  intros w x. split_and!; try (vm_compute; reflexivity).
  vm_compute. intros Hin.
  repeat (apply elem_of_cons in Hin as [Hin|Hin]; [discriminate Hin|]).
  by apply elem_of_nil in Hin.
Qed.

(** An empty answer of the provider is written and reported as a
    success. *)
Lemma C4_empty_artifact_counterexample :
  let w := Examples.project "anthropic" (Examples.prompt_remote None) in
  let x := ClaudeService.generateGameSpecification ["/proj/docs/a.md"] ["/proj/docs/b.md"]
             "/proj/out" "demo" w in
  x.1 = Ok (succeeded "/proj/out/demo-spec-2025-11-03T00-00-00.md")
  ∧ fs_writes x.2 = [("/proj/out/demo-spec-2025-11-03T00-00-00.md", EmptyString)]
  ∧ ¬ atomic_result_as_specified w x.2
        (succeeded "/proj/out/demo-spec-2025-11-03T00-00-00.md").
Proof.
  intros w x.
  assert (fs_writes x.2 = [("/proj/out/demo-spec-2025-11-03T00-00-00.md", EmptyString)])
    as Hw by (vm_compute; reflexivity).
  split_and!; [vm_compute; reflexivity | done |].
  intros [Hsuccess _]. destruct (proj1 Hsuccess eq_refl) as (path & content & _ & Hne & E).
  rewrite Hw in E. simpl in E. injection E as _ Hc. by apply Hne.
Qed.

(** C8 on a failing input: with [.zip] in the project name,
    [ClaudeService.implementGame] replaces that first occurrence instead of
    the extension, and the artifact is not named
    [{projectName}-game-{timestamp}.txt]; [GeminiService.implementGame]
    names it as specified. *)
Theorem C8_zip_in_project_name :
  let direct := Examples.project "anthropic" (Examples.prompt_remote (Some "# Game")) in
  let files := Examples.project "google" (Examples.prompt_remote (Some "# Game")) in
  (ClaudeService.implementGame ["/proj/docs/a.md"] "/proj/out" "demo.zip" direct).1
  = Ok (succeeded "/proj/out/demo.txt-game-2025-11-03T00-00-00.zip")
  ∧ fs_writes
      (ClaudeService.implementGame ["/proj/docs/a.md"] "/proj/out" "demo.zip" direct).2
    = [("/proj/out/demo.txt-game-2025-11-03T00-00-00.zip", "# Game")]
  ∧ (timestamp direct).1 = Ok "2025-11-03T00-00-00"
  ∧ path_join "/proj/out" ("demo.zip" ++ "-game-" ++ "2025-11-03T00-00-00" ++ ".txt")%string
    = "/proj/out/demo.zip-game-2025-11-03T00-00-00.txt"
  ∧ (ClaudeService.implementGame ["/proj/docs/a.md"] "/proj/out" "demo.zip" files).1
    = Ok (succeeded "/proj/out/demo.zip-game-2025-11-03T00-00-00.txt").
Proof. intros direct files. split_and!; vm_compute; reflexivity. Qed.

Lemma C6_credential_gate_witness :
  let w := Scenarios.nbsp_key_project in
  credential_blank (credential_of Anthropic (config w))
  ∧ ClaudeService.sendToAI "prompt" w
    = (Throw (Err ("Failed to communicate with AI: " ++ missing_credential Anthropic)%string),
       w).
Proof.
  intros w.
  assert (credential_blank (credential_of Anthropic (config w))) as Hblank.
  { right. eexists. split; [reflexivity|]. exists [160; 32; 65279]. split; [|reflexivity].
    repeat constructor; vm_compute; set_solver. }
  split; [done|].
  exact (proj2 (proj2 (C6_credential_gate Anthropic "prompt" "claude-3-5-sonnet-20241022"
                         w Hblank)) eq_refl eq_refl).
Defined.

Lemma C9_prompt_deterministic_in_input_order_witness :
  let w1 := Examples.project "anthropic" (Examples.prompt_remote (Some "# Spec")) in
  let w2 := Scenarios.openai_project in
  ∃ prompt,
    prompts_sent w1
      (claude_request SpecGeneration ["/proj/docs/a.md"] ["/proj/docs/b.md"] "/proj/out"
         "demo" w1).2 = [prompt]
    ∧ prompts_sent w2
        (claude_request SpecGeneration ["/other/a.md"] ["/other/sub/b.md"] "/tmp"
           "demo" w2).2 = [prompt]
    ∧ in_order (rendered_blocks SpecGeneration ["/proj/docs/a.md"] ["/proj/docs/b.md"] w1)
        prompt
    ∧ rendered_blocks SpecGeneration ["/proj/docs/a.md"] ["/proj/docs/b.md"] w1
      = map (λ d, "### Source Document: " ++ path_basename d ++ JS.nl ++ JS.nl
                  ++ default EmptyString (fs_files w1 !! d))%string ["/proj/docs/a.md"]
        ++ map (λ d, "### Prompting Document: " ++ path_basename d ++ JS.nl ++ JS.nl
                     ++ default EmptyString (fs_files w1 !! d))%string ["/proj/docs/b.md"].
Proof.
  intros w1 w2.
  assert (provider_ready w1 Anthropic) as Hready1.
  { split_and!; [done | done | done |].
    intros [Hnone|(k & Hk & Hwhite)]; [done|].
    injection Hk as <-. apply trim_empty in Hwhite. by vm_compute in Hwhite. }
  assert (provider_ready w2 OpenAI) as Hready2.
  { split_and!; [done | done | done |].
    intros [Hnone|(k & Hk & Hwhite)]; [done|].
    injection Hk as <-. apply trim_empty in Hwhite. by vm_compute in Hwhite. }
  assert (∀ d, d ∈ ["/proj/docs/a.md"; "/proj/docs/b.md"] → readable w1 d) as Hread1.
  { intros d Hd.
    repeat (apply elem_of_cons in Hd as [->|Hd]); [| |by apply elem_of_nil in Hd];
      (split; [done | by eexists]). }
  assert (∀ d, d ∈ ["/other/a.md"; "/other/sub/b.md"] → readable w2 d) as Hread2.
  { intros d Hd.
    repeat (apply elem_of_cons in Hd as [->|Hd]); [| |by apply elem_of_nil in Hd];
      (split; [done | by eexists]). }
  assert (Forall2 (same_document w1 w2) ["/proj/docs/a.md"] ["/other/a.md"]) as Hdocs
    by (repeat constructor).
  assert (Forall2 (same_document w1 w2) ["/proj/docs/b.md"] ["/other/sub/b.md"])
    as Hguides by (repeat constructor).
  exact (C9_prompt_deterministic_in_input_order SpecGeneration
           ["/proj/docs/a.md"] ["/proj/docs/b.md"] ["/other/a.md"] ["/other/sub/b.md"]
           "/proj/out" "/tmp" "demo" w1 w2 Anthropic OpenAI
           Hready1 Hready2 Hread1 Hread2 Hdocs Hguides).
Defined.

(** ** The scenarios of the specification *)

(** One specification document, the file provider, ACTIVE at the first
    poll: one upload, one status query, one generation call, no remote
    delete, and the staged copy is gone. *)
Example scenario_upload_succeeds :
  let w := Examples.project "google" (Examples.prompt_remote (Some "# Game")) in
  let x := ClaudeService.implementGame ["/proj/docs/a.md"] "/proj/out" "demo" w in
  x.1 = Ok (succeeded "/proj/out/demo-game-2025-11-03T00-00-00.txt")
  ∧ map is_delete (net_calls x.2) = [false; false; false]
  ∧ fs_files x.2 !! "/proj/uploads-to-GenAI/a.md" = None
  ∧ fs_files x.2 !! "/proj/out/demo-game-2025-11-03T00-00-00.txt" = Some "# Game".
Proof. intros w x. split_and!; vm_compute; reflexivity. Qed.

(** The same with a file that stays in processing: the request fails with
    the timeout error after 82 status queries, 121.5 seconds later, and the
    staged copy is gone. *)
Example scenario_upload_never_active :
  let w := Examples.project "google" (Examples.stuck_remote 0) in
  let x := ClaudeService.implementGame ["/proj/docs/a.md"] "/proj/out" "demo" w in
  x.1 = Ok (failure "Timed out waiting for ACTIVE: files/abc")
  ∧ length (net_calls x.2) = 83%nat
  ∧ clock x.2 - clock w = 121500
  ∧ fs_files x.2 !! "/proj/uploads-to-GenAI/a.md" = None
  ∧ fs_writes x.2 = [].
Proof. intros w x. split_and!; vm_compute; reflexivity. Qed.

(** A rejected upload and a rejected generation: the request fails with the
    message of the rejection and the staged copy is gone. *)
Example scenario_upload_rejected :
  let w := Examples.project "google" Examples.closed_remote in
  let x := ClaudeService.implementGame ["/proj/docs/a.md"] "/proj/out" "demo" w in
  x.1 = Ok (failure "fetch failed")
  ∧ net_calls x.2 = [FilesUpload "/proj/uploads-to-GenAI/a.md" "text/markdown" "a.md"]
  ∧ fs_files x.2 !! "/proj/uploads-to-GenAI/a.md" = None
  ∧ fs_writes x.2 = [].
Proof. intros w x. split_and!; vm_compute; reflexivity. Qed.

Example scenario_generation_rejected :
  let w := Examples.project "google" Examples.refusing_remote in
  let x := ClaudeService.implementGame ["/proj/docs/a.md"] "/proj/out" "demo" w in
  x.1 = Ok (failure "503 Service Unavailable")
  ∧ length (net_calls x.2) = 3%nat
  ∧ fs_files x.2 !! "/proj/uploads-to-GenAI/a.md" = None
  ∧ fs_writes x.2 = [].
Proof. intros w x. split_and!; vm_compute; reflexivity. Qed.

(** A staged copy that cannot be deleted: the failure is on the console,
    the request succeeds all the same and the copy stays. *)
Example scenario_deletion_fails :
  let locked op := match op with
                   | OpUnlink "/proj/uploads-to-GenAI/a.md" => Some "EPERM: operation not permitted"
                   | _ => None
                   end in
  let w := set_fs_fault locked
             (Examples.project "google" (Examples.prompt_remote (Some "# Game"))) in
  let x := ClaudeService.implementGame ["/proj/docs/a.md"] "/proj/out" "demo" w in
  x.1 = Ok (succeeded "/proj/out/demo-game-2025-11-03T00-00-00.txt")
  ∧ console_errors x.2
    = ["Failed to delete file /proj/uploads-to-GenAI/a.md: EPERM: operation not permitted"]
  ∧ fs_files x.2 !! "/proj/uploads-to-GenAI/a.md" = Some "# A".
Proof. intros locked w x. split_and!; vm_compute; reflexivity. Qed.

(** Two source documents and one guideline, a direct provider that echoes a
    fixed text: the specification is written under the project name. *)
Example scenario_direct_provider :
  let w := Examples.project "anthropic" (Examples.prompt_remote (Some "# Spec")) in
  let x := ClaudeService.generateGameSpecification
             ["/proj/docs/a.md"; "/proj/docs/b.md"] ["/proj/docs/a.md"]
             "/proj/out" "myproj" w in
  x.1 = Ok (succeeded "/proj/out/myproj-spec-2025-11-03T00-00-00.md")
  ∧ fs_files x.2 !! "/proj/out/myproj-spec-2025-11-03T00-00-00.md" = Some "# Spec"
  ∧ length (net_calls x.2) = 1%nat.
Proof. intros w x. split_and!; vm_compute; reflexivity. Qed.

(** A rejection with a value that has no string conversion.  Called on its
    own, [GeminiService] cleans up and then throws the [TypeError] of its
    [catch] clause: an exception leaves the operation.  Called through
    [ClaudeService], that [TypeError] is caught and becomes the failure. *)
Example scenario_unprintable_rejection :
  let w := Examples.project "google" Scenarios.opaque_remote in
  let x := GeminiService.generateGameSpecification ["/proj/docs/a.md"] []
             "/proj/out" "demo" "gemini-2.5-flash" w in
  let y := ClaudeService.generateGameSpecification ["/proj/docs/a.md"] []
             "/proj/out" "demo" w in
  x.1 = Throw (Err "Cannot convert object to primitive value")
  ∧ fs_files x.2 !! "/proj/uploads-to-GenAI/a.md" = None
  ∧ y.1 = Ok (failure "Cannot convert object to primitive value")
  ∧ y.2 = x.2.
Proof. intros w x y. split_and!; vm_compute; reflexivity. Qed.

(** The same rejection on the direct-text path: the [catch] clause of the
    dispatcher throws the [TypeError], without its prefix, and the operation
    returns it as the failure. *)
Example scenario_unprintable_rejection_direct :
  let w := Examples.project "anthropic" Scenarios.opaque_remote in
  (ClaudeService.generateGameSpecification ["/proj/docs/a.md"] [] "/proj/out" "demo" w).1
  = Ok (failure "Cannot convert object to primitive value").
Proof. intros w. vm_compute. reflexivity. Qed.

(** A disk that fills up during the write of the artifact: the request
    fails with the error of the write and no write is completed, but the
    file is there with the first bytes of the answer. *)
Example scenario_write_torn :
  let w := Scenarios.full_disk
             (Examples.project "anthropic" (Examples.prompt_remote (Some "# Spec"))) in
  let x := ClaudeService.generateGameSpecification ["/proj/docs/a.md"] []
             "/proj/out" "demo" w in
  x.1 = Ok (failure "ENOSPC: no space left on device, write")
  ∧ fs_writes x.2 = []
  ∧ fs_files w !! "/proj/out/demo-spec-2025-11-03T00-00-00.md" = None
  ∧ fs_files x.2 !! "/proj/out/demo-spec-2025-11-03T00-00-00.md" = Some "# S".
Proof. intros w x. split_and!; vm_compute; reflexivity. Qed.

(** A project root that is no directory yet in the model of the file
    system: the recursive [mkdir] of the staging creates the folder with its
    missing ancestors. *)
Example scenario_recursive_mkdir :
  let w := set_dirs {[ "/" ]}
             (Examples.project "google" (Examples.prompt_remote (Some "# Spec"))) in
  let x := mkdirSync "/proj/uploads-to-GenAI" w in
  x.1 = Ok tt
  ∧ fs_dirs x.2 = {[ "/proj/uploads-to-GenAI"; "/proj"; "/" ]}.
Proof.
  intros w x. split; [vm_compute; reflexivity|].
  apply set_eq. intros d. vm_compute. set_solver.
Qed.

(** A key made of a no-break space is a missing key. *)
Example scenario_no_break_space_key :
  ClaudeService.key_missing (Some (utf8 160)) = true
  ∧ ClaudeService.key_missing (Some (utf8 160 ++ "k" ++ utf8 160)%string) = false
  ∧ JS.trim (utf8 65279 ++ " a" ++ utf8 8232 ++ "b " ++ utf8 12288)%string
    = ("a" ++ utf8 8232 ++ "b")%string.
Proof. split_and!; vm_compute; reflexivity. Qed.

(** The anchor search from a directory six levels below the marker gives
    up after five directories. *)
Example anchor_search_gives_up :
  let w := Examples.project "google" (Examples.prompt_remote None) in
  let x := GeminiService.findProjectRoot "/proj/a/b/c/d/e" w in
  x.1 = Throw (GeminiService.anchor_not_found "/proj/a/b/c/d/e")
  ∧ fs_probes x.2
    = ["/proj/a/b/c/d/e/.env"; "/proj/a/b/c/d/.env"; "/proj/a/b/c/.env";
       "/proj/a/b/.env"; "/proj/a/.env"].
Proof. intros w x. split; vm_compute; reflexivity. Qed.

(** From a Windows path it walks up to the marker, and from the root it
    stops at once. *)
Example anchor_search_finds_and_stops :
  let w := Examples.project "google" (Examples.prompt_remote None) in
  (GeminiService.findProjectRoot (String JS.backslash "proj" ++ String JS.backslash "out") w).1
  = Ok "/proj"
  ∧ (GeminiService.findProjectRoot "/" w).1 = Throw (GeminiService.anchor_not_found "/")
  ∧ fs_probes (GeminiService.findProjectRoot "/" w).2 = ["/.env"].
Proof. intros w. split_and!; vm_compute; reflexivity. Qed.

(** * Further properties of the services *)

(** ** Path normalization *)

Lemma replace_backslashes_get s i c :
  String.get i (JS.replace_backslashes s) = Some c →
  c ≠ JS.backslash
  ∧ (String.get i s = Some c ∨ (String.get i s = Some JS.backslash ∧ c = "/"%char)).
Proof.
  revert i. induction s as [|x s IH]; intros i; [done|].
  change (JS.replace_backslashes (String x s))
    with (String (if Ascii.eqb x JS.backslash then "/"%char else x)
            (JS.replace_backslashes s)).
  destruct i as [|i]; simpl; [|apply IH].
  intros [= <-]. destruct (Ascii.eqb_spec x JS.backslash) as [->|Hne].
  - split; [done|]. by right.
  - split; [done|]. by left.
Qed.

(** X1: [normalizePath] keeps the length of the path and every character but
    the backslashes, which become slashes: no backslash is left, and
    normalizing twice is normalizing once. *)
Theorem normalizePath_slashes (inputPath : string) :
  String.length (GeminiService.normalizePath inputPath) = String.length inputPath
  ∧ (∀ i c,
       String.get i (GeminiService.normalizePath inputPath) = Some c →
       c ≠ JS.backslash
       ∧ (String.get i inputPath = Some c
          ∨ (String.get i inputPath = Some JS.backslash ∧ c = "/"%char)))
  ∧ GeminiService.normalizePath (GeminiService.normalizePath inputPath)
    = GeminiService.normalizePath inputPath.
Proof.
  unfold GeminiService.normalizePath. split_and!.
  - induction inputPath as [|x s IH]; [done|].
    change (JS.replace_backslashes (String x s))
      with (String (if Ascii.eqb x JS.backslash then "/"%char else x)
              (JS.replace_backslashes s)).
    simpl. by rewrite IH.
  - apply replace_backslashes_get.
  - induction inputPath as [|x s IH]; [done|].
    change (JS.replace_backslashes (String x s))
      with (String (if Ascii.eqb x JS.backslash then "/"%char else x)
              (JS.replace_backslashes s)).
    change (JS.replace_backslashes (String ?y ?t))
      with (String (if Ascii.eqb y JS.backslash then "/"%char else y)
              (JS.replace_backslashes t)).
    rewrite IH. by destruct (Ascii.eqb_spec x JS.backslash) as [->|Hne];
      [|rewrite (proj2 (Ascii.eqb_neq _ _) Hne)].
Qed.

(** ** The clean-up on its own *)

Section CleanUp.
Context `{Host}.

(** X3: [cleanupUploadsFolder] always returns.  It touches no file outside of
    its list, no directory, makes no outbound call and writes no artifact.
    When the system rejects none of its deletions, every listed path is no
    file any more afterwards, and if none of them is a directory nothing is
    logged: a path listed twice or already gone is no error. *)
Theorem cleanupUploadsFolder_effect (filePaths : list string) (w : World) :
  ∃ w',
    GeminiService.cleanupUploadsFolder filePaths w = (Ok tt, w')
    ∧ (∀ p, p ∉ filePaths → fs_files w' !! p = fs_files w !! p)
    ∧ fs_dirs w' = fs_dirs w
    ∧ net_calls w' = net_calls w
    ∧ fs_writes w' = fs_writes w
    ∧ ((∀ p, p ∈ filePaths → fs_fault w (OpUnlink p) = None) →
       (∀ p, p ∈ filePaths → fs_files w' !! p = None)
       ∧ ((∀ p, p ∈ filePaths → p ∉ fs_dirs w) →
          console_errors w' = console_errors w)).
Proof.
  destruct (cleanup_effect filePaths w)
    as (w' & added & E & _ & _ & Hother & Hd & Hn & Hw & _ & Hl & _ & Hok).
  exists w'. split_and!; try done.
  intros Hfault. destruct (Hok Hfault) as [Hgone Hlog]. split; [done|].
  intros Hdirs. by rewrite Hl, (Hlog Hdirs), app_nil_r.
Qed.

End CleanUp.

(** ** The poll loop: the first report that settles *)

Section Settling.
Context `{Host}.

(** The loop started at [start], entered in [w] with [k] pending reports
    ahead and then a report that settles: what one turn after the other
    does. *)
Lemma waitActive_loop_settles k polls fileName start timeoutMs intervalMs L f w :
  (k < polls)%nat → start ≤ clock w →
  (∀ i, (i < k)%nat →
     let r := reply_file (remote w) (length (net_calls w) + i) (FilesGet fileName) in
     GeminiService.file_state (polled_file r) ≠ Some "ACTIVE"
     ∧ GeminiService.file_state (polled_file r) ≠ Some "FAILED"
     ∧ latency r ≤ L) →
  payload (reply_file (remote w) (length (net_calls w) + k) (FilesGet fileName)) = inr f →
  (GeminiService.file_state (Some f) = Some "ACTIVE"
   ∨ GeminiService.file_state (Some f) = Some "FAILED") →
  clock w - start + N.of_nat k * (L + intervalMs) ≤ timeoutMs + intervalMs →
  ∃ w',
    GeminiService.waitActive_loop polls fileName start timeoutMs intervalMs w
    = (if bool_decide (GeminiService.file_state (Some f) = Some "ACTIVE")
       then Ok (Some f)
       else Throw (GeminiService.failed_processing fileName), w')
    ∧ net_calls w' = net_calls w ++ replicate (S k) (FilesGet fileName)
    ∧ clock w + N.of_nat k * intervalMs ≤ clock w'.
Proof.
  revert polls w.
  induction k as [|k IH]; intros polls w Hpolls Hstart Hpending Hf Hsettled Htime.
  - destruct polls as [|polls]; [lia|]. rewrite waitActive_loop_step. cbv zeta.
    rewrite Nat.add_0_r in Hf. unfold polled_file, next_status. rewrite Hf.
    case_bool_decide as Ha.
    + eexists. split; [done|]. unfold polled. simpl. split; [done | lia].
    + destruct Hsettled as [?|Hfailed]; [done|].
      rewrite bool_decide_eq_true_2 by done.
      eexists. split; [done|]. unfold polled. simpl. split; [done | lia].
  - destruct polls as [|polls]; [lia|]. rewrite waitActive_loop_step. cbv zeta.
    destruct (Hpending 0%nat ltac:(lia)) as (Hna & Hnf & Hl).
    rewrite Nat.add_0_r in Hna, Hnf, Hl. fold (next_status fileName w) in Hna, Hnf, Hl.
    rewrite (bool_decide_eq_false_2 _ Hna), (bool_decide_eq_false_2 _ Hnf).
    assert (clock (polled fileName w) - start ≤ timeoutMs) as Hin
      by (unfold polled; simpl; lia).
    rewrite (proj2 (N.ltb_ge _ _) Hin).
    set (w2 := set_clock _ _).
    destruct (IH polls w2) as (w' & E & Hn & Hc); try done; try lia.
    + unfold w2, polled. simpl. lia.
    + intros i Hi. unfold w2, polled. simpl. rewrite length_app. simpl.
      replace (length (net_calls w) + 1 + i)%nat with (length (net_calls w) + S i)%nat
        by lia.
      apply Hpending. lia.
    + unfold w2, polled. simpl. rewrite length_app. simpl.
      by replace (length (net_calls w) + 1 + k)%nat with (length (net_calls w) + S k)%nat
        by lia.
    + unfold w2, polled. simpl. lia.
    + exists w'. rewrite E. split; [done|].
      rewrite Hn. unfold w2, polled in *. simpl in *. split; [by rewrite <- app_assoc | lia].
Qed.

(** X4: [waitActive] returns the file at the first status query that reports
    ACTIVE, under [state] or under [status], after the earlier ones were
    pending: it has then made exactly [k + 1] queries and slept [k]
    intervals.  The condition on the time concerns the pending queries only:
    an ACTIVE report is returned however long its query took, even past the
    timeout. *)
Theorem waitActive_returns_first_active (k polls : nat) (fileName : string)
    (timeoutMs intervalMs L : N) (f : FileObj) (w : World) :
  (k < polls)%nat →
  (∀ i, (i < k)%nat →
     let r := reply_file (remote w) (length (net_calls w) + i) (FilesGet fileName) in
     GeminiService.file_state (polled_file r) ≠ Some "ACTIVE"
     ∧ GeminiService.file_state (polled_file r) ≠ Some "FAILED"
     ∧ latency r ≤ L) →
  payload (reply_file (remote w) (length (net_calls w) + k) (FilesGet fileName)) = inr f →
  GeminiService.file_state (Some f) = Some "ACTIVE" →
  N.of_nat k * (L + intervalMs) ≤ timeoutMs + intervalMs →
  ∃ w',
    GeminiService.waitActive polls fileName timeoutMs intervalMs w = (Ok (Some f), w')
    ∧ net_calls w' = net_calls w ++ replicate (S k) (FilesGet fileName)
    ∧ clock w + N.of_nat k * intervalMs ≤ clock w'.
Proof.
  intros Hpolls Hpending Hf Hactive Htime.
  unfold GeminiService.waitActive, bind at 1, Date_now, gets.
  destruct (waitActive_loop_settles k polls fileName (clock w) timeoutMs intervalMs L f w)
    as (w' & E & Hlog); try done; try lia; [by left|].
  rewrite bool_decide_eq_true_2 in E by done.
  by exists w'.
Qed.

(** X5: [waitActive] throws at the first status query that reports FAILED, without
    waiting for the timeout and without another query. *)
Theorem waitActive_throws_first_failed (k polls : nat) (fileName : string)
    (timeoutMs intervalMs L : N) (f : FileObj) (w : World) :
  (k < polls)%nat →
  (∀ i, (i < k)%nat →
     let r := reply_file (remote w) (length (net_calls w) + i) (FilesGet fileName) in
     GeminiService.file_state (polled_file r) ≠ Some "ACTIVE"
     ∧ GeminiService.file_state (polled_file r) ≠ Some "FAILED"
     ∧ latency r ≤ L) →
  payload (reply_file (remote w) (length (net_calls w) + k) (FilesGet fileName)) = inr f →
  GeminiService.file_state (Some f) = Some "FAILED" →
  N.of_nat k * (L + intervalMs) ≤ timeoutMs + intervalMs →
  ∃ w',
    GeminiService.waitActive polls fileName timeoutMs intervalMs w
    = (Throw (GeminiService.failed_processing fileName), w')
    ∧ net_calls w' = net_calls w ++ replicate (S k) (FilesGet fileName)
    ∧ clock w + N.of_nat k * intervalMs ≤ clock w'.
Proof.
  intros Hpolls Hpending Hf Hfailed Htime.
  unfold GeminiService.waitActive, bind at 1, Date_now, gets.
  destruct (waitActive_loop_settles k polls fileName (clock w) timeoutMs intervalMs L f w)
    as (w' & E & Hlog); try done; try lia; [by right|].
  rewrite bool_decide_eq_false_2 in E by congruence.
  by exists w'.
Qed.

End Settling.

(** ** The credential of the file provider *)

Section FileCredential.
Context `{Host}.

(** [dotenv] never replaces a variable that the environment defines. *)
Lemma dotenv_load_keeps env kvs k v :
  env !! k = Some v → dotenv_load env kvs !! k = Some v.
Proof.
  unfold dotenv_load. revert env. induction kvs as [|[k' v'] kvs IH]; intros env Hk; [done|].
  simpl. apply IH. destruct (env !! k') eqn:Hk'; [done|].
  rewrite lookup_insert_ne; [done|]. intros ->. congruence.
Qed.

(** X6: A non-empty [GEMINI_API_KEY] that the environment of the process defines
    already is the key [loadEnvApiKey] returns, whatever the [.env] file of
    the project root holds and whatever [GOOGLE_API_KEY] is; yet without a
    [.env] at the project root the function throws before it looks at the
    environment.  It touches no file and makes no outbound call. *)
Theorem loadEnvApiKey_environment_first (projectRoot key : string) (w : World) :
  process_env w !! "GEMINI_API_KEY" = Some key → key ≠ EmptyString →
  ∃ w',
    GeminiService.loadEnvApiKey projectRoot w
    = (if exists_in w (marker projectRoot) then Ok key
       else Throw ("No .env file found at " ++ marker projectRoot
                   ++ ". Please create a .env file with GEMINI_API_KEY=your_key")%string,
       w')
    ∧ fs_files w' = fs_files w
    ∧ net_calls w' = net_calls w
    ∧ process_env w' !! "GEMINI_API_KEY" = Some key.
Proof.
  intros Hkey Hne.
  unfold GeminiService.loadEnvApiKey, marker, bind at 1, existsSync.
  destruct (exists_in w (path_join projectRoot ".env")); [|by eexists].
  unfold bind, dotenv_config, modify, gets. cbn beta iota.
  set (w1 := set_fs_probes _ w).
  set (w2 := match fs_fault w1 _ with Some _ => w1 | None => _ end).
  assert (process_env w2 !! "GEMINI_API_KEY" = Some key
          ∧ fs_files w2 = fs_files w ∧ net_calls w2 = net_calls w) as (Hk2 & Hf2 & Hn2).
  { unfold w2. destruct (fs_fault w1 _); [done|].
    destruct (fs_files w1 !! _); [|done]. simpl.
    split; [|done]. by apply dotenv_load_keeps. }
  exists w2. rewrite Hk2. destruct key as [|c key]; [done|]. by simpl.
Qed.

End FileCredential.

(** ** The choice of the provider *)

Section Delegation.
Context `{Host}.

Lemma includes_default_model : JS.includes "gemini" "gemini-2.5-flash" = true.
Proof. reflexivity. Qed.

(** X7: With the provider [google] selected, each public operation of
    [ClaudeService] runs the operation of [GeminiService] on the same
    arguments, with the configured model when its name contains [gemini]
    and with [gemini-2.5-flash] otherwise, and ends in the world in which
    that operation ends.  It returns the result of [GeminiService] when
    that returns one; when [GeminiService] throws, which it does with the
    [TypeError] of its [catch] clause only, it returns the failure with the
    message of that error.  The model handed over always names a Gemini
    model, and no document is read by [ClaudeService] itself. *)
Theorem google_requests_are_delegated (kind : TaskKind) (documents guidelines : list string)
    (outputDirectory projectName : string) (w : World) :
  config_fault w = None →
  selected_provider (config w) = "google" →
  let x := gemini_request kind documents guidelines outputDirectory projectName
             (gemini_model (config w)) w in
  ((∃ r, x.1 = Ok r
         ∧ claude_request kind documents guidelines outputDirectory projectName w = x)
   ∨ (x.1 = Throw (Err "Cannot convert object to primitive value")
      ∧ claude_request kind documents guidelines outputDirectory projectName w
        = (Ok {| success := false; outputPath := None;
                 error := Some "Cannot convert object to primitive value" |}, x.2)))
  ∧ JS.includes "gemini" (gemini_model (config w)) = true
  ∧ (aiModel (config w) = None ∨ aiModel (config w) = Some EmptyString
     ∨ (∃ model, aiModel (config w) = Some model ∧ JS.includes "gemini" model = false) →
     gemini_model (config w) = "gemini-2.5-flash").
Proof.
  intros Hcfg Hprovider x. split_and!.
  - rewrite claude_request_run, Hcfg, (proj2 (String.eqb_eq _ _) Hprovider). fold x.
    destruct (gemini_request_outcome kind documents guidelines outputDirectory
                projectName (gemini_model (config w)) w) as [(r & Hr)|He];
      fold x in Hr || fold x in He; destruct x as [o w']; simpl in *; subst o.
    + left. by exists r.
    + by right.
  - unfold gemini_model. cbv zeta.
    destruct (JS.includes "gemini" (JS.or_default _ _)) eqn:E; [done|].
    apply includes_default_model.
  - unfold gemini_model. intros [->|[->|(model & -> & Hno)]]; try done.
    destruct model as [|c model]; [done|]. simpl. by rewrite Hno.
Qed.

End Delegation.

(** ** The calls of a request that succeeds *)

Section SuccessProtocol.
Context `{Host}.

(** The calls of the upload and generation of a request whose staging
    completed, counted from the world in which the request started. *)
Lemma request_upload_trace kind documents guidelines outputDirectory projectName model
    w root copied w1 text w2 :
  gemini_staging kind documents guidelines outputDirectory w = (Ok (root, copied), w1) →
  GeminiService.uploadAndGenerate copied
    (gemini_prompt kind documents guidelines projectName) root model
    (Some (gemini_systemInstruction kind)) w1 = (Ok text, w2) →
  ∃ files calls,
    upload_trace (remote w) (length (net_calls w))
      (staged_copies kind documents guidelines root) calls files
    ∧ net_calls w2
      = net_calls w ++ calls
        ++ [generate_call kind documents guidelines projectName model files].
Proof.
  intros Es Eu.
  destruct (gemini_staging_keeps kind documents guidelines outputDirectory w)
    as (Hn1 & _ & _ & _ & (_ & _ & Hr1 & _)).
  rewrite Es in Hn1, Hr1. simpl in Hn1, Hr1.
  destruct (gemini_staging_Ok_inv _ _ _ _ _ _ _ _ Es) as (_ & -> & _).
  apply uploadAndGenerate_Ok_inv in Eu as (files & calls & Htrace & Hn2 & _).
  exists files, calls. rewrite Hr1, Hn1 in Htrace. split; [done|].
  rewrite Hn2, Hn1. by destruct kind.
Qed.

(** X8: A public operation of [GeminiService] that reports success has found
    the project root and made these calls and no other: for each staged
    copy, in the order sources then guidelines, one upload, then status
    queries for the name that the answer to that upload carries, which
    report neither ACTIVE nor FAILED until the last one reports ACTIVE, the
    next upload starting only then; then one generation request, the last
    call, with the model, the prompt and the system instruction of the task
    and one part per uploaded file, made of the URI and the MIME type that
    the ACTIVE report of the file carries.  What is uploaded are the copies
    in the staging folder, not the documents themselves. *)
Theorem gemini_success_protocol (kind : TaskKind) (documents guidelines : list string)
    (outputDirectory projectName model : string) (r : GenerationResult) (w w' : World) :
  gemini_request kind documents guidelines outputDirectory projectName model w
  = (Ok r, w') →
  success r = true →
  ∃ projectRoot files calls,
    (GeminiService.findProjectRoot outputDirectory w).1 = Ok projectRoot
    ∧ upload_trace (remote w) (length (net_calls w))
        (map (staged_path projectRoot) (kind_documents kind documents guidelines))
        calls files
    ∧ length files = length (kind_documents kind documents guidelines)
    ∧ net_calls w'
      = net_calls w ++ calls
        ++ [ModelsGenerateContent model
              (gemini_prompt kind documents guidelines projectName)
              (map (λ f, {| fileUri := f_uri f;
                            mimeType := JS.or_default (f_mimeType f)
                                          "application/octet-stream" |}) files)
              (Some (gemini_systemInstruction kind))].
Proof.
  intros E Hsuccess.
  destruct (gemini_request_cases kind documents guidelines outputDirectory projectName
              model w)
    as [(e & _ & Ho)|(root & copied & w1 & path & w3 & Es & Eg & _)].
  { rewrite E in Ho. simpl in Ho. destruct e; [|done]. injection Ho as ->. done. }
  destruct (request_cleanup kind documents guidelines outputDirectory projectName model
              w root copied w1 Es) as (_ & w'' & added & _ & Hw' & _ & Hn & _).
  rewrite E in Hw'. simpl in Hw'. subst w''. rewrite Eg in Hn. simpl in Hn.
  destruct (gemini_staging_Ok_inv _ _ _ _ _ _ _ _ Es) as (Hroot & _).
  apply gemini_upload_and_write_Ok_inv in Eg as (text & w2 & Eu & _ & ->).
  destruct (request_upload_trace _ _ _ _ _ _ _ _ _ _ _ _ Es Eu)
    as (files & calls & Htrace & Hn2).
  exists root, files, calls. split_and!; try done.
  - apply upload_trace_lengths in Htrace. unfold staged_copies in Htrace.
    by rewrite length_map in Htrace.
  - rewrite Hn. simpl. exact Hn2.
Qed.

End SuccessProtocol.

(** ** The footprint of a request on the file system *)

Section Footprint.
Context `{Host}.


End Footprint.

(** ** No key, no upload *)

Section KeyGate.
Context `{Host}.

(** X10: When the staging has completed and [loadEnvApiKey] throws, for a
    [.env] that holds no key, the operation reports that error as its
    failure without a single outbound call and without writing an artifact,
    and the staged copies are cleaned up: no document leaves the machine
    before the credential is found. *)
Theorem gemini_request_key_gate (kind : TaskKind) (documents guidelines : list string)
    (outputDirectory projectName model : string) (w : World)
    (projectRoot : string) (copied : list string) (w1 : World) (msg : string) :
  gemini_staging kind documents guidelines outputDirectory w
  = (Ok (projectRoot, copied), w1) →
  (GeminiService.loadEnvApiKey projectRoot w1).1 = Throw msg →
  ∃ w',
    gemini_request kind documents guidelines outputDirectory projectName model w
    = (Ok {| success := false; outputPath := None; error := Some msg |}, w')
    ∧ net_calls w' = net_calls w
    ∧ fs_writes w' = fs_writes w
    ∧ ∀ filePath, filePath ∈ copied → cleaned_up w w' filePath.
Proof.
  intros Es Ek.
  destruct (GeminiService.loadEnvApiKey projectRoot w1) as [o w2] eqn:Ek'.
  simpl in Ek. subst o.
  assert (gemini_upload_and_write kind documents guidelines outputDirectory projectName
            model projectRoot copied w1 = (Throw msg, w2)) as Eg.
  { unfold gemini_upload_and_write, GeminiService.uploadAndGenerate, bind.
    by rewrite Ek'. }
  destruct (request_cleanup kind documents guidelines outputDirectory projectName model
              w projectRoot copied w1 Es)
    as (_ & w' & added & _ & Hw' & _ & Hn & Hw & _ & _ & Hclean & _).
  rewrite Eg in Hn, Hw. simpl in Hn, Hw.
  exists w'. split.
  { rewrite <- Hw'. rewrite gemini_request_run, Es, Eg. done. }
  pose proof (gemini_staging_keeps kind documents guidelines outputDirectory w)
    as (Hn1 & Hw1 & _).
  rewrite Es in Hn1, Hw1. simpl in Hn1, Hw1.
  pose proof (loadEnvApiKey_no_calls projectRoot w1) as Hn2.
  pose proof (loadEnvApiKey_same_writes projectRoot w1) as Hw2.
  rewrite Ek' in Hn2, Hw2. unfold no_calls, same_writes in *. simpl in *.
  split_and!; [congruence | congruence | done].
Qed.

End KeyGate.

(** ** The generation request comes last *)

Section GenerateLast.
Context `{Host}.

(** X11: [uploadAndGenerate] ends, and it never asks for the generation before
    every file is uploaded and reported ACTIVE.  Either it throws having
    made only uploads and status queries; or it has uploaded and polled every
    file in turn, each upload followed by the status queries for the name it
    was given up to the first ACTIVE report, and the generation request,
    with one part per file, is the last call, whether it is answered or
    rejected. *)
Theorem uploadAndGenerate_generates_last (filePaths : list string)
    (prompt projectRoot model : string) (systemInstruction : option string) (w : World) :
  ∃ o w' l,
    GeminiService.uploadAndGenerate filePaths prompt projectRoot model systemInstruction w
    = (o, w')
    ∧ o ≠ Diverge
    ∧ net_calls w' = net_calls w ++ l
    ∧ ((Forall is_upload_or_poll l ∧ ∃ e, o = Throw e)
       ∨ (∃ files calls,
            upload_trace (remote w) (length (net_calls w)) filePaths calls files
            ∧ l = calls
                  ++ [ModelsGenerateContent model prompt (map active_part files)
                        (if JS.truthy systemInstruction then systemInstruction
                         else None)])).
Proof.
  unfold GeminiService.uploadAndGenerate.
  pose proof (loadEnvApiKey_no_calls projectRoot w) as Hk.
  assert (remote (GeminiService.loadEnvApiKey projectRoot w).2 = remote w) as Hr.
  { assert (preserves same_surroundings (GeminiService.loadEnvApiKey projectRoot)) as Hp
      by (stage loadEnvApiKey_frame).
    by destruct (Hp w) as (_ & _ & ? & _). }
  pose proof (loadEnvApiKey_total projectRoot w) as Hkt.
  destruct (GeminiService.loadEnvApiKey projectRoot w) as [[apiKey|e|] w1] eqn:Ek;
    simpl in Hk, Hkt, Hr; [| |done]; unfold no_calls in Hk.
  2:{ exists (Throw e), w1, []. unfold bind at 1. rewrite Ek.
      split_and!; [done | done | by rewrite app_nil_r | left; split; [done | by eexists]]. }
  pose proof (upload_loop_calls filePaths w1) as (l & Hl & Hcalls).
  pose proof (total_map_M _ filePaths upload_one_total w1) as Hut.
  destruct (map_M GeminiService.upload_one filePaths w1) as [[uploaded|e|] w2] eqn:Eu;
    simpl in Hl, Hut; [| |done].
  2:{ exists (Throw e), w2, l. unfold bind at 1. rewrite Ek. unfold bind at 1. rewrite Eu.
      split_and!; [done | done | by rewrite Hl, Hk | left; split; [done | by eexists]]. }
  pose proof Eu as Eu'.
  apply upload_loop_Ok_inv in Eu' as (files & calls & -> & Htrace & Hn2 & _).
  rewrite Hr, Hk in Htrace.
  unfold bind at 1. rewrite Ek. unfold bind at 1. rewrite Eu.
  unfold bind at 1. rewrite file_parts_of_files.
  unfold bind, call_remote.
  set (call := ModelsGenerateContent model prompt (map active_part files) _).
  destruct (payload _) as [e|resp]; eexists _, _, (calls ++ [call]);
    (split_and!;
       [reflexivity | done | simpl; by rewrite Hn2, Hk, <- app_assoc
       | right; by exists files, calls]).
Qed.

End GenerateLast.

(** ** A generated text that cannot be written *)

Section LostGeneration.
Context `{Host}.


End LostGeneration.

(** ** Which provider a request reaches *)

Section DirectRequests.
Context `{Host}.

Lemma read_documents_readable kind paths w blocks w' :
  ClaudeService.read_documents kind paths w = (Ok blocks, w') →
  ∀ p, p ∈ paths → readable w p.
Proof.
  revert blocks. induction paths as [|q paths IH]; intros blocks E p Hp.
  - by apply elem_of_nil in Hp.
  - rewrite read_documents_cons in E.
    destruct (readFile_cases q w) as [(c & Ec)|(msg & Ec)]; rewrite Ec in E; [|done].
    destruct (ClaudeService.read_documents kind paths w) as [[bs| |] w2] eqn:Er; try done.
    injection E as <- <-.
    apply elem_of_cons in Hp as [->|Hp]; [|by apply (IH bs eq_refl)].
    unfold readFile, guarded in Ec. unfold readable.
    repeat case_match; simplify_eq. by split.
Qed.

Lemma claude_prompt_readable kind documents guidelines projectName w prompt w' :
  claude_prompt kind documents guidelines projectName w = (Ok prompt, w') →
  ∀ p, p ∈ kind_documents kind documents guidelines → readable w p.
Proof.
  destruct kind; simpl; intros E p Hp.
  - apply bind_Ok_inv in E as (b1 & w1 & E1 & E).
    apply bind_Ok_inv in E as (b2 & w2 & E2 & E).
    destruct (read_documents_cases "Source Document" documents w)
      as [(b & Eb)|(msg & q & Eb & _)]; rewrite Eb in E1; [|done]. injection E1 as <- <-.
    apply elem_of_app in Hp as [Hp|Hp];
      [exact (read_documents_readable _ _ _ _ _ Eb p Hp)
      | exact (read_documents_readable _ _ _ _ _ E2 p Hp)].
  - apply bind_Ok_inv in E as (b1 & w1 & E1 & E).
    exact (read_documents_readable _ _ _ _ _ E1 p Hp).
Qed.

(** A request on the direct-text path, by the outcome of the reads, of the
    dispatcher and of the write. *)
Lemma direct_request_run kind documents guidelines outputDirectory projectName w :
  config_fault w = None →
  selected_provider (config w) ≠ "google" →
  claude_request kind documents guidelines outputDirectory projectName w
  = match claude_prompt kind documents guidelines projectName w with
    | (Ok prompt, w0) =>
        match ClaudeService.sendToAI prompt w0 with
        | (Ok text, w1) =>
            let path :=
              direct_artifact_path kind outputDirectory projectName (clock w1) in
            match writeFile path text w1 with
            | (Ok _, w2) =>
                (Ok {| success := true; outputPath := Some path; error := None |}, w2)
            | (Throw e, w2) => (caught e, w2)
            | (Diverge, w2) => (Diverge, w2)
            end
        | (Throw e, w1) => (caught e, w1)
        | (Diverge, w1) => (Diverge, w1)
        end
    | (Throw e, w0) => (caught e, w0)
    | (Diverge, w0) => (Diverge, w0)
    end.
Proof.
  intros Hcfg Hg. by rewrite claude_request_run, Hcfg, (proj2 (String.eqb_neq _ _) Hg).
Qed.

(** X12: With a provider other than [google], a request whose documents cannot
    all be read reports the read error of one of them as its failure and
    leaves the world as it was: nothing is sent to the provider and nothing
    is written, whatever the provider and its credential are. *)
Theorem unreadable_document_fails_request (kind : TaskKind)
    (documents guidelines : list string) (outputDirectory projectName : string)
    (w : World) (d : string) :
  config_fault w = None →
  selected_provider (config w) ≠ "google" →
  d ∈ kind_documents kind documents guidelines →
  ¬ readable w d →
  ∃ (msg : string) p,
    claude_request kind documents guidelines outputDirectory projectName w
    = (Ok {| success := false; outputPath := None; error := Some msg |}, w)
    ∧ p ∈ kind_documents kind documents guidelines
    ∧ (readFile p w).1 = Throw (Err msg).
Proof.
  intros Hcfg Hprovider Hd Hno. rewrite direct_request_run by done.
  destruct (claude_prompt_cases kind documents guidelines projectName w)
    as [(prompt & Ep)|(msg & p & Ep & Hp & Hmsg)].
  - destruct Hno. by eapply claude_prompt_readable.
  - rewrite Ep. by exists msg, p.
Qed.

(** X13: With a provider name that is none of [anthropic], [google] and
    [openai], a request whose documents can be read reads them all, then
    fails with the unknown-provider error behind the prefix of the
    dispatcher, and leaves the world as it was. *)
Theorem unknown_provider_fails_request (kind : TaskKind)
    (documents guidelines : list string) (outputDirectory projectName : string)
    (w : World) :
  config_fault w = None →
  (∀ p, selected_provider (config w) ≠ provider_tag p) →
  (∀ d, d ∈ kind_documents kind documents guidelines → readable w d) →
  claude_request kind documents guidelines outputDirectory projectName w
  = (Ok {| success := false; outputPath := None;
           error := Some ("Failed to communicate with AI: Unknown AI provider: "
                          ++ selected_provider (config w))%string |}, w).
Proof.
  intros Hcfg Hunknown Hread.
  rewrite direct_request_run by (done || apply (Hunknown GoogleDirect)).
  rewrite claude_prompt_run by done.
  destruct (sendToAI_cases
              (build_prompt kind
                 (map (rendered_block w (source_label kind)) documents)
                 (map (rendered_block w "Prompting Document") guidelines) projectName)
              w Hcfg) as [(msg & -> & Hmsg)|(p & o & t & Hp & _)].
  - by rewrite (Hmsg Hunknown).
  - by destruct (Hunknown p).
Qed.

(** X14: A request that reports success with a provider other than [google]
    has read every document, made exactly one outbound call, to the
    selected provider with the prompt built from the documents and with the
    model of the settings or, when none is set, [claude-3-5-sonnet-20241022]
    whichever provider is selected; it has written the text of the answer
    at the path it reports, into a directory that existed, and changed no
    other file and no directory. *)
Theorem direct_request_success (kind : TaskKind) (documents guidelines : list string)
    (outputDirectory projectName path : string) (w w' : World) :
  selected_provider (config w) ≠ "google" →
  claude_request kind documents guidelines outputDirectory projectName w
  = (Ok (succeeded path), w') →
  ∃ p prompt text w1,
    p ≠ GoogleDirect
    ∧ selected_provider (config w) = provider_tag p
    ∧ (∀ d, d ∈ kind_documents kind documents guidelines → readable w d)
    ∧ claude_prompt kind documents guidelines projectName w = (Ok prompt, w)
    ∧ ClaudeService.sendToAI prompt w = (Ok text, w1)
    ∧ net_calls w' = net_calls w ++ [direct_call p (direct_model (config w)) prompt]
    ∧ path = direct_artifact_path kind outputDirectory projectName (clock w1)
    ∧ fs_files w' = <[path := text]> (fs_files w)
    ∧ fs_dirs w' = fs_dirs w
    ∧ path_dirname path ∈ fs_dirs w.
Proof.
  intros Hprovider E.
  assert (config_fault w = None) as Hcfg.
  { destruct (config_fault w) as [fault|] eqn:Hfault; [|done].
    by rewrite claude_request_run, Hfault in E. }
  rewrite direct_request_run in E by done.
  destruct (claude_prompt_cases kind documents guidelines projectName w)
    as [(prompt & Ep)|(msg & p & Ep & _)]; rewrite Ep in E; [|done].
  destruct (sendToAI_cases prompt w Hcfg)
    as [(msg & Es & _)|(p & o & t & Hp & Es & Ho & Hthrow & _)];
    rewrite Es in E; [done|].
  destruct o as [text|e|]; [| |done].
  2:{ destruct (Hthrow e eq_refl) as (msg & ->). done. }
  cbv zeta in E. set (w1 := set_clock t _) in *.
  destruct (writeFile _ text w1) as [[[]|e|] w2] eqn:Ew; [| |done].
  2:{ by destruct e. }
  injection E as <- <-.
  assert (path_dirname (direct_artifact_path kind outputDirectory projectName (clock w1))
          ∈ fs_dirs w) as Hdir.
  { unfold writeFile, guarded in Ew. repeat case_match; try done.
    by eapply bool_decide_eq_true_1. }
  apply writeFile_Ok_inv in Ew as ->.
  exists p, prompt, text, w1. split_and!; try done.
  - intros ->. by apply Hprovider.
  - by eapply claude_prompt_readable.
Qed.

(** All calls of a request of [GeminiService] go to the Files API and its
    generation endpoint. *)
Lemma gemini_request_files_api kind documents guidelines outputDirectory projectName model :
  preserves (calls_only is_files_api)
    (gemini_request kind documents guidelines outputDirectory projectName model).
Proof.
  intros w.
  destruct (gemini_staging_keeps kind documents guidelines outputDirectory w)
    as (Hn1 & _).
  destruct (gemini_staging kind documents guidelines outputDirectory w)
    as [[[root copied]|e|] w1] eqn:Es; simpl in Hn1.
  - destruct (request_cleanup kind documents guidelines outputDirectory projectName model
                w root copied w1 Es) as (_ & w' & added & _ & -> & _ & Hn & _).
    destruct (gemini_upload_and_write_keeps kind documents guidelines outputDirectory
                projectName model root copied w1) as (_ & _ & _ & _ & (l & Hl & Hall)).
    exists l. split; [congruence | done].
  - rewrite gemini_request_run, Es. exists []. by rewrite app_nil_r.
  - rewrite gemini_request_run, Es. exists []. by rewrite app_nil_r.
Qed.

(** X15: Whatever the settings, the documents and the answers are, a public
    operation of [ClaudeService] returns a result and never calls the
    text endpoint of Google, the one [sendToGoogle] uses: with [google]
    selected every call goes to the Files API and its generation endpoint,
    and with another provider the operation makes no call or the one call
    of that provider. *)
Theorem claude_request_routing (kind : TaskKind) (documents guidelines : list string)
    (outputDirectory projectName : string) (w : World) :
  ∃ r w' l,
    claude_request kind documents guidelines outputDirectory projectName w = (Ok r, w')
    ∧ net_calls w' = net_calls w ++ l
    ∧ (∀ model prompt, GoogleGenerateContent model prompt ∉ l)
    ∧ (selected_provider (config w) = "google" → Forall is_files_api l)
    ∧ (selected_provider (config w) ≠ "google" →
       direct_calls kind documents guidelines projectName w l).
Proof.
  destruct (claude_request_effects kind documents guidelines outputDirectory projectName w)
    as (r & w' & E & _). exists r, w'. rewrite E.
  assert (∀ w'', (Ok r, w') = (Ok r, w'') → net_calls w' = net_calls w →
            ∃ l, (Ok r, w') = (Ok r, w') ∧ net_calls w' = net_calls w ++ l
                 ∧ (∀ model prompt, GoogleGenerateContent model prompt ∉ l)
                 ∧ (selected_provider (config w) = "google" → Forall is_files_api l)
                 ∧ (selected_provider (config w) ≠ "google" →
                    direct_calls kind documents guidelines projectName w l)) as Hnone.
  { intros w'' _ Hn. exists [].
    split_and!; [done | by rewrite app_nil_r | by intros ?? ?%elem_of_nil | done
                | by left]. }
  destruct (config_fault w) as [fault|] eqn:Hcfg.
  { rewrite claude_request_run, Hcfg in E. injection E as <- <-. by eapply Hnone. }
  destruct (decide (selected_provider (config w) = "google")) as [Hg|Hg].
  - destruct (delegated_request_effects kind documents guidelines outputDirectory
                projectName w Hcfg Hg) as (r' & w'' & E' & Hw'' & _).
    rewrite E in E'. injection E' as <- <-.
    pose proof (gemini_request_files_api kind documents guidelines outputDirectory
                  projectName (gemini_model (config w)) w) as (l & Hl & Hall).
    rewrite <- Hw'' in Hl. exists l. split_and!; try done.
    intros model prompt Hin. by apply (proj1 (Forall_forall _ _) Hall) in Hin.
  - rewrite direct_request_run in E by done.
    destruct (claude_prompt_cases kind documents guidelines projectName w)
      as [(prompt & Ep)|(msg & p & Ep & _)]; rewrite Ep in E.
    2:{ injection E as <- <-. by eapply Hnone. }
    destruct (sendToAI_cases prompt w Hcfg)
      as [(msg & Es & _)|(p & o & t & Hp & Es & Ho & Hthrow & _)];
      rewrite Es in E.
    { injection E as <- <-. by eapply Hnone. }
    exists [direct_call p (direct_model (config w)) prompt].
    assert (p ≠ GoogleDirect) as Hp' by (intros ->; by apply Hg).
    assert (net_calls w'
            = net_calls w ++ [direct_call p (direct_model (config w)) prompt]) as Hn.
    { destruct o as [text|e|]; [| |done].
      2:{ destruct (Hthrow e eq_refl) as (msg & ->). by injection E as <- <-. }
      cbv zeta in E. set (w1 := set_clock t _) in *.
      destruct (writeFile_cases
                  (direct_artifact_path kind outputDirectory projectName (clock w1))
                  text w1) as [Ew|[(msg & Ew)|(msg & written & _ & Ew)]];
        rewrite Ew in E; by injection E as <- <-. }
    split_and!; try done.
    + intros model prompt' Hin. apply list_elem_of_singleton in Hin. by destruct p.
    + intros _. right. exists p, prompt. split_and!; try done. by rewrite Ep.
Qed.

End DirectRequests.

(** ** The answer of Anthropic *)

Section AnthropicAnswer.
Context `{Host}.

(** X16: With a credential that is present and not made of white space, and
    settings that can be read, [sendToAnthropic] makes exactly one call, with
    the model and the prompt it was given, and returns the texts of the text
    blocks of the answer joined in their order; blocks of another type add
    nothing, so an answer without text blocks gives the empty string.  A
    rejected call throws the value of the rejection.  Only the log of calls
    and the clock change. *)
Theorem sendToAnthropic_joins_text (prompt model : string) (w : World) :
  config_fault w = None →
  (∃ k, anthropicApiKey (config w) = Some k ∧ ¬ white_space_only k) →
  let r := reply_blocks (remote w) (length (net_calls w))
             (AnthropicMessagesCreate model prompt) in
  ClaudeService.sendToAnthropic prompt model w
  = (match payload r with
     | inr content => Ok (text_of_blocks content)
     | inl e => Throw e
     end,
     set_clock (clock w + latency r)
       (set_net_calls (net_calls w ++ [AnthropicMessagesCreate model prompt]) w)).
Proof.
  intros Hcfg (k & Hk & Hwhite). cbv zeta.
  assert (ClaudeService.key_missing (anthropicApiKey (config w)) = false) as Hkey.
  { destruct (ClaudeService.key_missing _) eqn:E; [|done].
    apply key_missing_blank in E as [Hnone|(k' & Hk' & Hblank)]; [congruence|].
    rewrite Hk in Hk'. injection Hk' as <-. done. }
  unfold ClaudeService.sendToAnthropic, bind, getConfiguration, call_remote.
  rewrite Hcfg, Hkey. destruct (payload _) as [e|content]; [done|].
  unfold ret. by rewrite fold_text_blocks.
Qed.

End AnthropicAnswer.

(** ** An answer that cannot be written *)

Section LostAnswer.
Context `{Host}.

(** X17: The output directory is looked at only when the artifact is written.
    With a provider other than [google], a request whose output directory
    does not exist reads the documents, calls the provider, and only then
    fails with the error of the write: the call was made and its answer is
    not kept anywhere. *)
Theorem direct_request_answer_lost (kind : TaskKind) (documents guidelines : list string)
    (outputDirectory projectName : string) (w : World)
    (prompt text : string) (w1 : World) :
  config_fault w = None →
  selected_provider (config w) ≠ "google" →
  claude_prompt kind documents guidelines projectName w = (Ok prompt, w) →
  ClaudeService.sendToAI prompt w = (Ok text, w1) →
  let path := direct_artifact_path kind outputDirectory projectName (clock w1) in
  path_dirname path ∉ fs_dirs w →
  path ∉ fs_dirs w →
  fs_fault w (OpWriteFile path) = None →
  claude_request kind documents guidelines outputDirectory projectName w
  = (Ok {| success := false; outputPath := None;
           error := Some ("ENOENT: no such file or directory, open '" ++ path
                          ++ "'")%string |}, w1)
  ∧ (∃ call, net_calls w1 = net_calls w ++ [call])
  ∧ fs_files w1 = fs_files w
  ∧ fs_writes w1 = fs_writes w.
Proof.
  intros Hcfg Hprovider Ep Es path Hdir Hpath Hfault.
  rewrite direct_request_run, Ep, Es by done. cbv zeta. fold path.
  destruct (sendToAI_cases prompt w Hcfg)
    as [(msg & Es' & _)|(p & o & t & Hp & Es' & Ho & _)];
    rewrite Es in Es'; [done|]. injection Es' as <- ->.
  unfold writeFile, guarded. simpl. rewrite Hfault.
  rewrite bool_decide_eq_false_2 by done. rewrite bool_decide_eq_false_2 by done.
  split_and!; try done. by eexists.
Qed.

End LostAnswer.

(** ** The further properties on example worlds *)

Lemma copyFilesToUploadsFolder_copies_witness :
  let w := Examples.project "google" (Examples.prompt_remote (Some "# Spec")) in
  let x := GeminiService.copyFilesToUploadsFolder
             ["/proj/docs/a.md"; "/proj/docs/b.md"] "/proj" w in
  x.1 = Ok ["/proj/uploads-to-GenAI/a.md"; "/proj/uploads-to-GenAI/b.md"]
  ∧ fs_files x.2 !! "/proj/uploads-to-GenAI/b.md" = Some "# B"
  ∧ (fs_dirs x.2 = fs_dirs w ∨ fs_dirs x.2 = {[ "/proj/uploads-to-GenAI" ]} ∪ fs_dirs w)
  ∧ net_calls x.2 = net_calls w.
Proof.
  intros w x.
  assert (GeminiService.copyFilesToUploadsFolder
            ["/proj/docs/a.md"; "/proj/docs/b.md"] "/proj" w
          = (Ok ["/proj/uploads-to-GenAI/a.md"; "/proj/uploads-to-GenAI/b.md"], x.2)) as E
    by (vm_compute; reflexivity).
  destruct (copyFilesToUploadsFolder_copies _ _ _ _ _ E)
    as (_ & _ & _ & (_ & _ & Hdirs) & Hn & _ & Hlast).
  split; [vm_compute; reflexivity|].
  split_and!; [| |exact Hn].
  - assert (∀ s, s ∈ ["/proj/docs/a.md"; "/proj/docs/b.md"] →
              GeminiService.normalizePath s
              ∉ ["/proj/uploads-to-GenAI/a.md"; "/proj/uploads-to-GenAI/b.md"]) as Hsrc.
    { intros s Hs Hin. repeat (apply elem_of_cons in Hs as [->|Hs]);
        [| |by apply elem_of_nil in Hs];
        repeat (apply elem_of_cons in Hin as [Hin|Hin]; [done|]);
        by apply elem_of_nil in Hin. }
    exact (Hlast Hsrc ["/proj/docs/a.md"] "/proj/docs/b.md" [] eq_refl
             ltac:(apply not_elem_of_nil)).
  - apply Hdirs. vm_compute. set_solver.
Defined.

Lemma waitActive_returns_first_active_witness :
  let w := Examples.project "google" (Scenarios.slow_remote 2 1000 Examples.active_file) in
  ∃ w',
    GeminiService.waitActive 82 "files/abc" 120000 1500 w
    = (Ok (Some Examples.active_file), w')
    ∧ net_calls w' = net_calls w ++ replicate 3 (FilesGet "files/abc")
    ∧ clock w + N.of_nat 2 * 1500 ≤ clock w'.
Proof.
  intros w.
  apply (waitActive_returns_first_active 2 82 "files/abc" 120000 1500 1000
           Examples.active_file w).
  - lia.
  - intros i Hi. destruct i as [|[|i]]; [| |lia]; simpl; split_and!; (done || lia).
  - reflexivity.
  - reflexivity.
  - vm_compute. discriminate.
Defined.

Lemma waitActive_throws_first_failed_witness :
  let w := Examples.project "google" (Scenarios.slow_remote 1 1000 Scenarios.failed_file) in
  ∃ w',
    GeminiService.waitActive 82 "files/abc" 120000 1500 w
    = (Throw (Err "File failed processing: files/abc"), w')
    ∧ net_calls w' = net_calls w ++ replicate 2 (FilesGet "files/abc")
    ∧ clock w + N.of_nat 1 * 1500 ≤ clock w'.
Proof.
  intros w.
  apply (waitActive_throws_first_failed 1 82 "files/abc" 120000 1500 1000
           Scenarios.failed_file w).
  - lia.
  - intros i Hi. destruct i as [|i]; [|lia]; simpl; split_and!; (done || lia).
  - reflexivity.
  - reflexivity.
  - vm_compute. discriminate.
Defined.

Lemma loadEnvApiKey_environment_first_witness :
  let w := set_env {[ "GEMINI_API_KEY" := "env-key" ]}
             (Examples.project "google" (Examples.prompt_remote (Some "# Spec"))) in
  fs_files w !! "/proj/.env" = Some "GEMINI_API_KEY=test-key"
  ∧ (GeminiService.loadEnvApiKey "/proj" w).1 = Ok "env-key".
Proof.
  intros w. split; [reflexivity|].
  destruct (loadEnvApiKey_environment_first "/proj" "env-key" w eq_refl
              ltac:(discriminate)) as (w' & E & _).
  rewrite E. reflexivity.
Defined.

Lemma google_requests_are_delegated_witness :
  let w := Examples.project "google" (Examples.prompt_remote (Some "# Spec")) in
  let x := gemini_request SpecGeneration ["/proj/docs/a.md"] ["/proj/docs/b.md"]
             "/proj/out" "demo" "gemini-2.5-flash" w in
  (∃ r, x.1 = Ok r
        ∧ claude_request SpecGeneration ["/proj/docs/a.md"] ["/proj/docs/b.md"]
            "/proj/out" "demo" w = x)
  ∨ (x.1 = Throw (Err "Cannot convert object to primitive value")
     ∧ claude_request SpecGeneration ["/proj/docs/a.md"] ["/proj/docs/b.md"] "/proj/out"
         "demo" w
       = (Ok {| success := false; outputPath := None;
                error := Some "Cannot convert object to primitive value" |}, x.2)).
Proof.
  intros w.
  exact (proj1 (google_requests_are_delegated SpecGeneration ["/proj/docs/a.md"]
                  ["/proj/docs/b.md"] "/proj/out" "demo" w eq_refl eq_refl)).
Defined.

(** The delegation when [GeminiService] throws: the remote side rejects the
    upload with a value that has no string conversion. *)
Example google_request_delegated_failure :
  let w := Examples.project "google" Scenarios.opaque_remote in
  let x := gemini_request SpecGeneration ["/proj/docs/a.md"] ["/proj/docs/b.md"]
             "/proj/out" "demo" "gemini-2.5-flash" w in
  x.1 = Throw (Err "Cannot convert object to primitive value")
  ∧ claude_request SpecGeneration ["/proj/docs/a.md"] ["/proj/docs/b.md"] "/proj/out"
      "demo" w
    = (Ok {| success := false; outputPath := None;
             error := Some "Cannot convert object to primitive value" |}, x.2).
Proof. intros w x. split; vm_compute; reflexivity. Qed.

Lemma gemini_success_protocol_witness :
  let w := Examples.project "google" (Examples.prompt_remote (Some "# Spec")) in
  let x := gemini_request SpecGeneration ["/proj/docs/a.md"] ["/proj/docs/b.md"]
             "/proj/out" "demo" "gemini-2.5-flash" w in
  x.1 = Ok (succeeded "/proj/out/demo-spec-2025-11-03T00-00-00.md")
  ∧ ∃ projectRoot files calls,
      (GeminiService.findProjectRoot "/proj/out" w).1 = Ok projectRoot
      ∧ upload_trace (remote w) (length (net_calls w))
          (map (staged_path projectRoot) ["/proj/docs/a.md"; "/proj/docs/b.md"])
          calls files
      ∧ length files = 2%nat
      ∧ net_calls x.2
        = net_calls w ++ calls
          ++ [ModelsGenerateContent "gemini-2.5-flash"
                (gemini_prompt SpecGeneration ["/proj/docs/a.md"] ["/proj/docs/b.md"]
                   "demo")
                (map (λ f, {| fileUri := f_uri f;
                              mimeType := JS.or_default (f_mimeType f)
                                            "application/octet-stream" |}) files)
                (Some (gemini_systemInstruction SpecGeneration))].
Proof.
  intros w x.
  assert (gemini_request SpecGeneration ["/proj/docs/a.md"] ["/proj/docs/b.md"]
            "/proj/out" "demo" "gemini-2.5-flash" w
          = (Ok (succeeded "/proj/out/demo-spec-2025-11-03T00-00-00.md"), x.2)) as E
    by (vm_compute; reflexivity).
  split; [vm_compute; reflexivity|].
  exact (gemini_success_protocol SpecGeneration ["/proj/docs/a.md"] ["/proj/docs/b.md"]
           "/proj/out" "demo" "gemini-2.5-flash" _ w x.2 E eq_refl).
Defined.

(** The calls of that request, one by one: each upload is followed by the
    status query that reports the file ACTIVE, and the generation request
    carries the URI of that report. *)
Example scenario_success_calls :
  let w := Examples.project "google" (Examples.prompt_remote (Some "# Spec")) in
  let x := gemini_request SpecGeneration ["/proj/docs/a.md"] ["/proj/docs/b.md"]
             "/proj/out" "demo" "gemini-2.5-flash" w in
  net_calls x.2
  = [ FilesUpload "/proj/uploads-to-GenAI/a.md" "text/markdown" "a.md";
      FilesGet "files/abc";
      FilesUpload "/proj/uploads-to-GenAI/b.md" "text/markdown" "b.md";
      FilesGet "files/abc";
      ModelsGenerateContent "gemini-2.5-flash"
        (gemini_prompt SpecGeneration ["/proj/docs/a.md"] ["/proj/docs/b.md"] "demo")
        [ active_part Examples.active_file; active_part Examples.active_file ]
        (Some (gemini_systemInstruction SpecGeneration)) ]
  ∧ fs_files x.2 !! "/proj/out/demo-spec-2025-11-03T00-00-00.md" = Some "# Spec"
  ∧ fs_dirs x.2 = {[ "/proj/uploads-to-GenAI" ]} ∪ fs_dirs w.
Proof.
  intros w x. split_and!; vm_compute; reflexivity.
Qed.

(** The footprint of a request whose write is failed midway: the artifact
    is there in part, nothing else has changed but the staging folder. *)
Example scenario_footprint_torn :
  let w := Scenarios.full_disk
             (Examples.project "google" (Examples.prompt_remote (Some "# Spec"))) in
  let x := gemini_request SpecGeneration ["/proj/docs/a.md"] [] "/proj/out" "demo"
             "gemini-2.5-flash" w in
  x.1 = Ok (failure "ENOSPC: no space left on device, write")
  ∧ fs_files x.2
    = <["/proj/out/demo-spec-2025-11-03T00-00-00.md" := "# S"]> (fs_files w)
  ∧ fs_writes x.2 = []
  ∧ length (net_calls x.2) = 3%nat.
Proof.
  intros w x. split_and!; vm_compute; reflexivity.
Qed.

(** [uploadAndGenerate] on a remote side that rejects the generation: the
    uploads and the polls were made and the generation request is the last
    call. *)
Example scenario_generation_last :
  let w := Examples.project "google" Examples.refusing_remote in
  let x := GeminiService.uploadAndGenerate ["/proj/docs/a.md"] "prompt" "/proj"
             "gemini-2.5-flash" None w in
  x.1 = Throw (Err "503 Service Unavailable")
  ∧ net_calls x.2
    = [ FilesUpload "/proj/docs/a.md" "text/markdown" "a.md";
        FilesGet "files/abc";
        ModelsGenerateContent "gemini-2.5-flash" "prompt"
          [ active_part Examples.active_file ] None ].
Proof. intros w x. split; vm_compute; reflexivity. Qed.

Lemma gemini_request_key_gate_witness :
  let w := Scenarios.keyless_project in
  let s := gemini_staging SpecGeneration ["/proj/docs/a.md"] ["/proj/docs/b.md"]
             "/proj/out" w in
  s.1 = Ok ("/proj", ["/proj/uploads-to-GenAI/a.md"; "/proj/uploads-to-GenAI/b.md"])
  ∧ ∃ w',
      gemini_request SpecGeneration ["/proj/docs/a.md"] ["/proj/docs/b.md"] "/proj/out"
        "demo" "gemini-2.5-flash" w
      = (Ok {| success := false; outputPath := None;
               error := Some "GEMINI_API_KEY not found in .env file at /proj/.env. Please add: GEMINI_API_KEY=your_key" |},
         w')
      ∧ net_calls w' = net_calls w
      ∧ fs_writes w' = fs_writes w
      ∧ ∀ filePath,
          filePath ∈ ["/proj/uploads-to-GenAI/a.md"; "/proj/uploads-to-GenAI/b.md"] →
          cleaned_up w w' filePath.
Proof.
  intros w s.
  assert (gemini_staging SpecGeneration ["/proj/docs/a.md"] ["/proj/docs/b.md"]
            "/proj/out" w
          = (Ok ("/proj", ["/proj/uploads-to-GenAI/a.md"; "/proj/uploads-to-GenAI/b.md"]),
             s.2)) as Es by (vm_compute; reflexivity).
  split; [vm_compute; reflexivity|].
  apply (gemini_request_key_gate SpecGeneration ["/proj/docs/a.md"] ["/proj/docs/b.md"]
           "/proj/out" "demo" "gemini-2.5-flash" w "/proj" _ s.2 _ Es).
  vm_compute. reflexivity.
Defined.

Lemma unreadable_document_fails_request_witness :
  let w := Examples.project "anthropic" (Examples.prompt_remote (Some "# Spec")) in
  ∃ (msg : string) p,
    claude_request SpecGeneration ["/proj/docs/a.md"] ["/proj/docs/missing.md"]
      "/proj/out" "demo" w
    = (Ok {| success := false; outputPath := None; error := Some msg |}, w)
    ∧ p ∈ ["/proj/docs/a.md"; "/proj/docs/missing.md"]
    ∧ (readFile p w).1 = Throw (Err msg).
Proof.
  intros w.
  apply (unreadable_document_fails_request SpecGeneration ["/proj/docs/a.md"]
           ["/proj/docs/missing.md"] "/proj/out" "demo" w "/proj/docs/missing.md").
  - reflexivity.
  - vm_compute. discriminate.
  - simpl. apply elem_of_cons. right. apply elem_of_cons. by left.
  - intros [_ [c Hc]]. vm_compute in Hc. discriminate.
Defined.

Lemma unknown_provider_fails_request_witness :
  let w := Examples.project "mistral" (Examples.prompt_remote (Some "# Spec")) in
  claude_request SpecGeneration ["/proj/docs/a.md"] ["/proj/docs/b.md"] "/proj/out" "demo" w
  = (Ok {| success := false; outputPath := None;
           error := Some "Failed to communicate with AI: Unknown AI provider: mistral" |},
     w).
Proof.
  intros w.
  apply (unknown_provider_fails_request SpecGeneration ["/proj/docs/a.md"]
           ["/proj/docs/b.md"] "/proj/out" "demo" w).
  - reflexivity.
  - intros []; vm_compute; discriminate.
  - intros d Hd. simpl in Hd.
    repeat (apply elem_of_cons in Hd as [->|Hd]); [| |by apply elem_of_nil in Hd];
      (split; [reflexivity | eexists; vm_compute; reflexivity]).
Defined.

Lemma direct_request_success_witness :
  let w := Examples.project "anthropic" (Examples.prompt_remote (Some "# Spec")) in
  let x := claude_request ImplementationGeneration ["/proj/docs/a.md"] []
             "/proj/out" "demo" w in
  x.1 = Ok (succeeded "/proj/out/demo-game-2025-11-03T00-00-00.txt")
  ∧ ∃ prompt,
      net_calls x.2 = [AnthropicMessagesCreate "claude-3-5-sonnet-20241022" prompt]
      ∧ fs_files x.2
        = <["/proj/out/demo-game-2025-11-03T00-00-00.txt" := "# Spec"]> (fs_files w).
Proof.
  intros w x.
  assert (claude_request ImplementationGeneration ["/proj/docs/a.md"] []
            "/proj/out" "demo" w
          = (Ok (succeeded "/proj/out/demo-game-2025-11-03T00-00-00.txt"), x.2)) as E
    by (vm_compute; reflexivity).
  split; [vm_compute; reflexivity|].
  destruct (direct_request_success ImplementationGeneration ["/proj/docs/a.md"] []
              "/proj/out" "demo" _ w x.2 ltac:(vm_compute; discriminate) E)
    as (p & prompt & text & w1 & Hp & Htag & _ & _ & Es & Hn & _ & Hf & _).
  exists prompt.
  assert (p = Anthropic) as -> by (destruct p; vm_compute in Htag; congruence).
  assert (text = "# Spec") as ->.
  { destruct (ClaudeService.sendToAI prompt w) as [o w2] eqn:Es'.
    injection Es as -> ->. vm_compute in Es'. by injection Es' as <- _. }
  split; [exact Hn | exact Hf].
Defined.

Lemma sendToAnthropic_joins_text_witness :
  let w := Examples.project "anthropic" Scenarios.mixed_blocks_remote in
  ClaudeService.sendToAnthropic "prompt" "claude-3-5-sonnet-20241022" w
  = (Ok "# Spec v2",
     set_clock (clock w + 700)
       (set_net_calls
          [AnthropicMessagesCreate "claude-3-5-sonnet-20241022" "prompt"] w)).
Proof.
  intros w.
  assert (∃ k, anthropicApiKey (config w) = Some k ∧ ¬ white_space_only k) as Hkey.
  { exists "sk-ant-test". split; [reflexivity|].
    intros Hwhite. apply trim_empty in Hwhite. by vm_compute in Hwhite. }
  exact (sendToAnthropic_joins_text "prompt" "claude-3-5-sonnet-20241022" w
           eq_refl Hkey).
Defined.

Lemma direct_request_answer_lost_witness :
  let w := Examples.project "anthropic" (Examples.prompt_remote (Some "# Spec")) in
  let x := claude_request SpecGeneration ["/proj/docs/a.md"] ["/proj/docs/b.md"]
             "/proj/missing" "demo" w in
  x.1 = Ok (failure "ENOENT: no such file or directory, open '/proj/missing/demo-spec-2025-11-03T00-00-00.md'")
  ∧ length (net_calls x.2) = 1%nat
  ∧ fs_files x.2 = fs_files w.
Proof.
  intros w x.
  edestruct (direct_request_answer_lost SpecGeneration ["/proj/docs/a.md"]
               ["/proj/docs/b.md"] "/proj/missing" "demo" w)
    as (E & (call & Hn) & Hf & _);
    [reflexivity | vm_compute; discriminate | vm_compute; reflexivity
    | vm_compute; reflexivity | vm_compute; set_solver | vm_compute; set_solver
    | reflexivity |].
  unfold x. rewrite E. split_and!; [vm_compute; reflexivity | | exact Hf].
  cbn [snd]. by rewrite Hn.
Defined.

